(** * MarlinX2 motion planner (Marlin/planner.cpp)

    A shallow embedding of the planner: the ring buffer of motion blocks, the
    trapezoid generator, the look-ahead passes, the block builder
    [plan_buffer_line], the position setters and the axis-activity scan.

    Conventions of the embedding.
    - C [float]/[double] values are rationals ([Q]) with exact arithmetic;
      [sqrt] is a parameter [fsqrt] of the development (libm is external).
    - fixed-width integers are [Z] with the wrap-around of every store
      written out ([u8], [i8], [u32], [i32]).
    - pointers into [block_buffer] are ring indices; a NULL pointer is [None].
    - the headers (Marlin.h, planner.h, Configuration.h) are not part of the
      sources: their constants and the globals owned by other files are the
      fields of [config]; the optional features C_COMPENSATION,
      XY_FREQUENCY_LIMIT, PREVENT_DANGEROUS_EXTRUDE, AUTOTEMP, FAN_SOFT_PWM and
      FAN_KICKSTART_TIME are compiled out, SLOWDOWN and PER_EXTRUDER_FANS are
      switches of [config], and [EXTRUDERS > 1] guards what the source guards
      with it.
    - calls into the I/O layer that return nothing to the planner
      (enable_x, st_wake_up, st_set_position, ...) are left out, except the
      motor-disable and fan outputs of [check_axes_activity]. *)

From Stdlib Require Import ZArith QArith Qround Qabs Bool List Lia Lqa.
Import ListNotations.

Local Open Scope Z_scope.

(** ** Fixed-width integers *)

Definition wrap_unsigned (w z : Z) : Z := z mod 2 ^ w.
Definition wrap_signed (w z : Z) : Z := (z + 2 ^ (w - 1)) mod 2 ^ w - 2 ^ (w - 1).

Definition u8 : Z -> Z := wrap_unsigned 8.
Definition i8 : Z -> Z := wrap_signed 8.
Definition u32 : Z -> Z := wrap_unsigned 32.
Definition i32 : Z -> Z := wrap_signed 32.

(** The Arduino [min]/[max] macros: [((a)<(b)?(a):(b))], [((a)>(b)?(a):(b))]. *)
Definition zmin (a b : Z) : Z := if a <? b then a else b.
Definition zmax (a b : Z) : Z := if a >? b then a else b.

(** ** Floating-point values, idealised *)

Definition float := Q.
Bind Scope Q_scope with float.

Definition flt (a b : float) : bool := negb (Qle_bool b a).
Definition fgt (a b : float) : bool := flt b a.
Definition fle (a b : float) : bool := Qle_bool a b.
Definition feq (a b : float) : bool := Qeq_bool a b.
Definition fmin (a b : float) : float := if flt a b then a else b.
Definition fmax (a b : float) : float := if fgt a b then a else b.
Definition fabs (a : float) : float := Qabs a.
Definition square (a : float) : float := (a * a)%Q.
Definition ceil (a : float) : Z := Qceiling a.
Definition floor (a : float) : Z := Qfloor a.

(** Conversion of a float to an integer type truncates toward zero. *)
Definition ftrunc (a : float) : Z := Z.quot (Qnum a) (Z.pos (Qden a)).

(** [lround]: to the nearest integer, halfway cases away from zero. *)
Definition lround (a : float) : Z :=
  if Qle_bool 0 a then Qfloor (a + (1 # 2))%Q else Qceiling (a - (1 # 2))%Q.

Definition of_int (z : Z) : float := inject_Z z.

(** ** Axes *)

Definition X_AXIS : Z := 0.
Definition Y_AXIS : Z := 1.
Definition Z_AXIS : Z := 2.
Definition E_AXIS : Z := 3.

(** An array indexed by the four axes ([long target[4]], [float delta_mm[4]],
    [position[NUM_AXIS]], ...). *)
Record axes (A : Type) : Type := mk_axes { ax_x : A; ax_y : A; ax_z : A; ax_e : A }.
Arguments mk_axes {A}.
Arguments ax_x {A}.
Arguments ax_y {A}.
Arguments ax_z {A}.
Arguments ax_e {A}.

Definition set_ax_e {A} (v : axes A) (e : A) : axes A :=
  mk_axes (ax_x v) (ax_y v) (ax_z v) e.

(** ** Motion blocks

    [block_t] is declared in planner.h; the fields are those planner.cpp
    reads and writes, with the widths its casts and locals show. *)
Record block_t : Type := mk_block {
  steps_x : Z; steps_y : Z; steps_z : Z; steps_e : Z;   (* long *)
  step_event_count : Z;                                 (* unsigned long *)
  accelerate_until : Z;                                 (* long *)
  decelerate_after : Z;                                 (* long *)
  acceleration_rate : Z;                                (* long *)
  direction_bits : Z;                                   (* unsigned char *)
  active_extruder : Z;                                  (* unsigned char *)
  nominal_speed : float;
  entry_speed : float;
  max_entry_speed : float;
  millimeters : float;
  acceleration : float;
  recalculate_flag : bool;
  nominal_length_flag : bool;
  nominal_rate : Z;                                     (* unsigned long *)
  initial_rate : Z;                                     (* unsigned long *)
  final_rate : Z;                                       (* unsigned long *)
  acceleration_st : Z;                                  (* unsigned long *)
  fan_speed : Z;
  travel : bool; retract : bool; restore : bool;
  busy : bool
}.

Definition set_entry_speed (b : block_t) (v : float) : block_t :=
  mk_block (steps_x b) (steps_y b) (steps_z b) (steps_e b) (step_event_count b)
    (accelerate_until b) (decelerate_after b) (acceleration_rate b)
    (direction_bits b) (active_extruder b) (nominal_speed b) v
    (max_entry_speed b) (millimeters b) (acceleration b) (recalculate_flag b)
    (nominal_length_flag b) (nominal_rate b) (initial_rate b) (final_rate b)
    (acceleration_st b) (fan_speed b) (travel b) (retract b) (restore b) (busy b).

Definition set_recalculate_flag (b : block_t) (v : bool) : block_t :=
  mk_block (steps_x b) (steps_y b) (steps_z b) (steps_e b) (step_event_count b)
    (accelerate_until b) (decelerate_after b) (acceleration_rate b)
    (direction_bits b) (active_extruder b) (nominal_speed b) (entry_speed b)
    (max_entry_speed b) (millimeters b) (acceleration b) v
    (nominal_length_flag b) (nominal_rate b) (initial_rate b) (final_rate b)
    (acceleration_st b) (fan_speed b) (travel b) (retract b) (restore b) (busy b).

(** The four stores of the trapezoid generator's commit. *)
Definition set_profile (b : block_t) (au da ir fr : Z) : block_t :=
  mk_block (steps_x b) (steps_y b) (steps_z b) (steps_e b) (step_event_count b)
    au da (acceleration_rate b)
    (direction_bits b) (active_extruder b) (nominal_speed b) (entry_speed b)
    (max_entry_speed b) (millimeters b) (acceleration b) (recalculate_flag b)
    (nominal_length_flag b) (nominal_rate b) ir fr
    (acceleration_st b) (fan_speed b) (travel b) (retract b) (restore b) (busy b).

(** ** Trapezoid generator *)

(** The hardware floor of the step rate; the source writes the literal 120. *)
Definition MIN_STEP_RATE : Z := 120.

Definition estimate_acceleration_distance (initial_rate target_rate acceleration : float) : float :=
  if negb (feq acceleration 0%Q)
  then ((target_rate * target_rate - initial_rate * initial_rate) / (2 * acceleration))%Q
  else 0%Q.

Definition intersection_distance (initial_rate final_rate acceleration distance : float) : float :=
  if negb (feq acceleration 0%Q)
  then ((2 * acceleration * distance - initial_rate * initial_rate + final_rate * final_rate)
        / (4 * acceleration))%Q
  else 0%Q.

(** What the stepper interrupt can observe of a commit. *)
Inductive profile_field : Type :=
  F_accelerate_until | F_decelerate_after | F_initial_rate | F_final_rate.

Inductive event : Type :=
| CRITICAL_SECTION_START
| Store (f : profile_field) (v : Z)
| CRITICAL_SECTION_END.

(** The locals of [calculate_trapezoid_for_block] at the commit. The local
    [target_rate] is reassigned in the triangle case but, without
    C_COMPENSATION, never read afterwards. *)
Record trapezoid : Type := mk_trapezoid {
  t_initial_rate : Z;       (* unsigned long initial_rate *)
  t_final_rate : Z;         (* unsigned long final_rate *)
  t_accelerate_steps : Z;   (* int32_t *)
  t_decelerate_steps : Z;   (* int32_t, as first computed *)
  t_plateau_steps : Z       (* int32_t *)
}.

Definition trapezoid_locals (block : block_t) (entry_factor exit_factor : float) : trapezoid :=
  (* the fields block->initial_rate and block->final_rate as the call finds them *)
  let block_initial_rate := initial_rate block in
  let block_final_rate := final_rate block in
  let initial_rate := u32 (ceil (of_int (nominal_rate block) * entry_factor)%Q) in
  let final_rate := u32 (ceil (of_int (nominal_rate block) * exit_factor)%Q) in
  let target_rate := nominal_rate block in
  let initial_rate := if initial_rate <? 120 then 120 else initial_rate in
  let final_rate := if final_rate <? 120 then 120 else final_rate in
  let final_rate := if final_rate >? target_rate then target_rate else final_rate in
  let acceleration := i32 (acceleration_st block) in
  let accelerate_steps :=
    i32 (ceil (estimate_acceleration_distance
                 (of_int block_initial_rate) (of_int target_rate) (of_int acceleration))) in
  let decelerate_steps :=
    i32 (floor (estimate_acceleration_distance
                  (of_int target_rate) (of_int block_final_rate) (of_int (- acceleration)))) in
  let plateau_steps := i32 (step_event_count block - accelerate_steps - decelerate_steps) in
  if plateau_steps <? 0 then
    let accelerate_steps :=
      i32 (ceil (intersection_distance
                   (of_int block_initial_rate) (of_int block_final_rate)
                   (of_int acceleration) (of_int (step_event_count block)))) in
    let accelerate_steps := zmax accelerate_steps 0 in
    let accelerate_steps := i32 (zmin (u32 accelerate_steps) (step_event_count block)) in
    mk_trapezoid initial_rate final_rate accelerate_steps decelerate_steps 0
  else
    mk_trapezoid initial_rate final_rate accelerate_steps decelerate_steps plateau_steps.

Definition calculate_trapezoid_for_block (block : block_t) (entry_factor exit_factor : float)
  : block_t * list event :=
  let t := trapezoid_locals block entry_factor exit_factor in
  if negb (busy block) then
    let au := t_accelerate_steps t in
    let da := i32 (t_accelerate_steps t + t_plateau_steps t) in
    (set_profile block au da (t_initial_rate t) (t_final_rate t),
     [CRITICAL_SECTION_START;
      Store F_accelerate_until au; Store F_decelerate_after da;
      Store F_initial_rate (t_initial_rate t); Store F_final_rate (t_final_rate t);
      CRITICAL_SECTION_END])
  else (block, [CRITICAL_SECTION_START; CRITICAL_SECTION_END]).

(** ** Configuration

    Constants of the missing headers and the kinematic globals other files
    set (M92, M201, M203, M204, M205, M221, tool change). The global
    [acceleration] is [default_acceleration] here: the block field keeps the
    name. Arrays over [3 + EXTRUDERS] or [EXTRUDERS] entries are functions of
    the index. *)
Record config : Type := mk_config {
  BLOCK_BUFFER_SIZE : Z;
  dropsegments : Z;
  MINIMUM_PLANNER_SPEED : float;
  EXTRUDERS : Z;
  ACTIVE_EXTRUDER : Z;
  SLOWDOWN : bool;
  PER_EXTRUDER_FANS : bool;
  DISABLE_X : bool; DISABLE_Y : bool; DISABLE_Z : bool; DISABLE_E : bool;
  FAN_PIN : Z;
  fan_pin : Z -> Z;
  follow_me_fan : bool;
  follow_me : Z;
  minsegmenttime : Z;                               (* unsigned long *)
  max_feedrate : Z -> float;
  axis_steps_per_unit : Z -> float;
  max_acceleration_units_per_sq_second : Z -> Z;    (* unsigned long *)
  minimumfeedrate : float;
  mintravelfeedrate : float;
  default_acceleration : float;
  retract_acceleration : Z -> float;
  max_e_jerk : Z -> float;
  max_xy_jerk : float;
  max_z_jerk : float;
  extrudemultiply : Z                               (* int *)
}.

(** ** Planner state: the file's globals *)
Record planner : Type := mk_planner {
  block_buffer : Z -> block_t;
  block_buffer_head : Z;                 (* volatile unsigned char *)
  block_buffer_tail : Z;                 (* volatile unsigned char *)
  position : axes Z;                     (* long position[NUM_AXIS] *)
  previous_speed : axes float;
  previous_nominal_speed : float;
  axis_steps_per_sqr_second : axes Z;    (* unsigned long *)
  last_extruder : Z;                     (* uint8_t *)
  fanSpeed : Z -> Z                      (* unsigned char fanSpeed[EXTRUDERS], of Marlin_main *)
}.

(** [block_buffer[i] = b]. *)
Definition store_block (buf : Z -> block_t) (i : Z) (b : block_t) : Z -> block_t :=
  fun j => if j =? i then b else buf j.

Definition set_block_buffer (st : planner) (buf : Z -> block_t) : planner :=
  mk_planner buf (block_buffer_head st) (block_buffer_tail st) (position st)
    (previous_speed st) (previous_nominal_speed st) (axis_steps_per_sqr_second st)
    (last_extruder st) (fanSpeed st).

Definition set_position (st : planner) (p : axes Z) : planner :=
  mk_planner (block_buffer st) (block_buffer_head st) (block_buffer_tail st) p
    (previous_speed st) (previous_nominal_speed st) (axis_steps_per_sqr_second st)
    (last_extruder st) (fanSpeed st).

Section Planner.

Variable cfg : config.

(** libm's [sqrt]. *)
Variable fsqrt : float -> float.

(** *** Ring indices *)

Definition next_block_index (block_index : Z) : Z :=
  let block_index := i8 block_index in
  let block_index := i8 (block_index + 1) in
  if block_index =? BLOCK_BUFFER_SIZE cfg then 0 else block_index.

Definition prev_block_index (block_index : Z) : Z :=
  let block_index := i8 block_index in
  let block_index := if block_index =? 0 then i8 (BLOCK_BUFFER_SIZE cfg) else block_index in
  i8 (block_index - 1).

Definition movesplanned (st : planner) : Z :=
  u8 (Z.land (block_buffer_head st - block_buffer_tail st + BLOCK_BUFFER_SIZE cfg)
             (BLOCK_BUFFER_SIZE cfg - 1)).

(** Modelled from the spec: [num_blocks_queued] is declared outside
    planner.cpp; the spec reads it as the queue depth
    [(head - tail) mod capacity]. *)
Definition num_blocks_queued (st : planner) : Z :=
  Z.land (block_buffer_head st - block_buffer_tail st + BLOCK_BUFFER_SIZE cfg)
         (BLOCK_BUFFER_SIZE cfg - 1).

(** The loops over the ring never run longer than the ring. *)
Definition ring_fuel : nat := S (Z.to_nat (BLOCK_BUFFER_SIZE cfg)).

(** *** Look-ahead *)

Definition max_allowable_speed (acceleration target_velocity distance : float) : float :=
  fsqrt (target_velocity * target_velocity - 2 * acceleration * distance)%Q.

(** A window [block_t *block[3]] of pointers into the ring. *)
Definition window : Type := (option Z * option Z * option Z)%type.

Definition planner_reverse_pass_kernel (previous current next : option Z)
  (buf : Z -> block_t) : Z -> block_t :=
  match current with
  | None => buf
  | Some c =>
    match next with
    | Some n =>
      let cur := buf c in
      let nxt := buf n in
      if negb (feq (entry_speed cur) (max_entry_speed cur)) then
        let cur :=
          if negb (nominal_length_flag cur) && fgt (max_entry_speed cur) (entry_speed nxt)
          then set_entry_speed cur
                 (fmin (max_entry_speed cur)
                       (max_allowable_speed (- acceleration cur) (entry_speed nxt) (millimeters cur)))
          else set_entry_speed cur (max_entry_speed cur) in
        store_block buf c (set_recalculate_flag cur true)
      else buf
    | None => buf
    end
  end.

(** The [while (block_index != tail)] loop of [planner_reverse_pass], over
    whatever the kernel works on. *)
Fixpoint reverse_pass_loop {A : Type} (kernel : option Z -> option Z -> option Z -> A -> A)
  (fuel : nat) (tail block_index : Z) (block : window) (a : A) : option A :=
  match fuel with
  | O => None
  | S fuel =>
    if negb (block_index =? tail) then
      let block_index := u8 (prev_block_index block_index) in
      let '(b0, b1, _) := block in
      let block : window := (Some block_index, b0, b1) in
      let '(b0, b1, b2) := block in
      reverse_pass_loop kernel fuel tail block_index block (kernel b0 b1 b2 a)
    else Some a
  end.

Definition reverse_pass {A : Type} (kernel : option Z -> option Z -> option Z -> A -> A)
  (head tail : Z) (a : A) : option A :=
  if Z.land (head - tail + BLOCK_BUFFER_SIZE cfg) (BLOCK_BUFFER_SIZE cfg - 1) >? 3 then
    let block_index := u8 (Z.land (head - 3) (BLOCK_BUFFER_SIZE cfg - 1)) in
    reverse_pass_loop kernel ring_fuel tail block_index (None, None, None) a
  else Some a.

Definition planner_reverse_pass (st : planner) : option planner :=
  option_map (set_block_buffer st)
    (reverse_pass planner_reverse_pass_kernel
       (block_buffer_head st) (block_buffer_tail st) (block_buffer st)).

(** The calls [planner_reverse_pass_kernel(block[0], block[1], block[2])] the
    pass makes, oldest call first. *)
Definition record_call (previous current next : option Z) (calls : list window) : list window :=
  calls ++ [(previous, current, next)].

Definition reverse_pass_calls (head tail : Z) : option (list window) :=
  reverse_pass record_call head tail [].

(** The blocks a pass hands to the kernel as [current] together with a
    non-NULL [next]: the only calls in which the kernel reads or writes. *)
Definition adjusted_blocks (calls : list window) : list Z :=
  flat_map (fun w => match w with
                     | (_, Some c, Some _) => [c]
                     | _ => []
                     end) calls.

Definition planner_forward_pass_kernel (previous current next : option Z)
  (buf : Z -> block_t) : Z -> block_t :=
  match previous, current with
  | Some p, Some c =>
    let prv := buf p in
    let cur := buf c in
    if negb (nominal_length_flag prv) then
      if flt (entry_speed prv) (entry_speed cur) then
        let entry_speed' :=
          fmin (entry_speed cur)
               (max_allowable_speed (- acceleration prv) (entry_speed prv) (millimeters prv)) in
        if negb (feq (entry_speed cur) entry_speed') then
          store_block buf c (set_recalculate_flag (set_entry_speed cur entry_speed') true)
        else buf
      else buf
    else buf
  | _, _ => buf
  end.

(** A [while (block_index != block_buffer_head)] loop that walks the ring
    forward; [advance] is the update of the loop variable. *)
Fixpoint walk_forward {A : Type} (advance : Z -> Z) (body : Z -> A -> A)
  (fuel : nat) (head block_index : Z) (a : A) : option A :=
  match fuel with
  | O => None
  | S fuel =>
    if negb (block_index =? head) then
      walk_forward advance body fuel head (advance block_index) (body block_index a)
    else Some a
  end.

Definition forward_pass_body (block_index : Z) (s : window * (Z -> block_t))
  : window * (Z -> block_t) :=
  let '((_, b1, b2), buf) := s in
  let block : window := (b1, b2, Some block_index) in
  let '(b0, b1, b2) := block in
  (block, planner_forward_pass_kernel b0 b1 b2 buf).

Definition planner_forward_pass (st : planner) : option planner :=
  match walk_forward (fun i => u8 (next_block_index i)) forward_pass_body ring_fuel
          (block_buffer_head st) (u8 (block_buffer_tail st))
          ((None, None, None), block_buffer st) with
  | Some ((_, b1, b2), buf) =>
    Some (set_block_buffer st (planner_forward_pass_kernel b1 b2 None buf))
  | None => None
  end.

(** [calculate_trapezoid_for_block(&block_buffer[i], ...)]. *)
Definition recalculate_at (buf : Z -> block_t) (i : Z) (entry_factor exit_factor : float)
  : Z -> block_t :=
  store_block buf i (fst (calculate_trapezoid_for_block (buf i) entry_factor exit_factor)).

Definition clear_recalculate_flag (buf : Z -> block_t) (i : Z) : Z -> block_t :=
  store_block buf i (set_recalculate_flag (buf i) false).

(** The loop body of [planner_recalculate_trapezoids]; the state is
    [(current, next)] and the ring. *)
Definition recalculate_trapezoids_body (block_index : Z)
  (s : option Z * option Z * (Z -> block_t)) : option Z * option Z * (Z -> block_t) :=
  let '(_, next, buf) := s in
  let current := next in
  let next := block_index in
  match current with
  | Some c =>
    if recalculate_flag (buf c) || recalculate_flag (buf next) then
      let buf := recalculate_at buf c
                   (entry_speed (buf c) / nominal_speed (buf c))
                   (entry_speed (buf next) / nominal_speed (buf c)) in
      (current, Some next, clear_recalculate_flag buf c)
    else (current, Some next, buf)
  | None => (current, Some next, buf)
  end.

Definition planner_recalculate_trapezoids (st : planner) : option planner :=
  match walk_forward (fun i => i8 (next_block_index i)) recalculate_trapezoids_body ring_fuel
          (block_buffer_head st) (i8 (block_buffer_tail st))
          (None, None, block_buffer st) with
  | Some (_, next, buf) =>
    match next with
    | Some n =>
      let buf := recalculate_at buf n
                   (entry_speed (buf n) / nominal_speed (buf n))
                   (MINIMUM_PLANNER_SPEED cfg / nominal_speed (buf n)) in
      Some (set_block_buffer st (clear_recalculate_flag buf n))
    | None => Some (set_block_buffer st buf)
    end
  | None => None
  end.

Definition planner_recalculate (st : planner) : option planner :=
  match planner_reverse_pass st with
  | Some st =>
    match planner_forward_pass st with
    | Some st => planner_recalculate_trapezoids st
    | None => None
    end
  | None => None
  end.

(** *** Block builder: [plan_buffer_line]

    The locals of the function, in the order the source computes them. A
    definition named [block_f] is the value stored to [block->f]. *)
Section Line.

Variable st : planner.
Variables x y z e feed_rate : float.
Variable extruder : Z.                   (* const uint8_t & *)

(** The outer [float safe_speed] is declared without an initialiser; this is
    whatever the stack slot holds. *)
Variable safe_speed_uninit : float.

Definition next_buffer_head : Z := next_block_index (block_buffer_head st).

Definition target : axes Z :=
  mk_axes (i32 (lround (x * axis_steps_per_unit cfg X_AXIS)))
          (i32 (lround (y * axis_steps_per_unit cfg Y_AXIS)))
          (i32 (lround (z * axis_steps_per_unit cfg Z_AXIS)))
          (i32 (lround (e * axis_steps_per_unit cfg (E_AXIS + extruder)))).

(** [position] after the [#if EXTRUDERS > 1] rescale. *)
Definition rescaled_position : axes Z :=
  if (EXTRUDERS cfg >? 1)
     && negb (last_extruder st =? extruder)
     && negb (feq (axis_steps_per_unit cfg (E_AXIS + extruder))
                  (axis_steps_per_unit cfg (E_AXIS + last_extruder st)))
  then
    let factor := (axis_steps_per_unit cfg (E_AXIS + extruder)
                   / axis_steps_per_unit cfg (E_AXIS + last_extruder st))%Q in
    set_ax_e (position st) (i32 (lround (of_int (ax_e (position st)) * factor)))
  else position st.

(** [target[i] - position[i]], in [long]. *)
Definition delta_steps : axes Z :=
  mk_axes (i32 (ax_x target - ax_x rescaled_position))
          (i32 (ax_y target - ax_y rescaled_position))
          (i32 (ax_z target - ax_z rescaled_position))
          (i32 (ax_e target - ax_e rescaled_position)).

Definition labs (n : Z) : Z := i32 (Z.abs n).

Definition block_steps_x : Z := labs (ax_x delta_steps).
Definition block_steps_y : Z := labs (ax_y delta_steps).
Definition block_steps_z : Z := labs (ax_z delta_steps).
Definition block_steps_e : Z :=
  let steps_e := labs (ax_e delta_steps) in
  let steps_e := i32 (steps_e * extrudemultiply cfg) in
  i32 (Z.quot steps_e 100).

Definition block_step_event_count : Z :=
  u32 (zmax block_steps_x (zmax block_steps_y (zmax block_steps_z block_steps_e))).

(** The slot at [block_buffer_head] as the call finds it. *)
Definition old_block : block_t := block_buffer st (block_buffer_head st).

(** The slot when the function bails out on a short segment. *)
Definition dropped_block : block_t :=
  let b := old_block in
  mk_block block_steps_x block_steps_y block_steps_z block_steps_e block_step_event_count
    (accelerate_until b) (decelerate_after b) (acceleration_rate b)
    (direction_bits b) (active_extruder b) (nominal_speed b) (entry_speed b)
    (max_entry_speed b) (millimeters b) (acceleration b) (recalculate_flag b)
    (nominal_length_flag b) (nominal_rate b) (initial_rate b) (final_rate b)
    (acceleration_st b) (fan_speed b) (travel b) (retract b) (restore b) false.

Definition block_direction_bits : Z :=
  let direction_bits := 0 in
  let direction_bits :=
    if ax_x target <? ax_x rescaled_position
    then Z.lor direction_bits (Z.shiftl 1 X_AXIS) else direction_bits in
  let direction_bits :=
    if ax_y target <? ax_y rescaled_position
    then Z.lor direction_bits (Z.shiftl 1 Y_AXIS) else direction_bits in
  let direction_bits :=
    if ax_z target <? ax_z rescaled_position
    then Z.lor direction_bits (Z.shiftl 1 Z_AXIS) else direction_bits in
  let direction_bits :=
    if ax_e target <? ax_e rescaled_position
    then Z.lor direction_bits (Z.shiftl 1 E_AXIS) else direction_bits in
  direction_bits.

Definition block_travel : bool := block_steps_e =? 0.

(** [feed_rate] after the floor. *)
Definition floored_feed_rate : float :=
  if block_steps_e =? 0
  then (if flt feed_rate (mintravelfeedrate cfg) then mintravelfeedrate cfg else feed_rate)
  else (if flt feed_rate (minimumfeedrate cfg) then minimumfeedrate cfg else feed_rate).

Definition delta_mm : axes float :=
  mk_axes (of_int (ax_x delta_steps) / axis_steps_per_unit cfg X_AXIS)%Q
          (of_int (ax_y delta_steps) / axis_steps_per_unit cfg Y_AXIS)%Q
          (of_int (ax_z delta_steps) / axis_steps_per_unit cfg Z_AXIS)%Q
          ((of_int (ax_e delta_steps) / axis_steps_per_unit cfg (E_AXIS + extruder)%Z)
           * of_int (extrudemultiply cfg) / 100)%Q.

Definition no_move : bool :=
  (block_steps_x <=? dropsegments cfg) && (block_steps_y <=? dropsegments cfg)
  && (block_steps_z <=? dropsegments cfg).

Definition block_millimeters : float :=
  if no_move then fabs (ax_e delta_mm)
  else fsqrt (square (ax_x delta_mm) + square (ax_y delta_mm) + square (ax_z delta_mm)).

Definition block_retract : bool :=
  no_move && negb (block_steps_e =? 0)
  && negb (Z.land block_direction_bits (Z.shiftl 1 E_AXIS) =? 0).

Definition block_restore : bool :=
  no_move && negb (block_steps_e =? 0)
  && (Z.land block_direction_bits (Z.shiftl 1 E_AXIS) =? 0).

Definition inverse_millimeters : float := 1 / block_millimeters.

Definition moves_queued : Z := num_blocks_queued st.

(** [inverse_second], after the SLOWDOWN stretch when it is compiled in. *)
Definition inverse_second : float :=
  let inverse_second := (floored_feed_rate * inverse_millimeters)%Q in
  if SLOWDOWN cfg
     && negb (feq (ax_e delta_mm) 0) && feq (ax_z delta_mm) 0
     && (negb (feq (ax_x delta_mm) 0) || negb (feq (ax_y delta_mm) 0))
  then
    let segment_time := u32 (lround (1000000 / inverse_second)) in
    if (moves_queued >? 1)
       && flt (of_int moves_queued) (of_int (BLOCK_BUFFER_SIZE cfg) * (1 # 2))
    then
      if segment_time <? minsegmenttime cfg then
        (1000000
         / of_int (u32 (segment_time
                        + i32 (lround (of_int (u32 (2 * u32 (minsegmenttime cfg - segment_time))
                                               / u32 moves_queued))))))%Q
      else inverse_second
    else inverse_second
  else inverse_second.

(** [current_speed[]] before the speed factor is applied. *)
Definition raw_current_speed : axes float :=
  mk_axes (ax_x delta_mm * inverse_second)%Q (ax_y delta_mm * inverse_second)%Q
          (ax_z delta_mm * inverse_second)%Q (ax_e delta_mm * inverse_second)%Q.

Definition limit_speed_factor (speed_factor current_speed max_feedrate : float) : float :=
  if fgt (fabs current_speed) max_feedrate
  then fmin speed_factor (max_feedrate / fabs current_speed)
  else speed_factor.

(** [COMP_SPEED] is [(0.0)] without C_COMPENSATION. *)
Definition COMP_SPEED : float := 0.

Definition speed_factor : float :=
  let speed_factor := 1%Q in
  let speed_factor :=
    limit_speed_factor speed_factor (ax_x raw_current_speed) (max_feedrate cfg X_AXIS) in
  let speed_factor :=
    limit_speed_factor speed_factor (ax_y raw_current_speed) (max_feedrate cfg Y_AXIS) in
  let speed_factor :=
    limit_speed_factor speed_factor (ax_z raw_current_speed) (max_feedrate cfg Z_AXIS) in
  limit_speed_factor speed_factor (ax_e raw_current_speed)
    (max_feedrate cfg (E_AXIS + extruder) - COMP_SPEED).

Definition current_speed : axes float :=
  if flt speed_factor 1 then
    mk_axes (ax_x raw_current_speed * speed_factor)%Q (ax_y raw_current_speed * speed_factor)%Q
            (ax_z raw_current_speed * speed_factor)%Q (ax_e raw_current_speed * speed_factor)%Q
  else raw_current_speed.

Definition block_nominal_speed : float :=
  let nominal_speed := (block_millimeters * inverse_second)%Q in
  if flt speed_factor 1 then (nominal_speed * speed_factor)%Q else nominal_speed.

Definition block_nominal_rate : Z :=
  let nominal_rate := u32 (ceil (of_int block_step_event_count * inverse_second)) in
  if flt speed_factor 1 then u32 (ftrunc (of_int nominal_rate * speed_factor)) else nominal_rate.

Definition steps_per_mm : float := of_int block_step_event_count / block_millimeters.

(** [axis_steps_per_sqr_second[]] as the not-no_move branch fills it. *)
Definition new_axis_steps_per_sqr_second : axes Z :=
  let entry (ii : Z) :=
    u32 (ftrunc (of_int (max_acceleration_units_per_sq_second cfg ii)
                 * axis_steps_per_unit cfg ii)) in
  mk_axes (entry X_AXIS) (entry Y_AXIS) (entry Z_AXIS) (entry (E_AXIS + extruder)).

Definition limit_acceleration (acceleration_st steps limit : Z) : Z :=
  if fgt (of_int acceleration_st * of_int steps / of_int block_step_event_count) (of_int limit)
  then limit else acceleration_st.

Definition block_acceleration_st : Z :=
  if no_move then u32 (ceil (retract_acceleration cfg extruder * steps_per_mm))
  else
    let acceleration_st := u32 (ceil (default_acceleration cfg * steps_per_mm)) in
    let a := new_axis_steps_per_sqr_second in
    let acceleration_st := limit_acceleration acceleration_st block_steps_x (ax_x a) in
    let acceleration_st := limit_acceleration acceleration_st block_steps_y (ax_y a) in
    let acceleration_st := limit_acceleration acceleration_st block_steps_z (ax_z a) in
    limit_acceleration acceleration_st block_steps_e (ax_e a).

Definition block_acceleration : float := of_int block_acceleration_st / steps_per_mm.

Definition block_acceleration_rate : Z :=
  i32 (ftrunc (of_int block_acceleration_st * (8388608 # 1000000))).

(** The inner [float safe_speed = vmax_junction;] of the not-no_move branch:
    the jerk-halved junction speed clamped to the nominal speed. *)
Definition inner_safe_speed : float :=
  let vmax_junction := (max_xy_jerk cfg / 2)%Q in
  let vmax_junction :=
    if fgt (fabs (ax_z current_speed)) (max_z_jerk cfg / 2)
    then fmin vmax_junction (max_z_jerk cfg / 2) else vmax_junction in
  let vmax_junction :=
    if fgt (fabs (ax_e current_speed)) (max_e_jerk cfg extruder / 2)
    then fmin vmax_junction (max_e_jerk cfg extruder / 2) else vmax_junction in
  fmin vmax_junction block_nominal_speed.

(** [vmax_junction] at [block->max_entry_speed = vmax_junction]. *)
Definition vmax_junction : float :=
  if (moves_queued >? 1) && fgt (previous_nominal_speed st) (1 # 10000) then
    let dx := (ax_x current_speed - ax_x (previous_speed st))%Q in
    let dy := (ax_y current_speed - ax_y (previous_speed st))%Q in
    let jerk := fsqrt (dx * dx + dy * dy) in
    let vmax_junction := block_nominal_speed in
    let vmax_junction_factor := 1%Q in
    let vmax_junction_factor :=
      if fgt jerk (max_xy_jerk cfg) then (max_xy_jerk cfg / jerk)%Q
      else vmax_junction_factor in
    let dz := fabs (ax_z current_speed - ax_z (previous_speed st)) in
    let vmax_junction_factor :=
      if fgt dz (max_z_jerk cfg) then fmin vmax_junction_factor (max_z_jerk cfg / dz)
      else vmax_junction_factor in
    let de := fabs (ax_e current_speed - ax_e (previous_speed st)) in
    let vmax_junction_factor :=
      if fgt (de + COMP_SPEED) (max_e_jerk cfg extruder)
      then fmin vmax_junction_factor (max_e_jerk cfg extruder / de + COMP_SPEED)
      else vmax_junction_factor in
    fmin (previous_nominal_speed st) (vmax_junction * vmax_junction_factor)
  else inner_safe_speed.

Definition v_allowable : float :=
  max_allowable_speed (- block_acceleration) (MINIMUM_PLANNER_SPEED cfg) block_millimeters.

Definition block_max_entry_speed : float :=
  if no_move then fmin (max_e_jerk cfg extruder) block_nominal_speed else vmax_junction.

Definition block_entry_speed : float :=
  if no_move then fmin (max_e_jerk cfg extruder) block_nominal_speed
  else fmin vmax_junction v_allowable.

(** The outer [safe_speed] when line 996 reads it: assigned only on the
    no_move path, the other path assigns a variable of its own. *)
Definition safe_speed : float :=
  if no_move then fmin (max_e_jerk cfg extruder) block_nominal_speed
  else safe_speed_uninit.

(** The block at [block_buffer_head] when the trapezoid generator is called. *)
Definition prepared_block : block_t :=
  let b := old_block in
  mk_block block_steps_x block_steps_y block_steps_z block_steps_e block_step_event_count
    (accelerate_until b) (decelerate_after b) block_acceleration_rate
    block_direction_bits (u8 extruder) block_nominal_speed block_entry_speed
    block_max_entry_speed block_millimeters block_acceleration
    (if no_move then recalculate_flag b else true)
    (if no_move then nominal_length_flag b else fle block_nominal_speed v_allowable)
    block_nominal_rate (initial_rate b) (final_rate b)
    block_acceleration_st (fanSpeed st extruder) block_travel block_retract block_restore false.

(** The factors of the call at line 996. *)
Definition entry_factor : float := block_entry_speed / block_nominal_speed.
Definition exit_factor : float := safe_speed / block_nominal_speed.

Definition new_block : block_t :=
  fst (calculate_trapezoid_for_block prepared_block entry_factor exit_factor).

(** The globals after the head has moved, before [planner_recalculate]. *)
Definition committed : planner :=
  mk_planner (store_block (block_buffer st) (block_buffer_head st) new_block)
    (u8 next_buffer_head) (block_buffer_tail st) target
    current_speed block_nominal_speed
    (if no_move then axis_steps_per_sqr_second st else new_axis_steps_per_sqr_second)
    (last_extruder st) (fanSpeed st).

(** How a call ends. [Waiting]: the ring is full and the function spins in its
    wait loop, which only the stepper interrupt can end. *)
Inductive outcome : Type :=
| Waiting
| Dropped (st' : planner)
| Queued (st' : planner).

Definition plan_buffer_line : option outcome :=
  if block_buffer_tail st =? next_buffer_head then Some Waiting
  else if block_step_event_count <=? dropsegments cfg then
    Some (Dropped (set_position
                     (set_block_buffer st
                        (store_block (block_buffer st) (block_buffer_head st) dropped_block))
                     rescaled_position))
  else option_map Queued (planner_recalculate committed).

End Line.

(** *** Position setters and initialisation *)

Definition plan_init (st : planner) : planner :=
  mk_planner (block_buffer st) 0 0 (mk_axes 0 0 0 0)
    (mk_axes 0%Q 0%Q 0%Q 0%Q) 0%Q (axis_steps_per_sqr_second st) (last_extruder st) (fanSpeed st).

Definition plan_set_position (st : planner) (x y z e : float) : planner :=
  mk_planner (block_buffer st) (block_buffer_head st) (block_buffer_tail st)
    (mk_axes (i32 (lround (x * axis_steps_per_unit cfg X_AXIS)))
             (i32 (lround (y * axis_steps_per_unit cfg Y_AXIS)))
             (i32 (lround (z * axis_steps_per_unit cfg Z_AXIS)))
             (i32 (lround (e * axis_steps_per_unit cfg (E_AXIS + ACTIVE_EXTRUDER cfg)))))
    (mk_axes 0%Q 0%Q 0%Q 0%Q) 0%Q (axis_steps_per_sqr_second st)
    (u8 (ACTIVE_EXTRUDER cfg)) (fanSpeed st).

Definition plan_set_e_position (st : planner) (e : float) : planner :=
  mk_planner (block_buffer st) (block_buffer_head st) (block_buffer_tail st)
    (set_ax_e (position st)
       (i32 (lround (e * axis_steps_per_unit cfg (E_AXIS + ACTIVE_EXTRUDER cfg)))))
    (previous_speed st) (previous_nominal_speed st) (axis_steps_per_sqr_second st)
    (u8 (ACTIVE_EXTRUDER cfg)) (fanSpeed st).

(** *** Axis-activity scan *)

(** What [check_axes_activity] sends to the I/O layer. *)
Record activity : Type := mk_activity {
  disable_x : bool; disable_y : bool; disable_z : bool;
  disable_e : bool;                       (* disable_e0, disable_e1, disable_e2 *)
  analogWrite : list (Z * Z)              (* (pin, value), in call order *)
}.

(** [unsigned char x_active, y_active, z_active, e_active]. *)
Definition count_active (block_index : Z) (s : (Z * Z * Z * Z) * (Z -> block_t))
  : (Z * Z * Z * Z) * (Z -> block_t) :=
  let '((x_active, y_active, z_active, e_active), buf) := s in
  let block := buf block_index in
  ((if negb (steps_x block =? 0) then u8 (x_active + 1) else x_active,
    if negb (steps_y block =? 0) then u8 (y_active + 1) else y_active,
    if negb (steps_z block =? 0) then u8 (z_active + 1) else z_active,
    if negb (steps_e block =? 0) then u8 (e_active + 1) else e_active), buf).

(** [tail_fan_speed[]] when the scan of the queue is over. *)
Definition tail_fan_speed (st : planner) : Z -> Z :=
  if negb (block_buffer_tail st =? block_buffer_head st) then
    let block := block_buffer st (block_buffer_tail st) in
    fun e => if e =? active_extruder block then u8 (fan_speed block) else fanSpeed st e
  else fanSpeed st.

(** One round of the [for (e = 0; e < EXTRUDERS; e++)] loop. The state is
    [tail_fan_speed], [fanSpeed] and the writes made so far. *)
Definition fan_round (s : (Z -> Z) * (Z -> Z) * list (Z * Z)) (e : Z)
  : (Z -> Z) * (Z -> Z) * list (Z * Z) :=
  let '(tail_fan_speed, fanSpeed, writes) := s in
  let '(tail_fan_speed, fanSpeed) :=
    if PER_EXTRUDER_FANS cfg && (EXTRUDERS cfg >? 1)
       && follow_me_fan cfg && negb (Z.land (follow_me cfg) (Z.shiftl 1 e) =? 0)
    then ((fun i => if i =? e then tail_fan_speed (ACTIVE_EXTRUDER cfg) else tail_fan_speed i),
          (fun i => if i =? e then fanSpeed (ACTIVE_EXTRUDER cfg) else fanSpeed i))
    else (tail_fan_speed, fanSpeed) in
  if PER_EXTRUDER_FANS cfg then
    if fan_pin cfg e >? -1
    then (tail_fan_speed, fanSpeed, writes ++ [(fan_pin cfg e, tail_fan_speed e)])
    else (tail_fan_speed, fanSpeed, writes)
  else
    if (e =? ACTIVE_EXTRUDER cfg) && (FAN_PIN cfg >? -1)
    then (tail_fan_speed, fanSpeed, writes ++ [(FAN_PIN cfg, tail_fan_speed e)])
    else (tail_fan_speed, fanSpeed, writes).

(** The values [e] takes in the fan loop. *)
Definition extruders : list Z := map Z.of_nat (seq 0 (Z.to_nat (EXTRUDERS cfg))).

Definition check_axes_activity (st : planner) : option (planner * activity) :=
  let counts :=
    if negb (block_buffer_tail st =? block_buffer_head st) then
      option_map fst
        (walk_forward (fun i => u8 (Z.land (i + 1) (BLOCK_BUFFER_SIZE cfg - 1))) count_active
           ring_fuel (block_buffer_head st) (u8 (block_buffer_tail st))
           ((0, 0, 0, 0), block_buffer st))
    else Some (0, 0, 0, 0) in
  match counts with
  | Some (x_active, y_active, z_active, e_active) =>
    let '(_, fanSpeed, writes) :=
      fold_left fan_round extruders (tail_fan_speed st, fanSpeed st, []) in
    Some (mk_planner (block_buffer st) (block_buffer_head st) (block_buffer_tail st)
            (position st) (previous_speed st) (previous_nominal_speed st)
            (axis_steps_per_sqr_second st) (last_extruder st) fanSpeed,
          mk_activity (DISABLE_X cfg && (x_active =? 0)) (DISABLE_Y cfg && (y_active =? 0))
            (DISABLE_Z cfg && (z_active =? 0)) (DISABLE_E cfg && (e_active =? 0)) writes)
  | None => None
  end.

End Planner.

(** ** A machine to run the planner on

    The settings of the spec's end-to-end scenarios: 80 steps/mm on X and Y,
    100 and 140 steps/mm on the two extruders, 3000 mm/s^2, 20 mm/s of XY
    jerk, a ring of 16 blocks, segments of up to 5 steps dropped. *)
Definition example_config : config :=
  {| BLOCK_BUFFER_SIZE := 16;
     dropsegments := 5;
     MINIMUM_PLANNER_SPEED := 1 # 20;
     EXTRUDERS := 2;
     ACTIVE_EXTRUDER := 0;
     SLOWDOWN := true;
     PER_EXTRUDER_FANS := true;
     DISABLE_X := false; DISABLE_Y := false; DISABLE_Z := false; DISABLE_E := false;
     FAN_PIN := -1;
     fan_pin := fun e => if e =? 0 then 6 else if e =? 1 then 7 else -1;
     follow_me_fan := false;
     follow_me := 0;
     minsegmenttime := 20000;
     max_feedrate := fun i => if i <? 2 then 500%Q else if i =? 2 then 5%Q else 45%Q;
     axis_steps_per_unit :=
       fun i => if i <? 2 then 80%Q else if i =? 2 then 400%Q
                else if i =? 3 then 100%Q else 140%Q;
     max_acceleration_units_per_sq_second :=
       fun i => if i <? 2 then 9000 else if i =? 2 then 100 else 10000;
     minimumfeedrate := 0;
     mintravelfeedrate := 0;
     default_acceleration := 3000;
     retract_acceleration := fun _ => 3000%Q;
     max_e_jerk := fun _ => 5%Q;
     max_xy_jerk := 20;
     max_z_jerk := 4 # 10;
     extrudemultiply := 100 |}.

(** A square root that is exact on squares of multiples of 10^-6 and rounds
    up to the next multiple of 10^-6 elsewhere. *)
Definition example_sqrt (q : float) : float :=
  let n := Qfloor (q * 1000000000000) in
  let r := Z.sqrt n in
  if Qeq_bool (inject_Z (r * r)) (q * 1000000000000) then inject_Z r / 1000000
  else inject_Z (r + 1) / 1000000.

Definition empty_block : block_t :=
  mk_block 0 0 0 0 0 0 0 0 0 0 0 0 0 0 0 false false 0 0 0 0 0 false false false false.

Definition example_boot : planner :=
  mk_planner (fun _ => empty_block) 0 0 (mk_axes 0 0 0 0)
    (mk_axes 0%Q 0%Q 0%Q 0%Q) 0%Q (mk_axes 0 0 0 0) 0 (fun _ => 0).

(** Every [Store] of a trace happens between a [CRITICAL_SECTION_START] and
    the next [CRITICAL_SECTION_END]; [locked] says whether the trace starts
    inside a critical section. *)
Fixpoint stores_guarded (locked : bool) (tr : list event) : bool :=
  match tr with
  | [] => true
  | CRITICAL_SECTION_START :: tr => stores_guarded true tr
  | CRITICAL_SECTION_END :: tr => stores_guarded false tr
  | Store _ _ :: tr => locked && stores_guarded locked tr
  end.

Definition is_store (ev : event) : bool :=
  match ev with Store _ _ => true | _ => false end.

(** A slow block, 80 steps/s, not yet claimed by the stepper. *)
Definition slow_block : block_t :=
  mk_block 800 0 0 0 800 0 0 0 0 0 1 1 1 10 3000 true true
           80 0 0 240000 0 true false false false.

(** A block in a reused slot: [initial_rate] and [final_rate] still hold the
    1000 steps/s of the slot's previous occupant. *)
Definition reused_block : block_t :=
  mk_block 100000 0 0 0 100000 0 0 0 0 0 50 25 25 10 3000 true false
           1000 1000 1000 1000 0 true false false false.

Definition claimed_block : block_t :=
  mk_block 800 0 0 0 800 34 767 0 0 0 50 10 10 10 3000 true false
           4000 800 120 240000 0 true false false true.

(** ** Well-formed rings

    The ring indices travel through [int8_t] and are masked with
    [BLOCK_BUFFER_SIZE - 1]: the capacity is a power of two of at most 64. *)
Definition ring_ok (cfg : config) : Prop :=
  exists k, 1 <= k <= 6 /\ BLOCK_BUFFER_SIZE cfg = 2 ^ k.

Definition in_ring (cfg : config) (i : Z) : Prop := 0 <= i < BLOCK_BUFFER_SIZE cfg.

(** The windows a backward walk of [n] steps from [block_index] hands to its
    kernel, [b0] and [b1] being the two newest pointers of the window. *)
Fixpoint windows_from (cfg : config) (block_index : Z) (b0 b1 : option Z) (n : nat)
  : list window :=
  match n with
  | O => []
  | S n =>
    let block_index := (block_index - 1) mod BLOCK_BUFFER_SIZE cfg in
    (Some block_index, b0, b1) :: windows_from cfg block_index (Some block_index) b0 n
  end.

Definition call_kernel {A : Type} (kernel : option Z -> option Z -> option Z -> A -> A)
  (a : A) (w : window) : A :=
  let '(previous, current, next) := w in kernel previous current next a.

(** [n] ring indices downward from [i], [i] first. *)
Definition ring_down (cfg : config) (i : Z) (n : nat) : list Z :=
  map (fun k => (i - Z.of_nat k) mod BLOCK_BUFFER_SIZE cfg) (seq 0 n).

(** ** What the look-ahead leaves alone

    The look-ahead and the trapezoid generator write [entry_speed],
    [recalculate_flag] and the four profile fields; [static_part] is the rest
    of a block. *)
Definition static_part (b : block_t) :=
  (steps_x b, steps_y b, steps_z b, steps_e b, step_event_count b,
   acceleration_rate b, direction_bits b, active_extruder b,
   nominal_speed b, max_entry_speed b, millimeters b, acceleration b,
   nominal_length_flag b, nominal_rate b, acceleration_st b, fan_speed b,
   travel b, retract b, restore b, busy b).

Definition same_static (buf buf' : Z -> block_t) : Prop :=
  forall i, static_part (buf' i) = static_part (buf i).

(** The globals other than the ring's blocks. *)
Definition registers (st : planner) :=
  (block_buffer_head st, block_buffer_tail st, position st, previous_speed st,
   previous_nominal_speed st, axis_steps_per_sqr_second st, last_extruder st).

(** ** Sane settings

    What the builder needs of the configuration for a move on [extruder]:
    positive steps-per-mm and feed-rate limits on the four axes of the move
    and a non-negative drop threshold. *)
Definition sane_axes (cfg : config) (extruder : Z) : Prop :=
  0 <= dropsegments cfg /\
  (0 < axis_steps_per_unit cfg X_AXIS)%Q /\ (0 < axis_steps_per_unit cfg Y_AXIS)%Q /\
  (0 < axis_steps_per_unit cfg Z_AXIS)%Q /\
  (0 < axis_steps_per_unit cfg (E_AXIS + extruder))%Q /\
  (0 < max_feedrate cfg X_AXIS)%Q /\ (0 < max_feedrate cfg Y_AXIS)%Q /\
  (0 < max_feedrate cfg Z_AXIS)%Q /\ (0 < max_feedrate cfg (E_AXIS + extruder))%Q.

(** The SLOWDOWN stretch divides by the stretched segment time, an unsigned
    sum that can only be zero or wrap when [minsegmenttime] is a few
    microseconds or beyond 2^31. *)
Definition sane_slowdown (cfg : config) : Prop :=
  SLOWDOWN cfg = false \/ minsegmenttime cfg = 0 \/
  (BLOCK_BUFFER_SIZE cfg <= 4 * minsegmenttime cfg /\ minsegmenttime cfg < 2 ^ 31).

(** [fsqrt] is positive on positive numbers. *)
Definition sqrt_positive (fsqrt : float -> float) : Prop :=
  forall q, (0 < q)%Q -> (0 < fsqrt q)%Q.

(** The boot state after [plan_set_position(0, 0, 0, 10)] on extruder 0:
    [position[E] = 1000] steps, [last_extruder = 0]. *)
Definition swap_state : planner := plan_set_position example_config example_boot 0 0 0 10.

(** Seven blocks queued, slots 0 to 6. *)
Definition queue7 : planner :=
  mk_planner (fun _ => reused_block) 7 0 (mk_axes 0 0 0 0)
    (mk_axes 0%Q 0%Q 0%Q 0%Q) 0%Q (mk_axes 0 0 0 0) 0 (fun _ => 0).

(** Two blocks of extruder 0 queued: the tail block was planned with the fan
    at 100, the newest one with the fan at 200, the current setting. *)
Definition fan_block (fan : Z) : block_t :=
  mk_block 800 0 0 0 800 34 767 0 0 0 50 10 10 10 3000 false false
           4000 800 120 240000 fan true false false false.

Definition fan_queue : planner :=
  mk_planner (fun i => if i =? 0 then fan_block 100 else fan_block 200) 2 0
    (mk_axes 1600 0 0 0) (mk_axes 50%Q 0%Q 0%Q 0%Q) 50%Q (mk_axes 0 0 0 0) 0
    (fun e => if e =? 0 then 200 else 0).

(** The pin the fan loop writes extruder [e]'s PWM to, and whether it writes
    at all in the round of [e] (follow-me aside). *)
Definition fan_output_pin (cfg : config) (e : Z) : Z :=
  if PER_EXTRUDER_FANS cfg then fan_pin cfg e else FAN_PIN cfg.

Definition fan_driven (cfg : config) (e : Z) : bool :=
  if PER_EXTRUDER_FANS cfg then fan_pin cfg e >? -1
  else (e =? ACTIVE_EXTRUDER cfg) && (FAN_PIN cfg >? -1).

(** Whether the fan of extruder [e] is slaved to the fan of the active
    extruder: the follow-me test of the fan loop, which is compiled in with
    PER_EXTRUDER_FANS and more than one extruder. *)
Definition fan_slaved (cfg : config) (e : Z) : bool :=
  PER_EXTRUDER_FANS cfg && (EXTRUDERS cfg >? 1)
  && follow_me_fan cfg && negb (Z.land (follow_me cfg) (Z.shiftl 1 e) =? 0).

(** The extruder whose value the fan of extruder [e] is given. *)
Definition fan_source (cfg : config) (e : Z) : Z :=
  if fan_slaved cfg e then ACTIVE_EXTRUDER cfg else e.

(** The array [f] is the array [f0] but for the entries of slaved
    extruders. *)
Definition fan_kept (cfg : config) (f0 f : Z -> Z) : Prop :=
  (forall i, fan_slaved cfg i = false -> f i = f0 i) /\
  f (ACTIVE_EXTRUDER cfg) = f0 (ACTIVE_EXTRUDER cfg).

(** The example machine with the fan of extruder 1 slaved to the fan of the
    active extruder 0. *)
Definition follow_config : config :=
  {| BLOCK_BUFFER_SIZE := BLOCK_BUFFER_SIZE example_config;
     dropsegments := dropsegments example_config;
     MINIMUM_PLANNER_SPEED := MINIMUM_PLANNER_SPEED example_config;
     EXTRUDERS := EXTRUDERS example_config;
     ACTIVE_EXTRUDER := ACTIVE_EXTRUDER example_config;
     SLOWDOWN := SLOWDOWN example_config;
     PER_EXTRUDER_FANS := PER_EXTRUDER_FANS example_config;
     DISABLE_X := DISABLE_X example_config;
     DISABLE_Y := DISABLE_Y example_config;
     DISABLE_Z := DISABLE_Z example_config;
     DISABLE_E := DISABLE_E example_config;
     FAN_PIN := FAN_PIN example_config;
     fan_pin := fan_pin example_config;
     follow_me_fan := true;
     follow_me := 2;
     minsegmenttime := minsegmenttime example_config;
     max_feedrate := max_feedrate example_config;
     axis_steps_per_unit := axis_steps_per_unit example_config;
     max_acceleration_units_per_sq_second := max_acceleration_units_per_sq_second example_config;
     minimumfeedrate := minimumfeedrate example_config;
     mintravelfeedrate := mintravelfeedrate example_config;
     default_acceleration := default_acceleration example_config;
     retract_acceleration := retract_acceleration example_config;
     max_e_jerk := max_e_jerk example_config;
     max_xy_jerk := max_xy_jerk example_config;
     max_z_jerk := max_z_jerk example_config;
     extrudemultiply := extrudemultiply example_config |}.

(** The example machine with feed-rate floors of 1 mm/s and a minimum
    segment time of 1 microsecond. *)
Definition tight_config : config :=
  {| BLOCK_BUFFER_SIZE := BLOCK_BUFFER_SIZE example_config;
     dropsegments := dropsegments example_config;
     MINIMUM_PLANNER_SPEED := MINIMUM_PLANNER_SPEED example_config;
     EXTRUDERS := EXTRUDERS example_config;
     ACTIVE_EXTRUDER := ACTIVE_EXTRUDER example_config;
     SLOWDOWN := SLOWDOWN example_config;
     PER_EXTRUDER_FANS := PER_EXTRUDER_FANS example_config;
     DISABLE_X := DISABLE_X example_config;
     DISABLE_Y := DISABLE_Y example_config;
     DISABLE_Z := DISABLE_Z example_config;
     DISABLE_E := DISABLE_E example_config;
     FAN_PIN := FAN_PIN example_config;
     fan_pin := fan_pin example_config;
     follow_me_fan := follow_me_fan example_config;
     follow_me := follow_me example_config;
     minsegmenttime := 1;
     max_feedrate := max_feedrate example_config;
     axis_steps_per_unit := axis_steps_per_unit example_config;
     max_acceleration_units_per_sq_second := max_acceleration_units_per_sq_second example_config;
     minimumfeedrate := 1;
     mintravelfeedrate := 1;
     default_acceleration := default_acceleration example_config;
     retract_acceleration := retract_acceleration example_config;
     max_e_jerk := max_e_jerk example_config;
     max_xy_jerk := max_xy_jerk example_config;
     max_z_jerk := max_z_jerk example_config;
     extrudemultiply := extrudemultiply example_config |}.

(** Three blocks queued, slots 0 to 2, the machine at the origin. *)
Definition queue3 : planner :=
  mk_planner (fun _ => reused_block) 3 0 (mk_axes 0 0 0 0)
    (mk_axes 0%Q 0%Q 0%Q 0%Q) 0%Q (mk_axes 0 0 0 0) 0 (fun _ => 0).

(** ** Queues, junction speeds and what else the properties speak of *)

(** The junction speeds of a block in order:
    [entry_speed <= max_entry_speed <= nominal_speed]. *)
Definition junction_ok (b : block_t) : Prop :=
  (entry_speed b <= max_entry_speed b)%Q /\ (max_entry_speed b <= nominal_speed b)%Q.

(** The fields the stepper reads of a block it has claimed. *)
Definition profile_of (b : block_t) : Z * Z * Z * Z :=
  (accelerate_until b, decelerate_after b, initial_rate b, final_rate b).

(** One block queued and claimed by the stepper. *)
Definition claimed_queue : planner :=
  mk_planner (fun _ => claimed_block) 1 0 (mk_axes 800 0 0 0)
    (mk_axes 50%Q 0%Q 0%Q 0%Q) 50%Q (mk_axes 0 0 0 0) 0 (fun _ => 0).

(** [n] ring indices upward from [i], [i] first. *)
Definition ring_up (cfg : config) (i : Z) (n : nat) : list Z :=
  map (fun k => (i + Z.of_nat k) mod BLOCK_BUFFER_SIZE cfg) (seq 0 n).

(** The indices of the queued blocks, oldest first: [movesplanned] slots
    from [block_buffer_tail]. *)
Definition queued_blocks (cfg : config) (st : planner) : list Z :=
  ring_up cfg (block_buffer_tail st) (Z.to_nat (movesplanned cfg st)).


(** What holds of the loop state of [planner_recalculate_trapezoids] once
    the blocks [done] have been visited, [buf0] being the ring before. *)
Definition replan_inv (buf0 : Z -> block_t) (done : list Z)
  (s : option Z * option Z * (Z -> block_t)) : Prop :=
  let '(_, next, buf) := s in
  (done = [] /\ next = None \/ exists l j, done = l ++ [j] /\ next = Some j) /\
  (forall j, In j done -> Some j <> next -> recalculate_flag (buf j) = false) /\
  same_static buf0 buf /\
  (forall j, ~ In j done -> buf j = buf0 j) /\
  (forall j, entry_speed (buf j) = entry_speed (buf0 j)).

(** No block of the list [l] steps the axis whose step count is [steps]. *)
Definition axis_idle (steps : block_t -> Z) (buf : Z -> block_t) (l : list Z) : bool :=
  forallb (fun i => steps (buf i) =? 0) l.

(** The pointer a forward walk from [tail] holds [k] blocks after the tail;
    NULL before the walk has come that far. *)
Definition slot (cfg : config) (tail k : Z) : option Z :=
  if k <? 0 then None else Some ((tail + k) mod BLOCK_BUFFER_SIZE cfg).

(** *** Automatic temperature: [getHighESpeed]

    The function of the builds with AUTOTEMP, on its own: the scan
    [check_axes_activity] above is the build without it. Its settings are
    four globals of planner.cpp and the constant AUTOTEMP_OLDWEIGHT. *)
Record autotemp : Type := mk_autotemp {
  autotemp_enabled : bool;
  autotemp_min : float;
  autotemp_max : float;
  autotemp_factor : float;
  AUTOTEMP_OLDWEIGHT : float
}.

(** The body of the scan: [high] after the block at [block_index]. *)
Definition high_e_speed (buf : Z -> block_t) (block_index : Z) (high : float) : float :=
  let block := buf block_index in
  if negb (steps_x block =? 0) || negb (steps_y block =? 0) || negb (steps_z block =? 0) then
    let se := (of_int (steps_e block) / of_int (step_event_count block)
               * nominal_speed block)%Q in
    if fgt se high then se else high
  else high.

(** [degTargetHotend0] is what the temperature module returns, [oldt] the
    function's static variable. The result is the new [oldt] and the argument
    of [setTargetHotend0], if it is called. *)
Definition getHighESpeed (cfg : config) (settings : autotemp)
  (degTargetHotend0 oldt : float) (st : planner) : option (float * option float) :=
  if negb (autotemp_enabled settings) then Some (oldt, None)
  else if flt (degTargetHotend0 + 2) (autotemp_min settings) then Some (oldt, None)
  else
    match walk_forward (fun i => u8 (Z.land (i + 1) (BLOCK_BUFFER_SIZE cfg - 1)))
            (high_e_speed (block_buffer st)) (ring_fuel cfg) (block_buffer_head st)
            (u8 (block_buffer_tail st)) 0%Q with
    | Some high =>
      let g := (autotemp_min settings + high * autotemp_factor settings)%Q in
      let t := g in
      let t := if flt t (autotemp_min settings) then autotemp_min settings else t in
      let t := if fgt t (autotemp_max settings) then autotemp_max settings else t in
      let t :=
        if fgt oldt t
        then (AUTOTEMP_OLDWEIGHT settings * oldt + (1 - AUTOTEMP_OLDWEIGHT settings) * t)%Q
        else t in
      Some (t, Some t)
    | None => None
    end.

(** Automatic temperature switched on, with the values planner.cpp gives its
    three globals (210 to 250 degrees, 0.1 degree per mm/s) and an old weight
    of 0.98. *)
Definition example_autotemp : autotemp := mk_autotemp true 210 250 (1 # 10) (98 # 100).

(** The entry speed of [cur] can be reached from the entry speed of its
    predecessor [prv]: the predecessor is long enough for any speed change
    (nominal length), or [cur] is entered no faster than [prv], or no faster
    than [prv] can accelerate to over its length. *)
Definition reachable (fsqrt : float -> float) (prv cur : block_t) : Prop :=
  nominal_length_flag prv = true \/
  (entry_speed cur <= entry_speed prv)%Q \/
  (entry_speed cur
   <= max_allowable_speed fsqrt (- acceleration prv) (entry_speed prv) (millimeters prv))%Q.

(** * Properties *)

(** ** Machine integers and rounding *)

Lemma u32_small (z : Z) : 0 <= z < 2 ^ 32 -> u32 z = z.
Proof. intros H. unfold u32, wrap_unsigned. now apply Z.mod_small. Qed.

Lemma u8_small (z : Z) : 0 <= z < 256 -> u8 z = z.
Proof. intros H. unfold u8, wrap_unsigned. apply Z.mod_small. simpl. lia. Qed.

Lemma i8_small (z : Z) : -128 <= z < 128 -> i8 z = z.
Proof.
  intros H. unfold i8, wrap_signed. simpl.
  rewrite Z.mod_small; lia.
Qed.

Lemma i32_small (z : Z) : - 2 ^ 31 <= z < 2 ^ 31 -> i32 z = z.
Proof.
  intros H. unfold i32, wrap_signed.
  replace (2 ^ (32 - 1)) with (2 ^ 31) by reflexivity.
  rewrite Z.mod_small; lia.
Qed.

(** A rate scaled by a factor of (0, 1] and rounded up stays within the rate. *)
Lemma ceil_scaled_rate (n : Z) (f : float) :
  0 <= n -> (0 < f)%Q -> (f <= 1)%Q -> 0 <= ceil (of_int n * f) <= n.
Proof.
  intros Hn Hf0 Hf1. unfold ceil, of_int.
  assert (H0 : (0 <= inject_Z n)%Q).
  { change 0%Q with (inject_Z 0). now rewrite <- Zle_Qle. }
  split.
  - apply Z.le_trans with (Qceiling (inject_Z 0)).
    + rewrite Qceiling_Z. lia.
    + apply Qceiling_resp_le. change (inject_Z 0) with 0%Q. nra.
  - apply Z.le_trans with (Qceiling (inject_Z n)).
    + apply Qceiling_resp_le. nra.
    + rewrite Qceiling_Z. lia.
Qed.

(** ** Trapezoid generator *)

Lemma trapezoid_initial_rate (block : block_t) (entry_factor exit_factor : float) :
  t_initial_rate (trapezoid_locals block entry_factor exit_factor) =
  let r := u32 (ceil (of_int (nominal_rate block) * entry_factor)) in
  if r <? 120 then 120 else r.
Proof. unfold trapezoid_locals. now destruct (_ <? 0). Qed.

Lemma trapezoid_final_rate (block : block_t) (entry_factor exit_factor : float) :
  t_final_rate (trapezoid_locals block entry_factor exit_factor) =
  let r := u32 (ceil (of_int (nominal_rate block) * exit_factor)) in
  let r := if r <? 120 then 120 else r in
  if r >? nominal_rate block then nominal_rate block else r.
Proof. unfold trapezoid_locals. now destruct (_ <? 0). Qed.

(** The step counts never look at the factors: they are computed from the
    rates the block already stores. *)
Lemma trapezoid_steps_ignore_factors (block : block_t) (f1 f2 g1 g2 : float) :
  t_accelerate_steps (trapezoid_locals block f1 f2) =
  t_accelerate_steps (trapezoid_locals block g1 g2) /\
  t_plateau_steps (trapezoid_locals block f1 f2) =
  t_plateau_steps (trapezoid_locals block g1 g2).
Proof.
  unfold trapezoid_locals. cbv zeta.
  match goal with |- context [if ?c <? 0 then _ else _] => destruct (c <? 0) end;
    cbn [t_accelerate_steps t_plateau_steps]; split; reflexivity.
Qed.

(** C1. At a block in a reused slot (nominal rate 1000, stored rates 1000)
    and factors 1/2, the clamped rates are 500 and 500, for which the
    formulas give 375 accelerating and 375 decelerating steps; the generator
    computes 0 and 0, from the stored rates, and commits a full-length
    plateau. *)
Theorem trapezoid_steps_from_stale_rates :
  let t := trapezoid_locals reused_block (1 # 2) (1 # 2) in
  let block' := fst (calculate_trapezoid_for_block reused_block (1 # 2) (1 # 2)) in
  t_initial_rate t = 500 /\ t_final_rate t = 500 /\
  ceil ((of_int 1000 * of_int 1000 - of_int 500 * of_int 500) / (2 * of_int 1000)) = 375 /\
  floor ((of_int 500 * of_int 500 - of_int 1000 * of_int 1000) / (2 * of_int (- 1000))) = 375 /\
  t_accelerate_steps t = 0 /\ t_decelerate_steps t = 0 /\
  accelerate_until block' = 0 /\ decelerate_after block' = 100000.
Proof. vm_compute. repeat split; reflexivity. Qed.

(** C5, as stated, fails: a block of 80 steps/s is committed with
    [initial_rate = 120 > nominal_rate] and [final_rate = 80 < MIN_STEP_RATE]. *)
Lemma slow_block_rates_outside_bounds :
  let block' := fst (calculate_trapezoid_for_block slow_block 1 1) in
  ~ (MIN_STEP_RATE <= initial_rate block' <= nominal_rate block' /\
     MIN_STEP_RATE <= final_rate block' <= nominal_rate block').
Proof. vm_compute. intros [[_ H] _]. now apply H. Qed.

(** C5, amended. After a commit, whatever the factors, [initial_rate] is at
    least MIN_STEP_RATE and [final_rate] at most the nominal rate; when the
    nominal rate is itself at least MIN_STEP_RATE, [final_rate] is at least
    MIN_STEP_RATE too and, for an entry factor in (0, 1], [initial_rate] is
    at most the nominal rate; a nominal rate of exactly MIN_STEP_RATE then
    gives [initial_rate = final_rate = MIN_STEP_RATE]. *)
Theorem committed_rates_bounds (block : block_t) (entry_factor exit_factor : float) :
  busy block = false ->
  let block' := fst (calculate_trapezoid_for_block block entry_factor exit_factor) in
  MIN_STEP_RATE <= initial_rate block' /\
  final_rate block' <= nominal_rate block' /\
  (MIN_STEP_RATE <= nominal_rate block -> MIN_STEP_RATE <= final_rate block') /\
  (MIN_STEP_RATE <= nominal_rate block < 2 ^ 32 ->
   (0 < entry_factor)%Q -> (entry_factor <= 1)%Q ->
   initial_rate block' <= nominal_rate block') /\
  (nominal_rate block = MIN_STEP_RATE ->
   (0 < entry_factor)%Q -> (entry_factor <= 1)%Q ->
   initial_rate block' = MIN_STEP_RATE /\ final_rate block' = MIN_STEP_RATE).
Proof.
  intros Hbusy.
  unfold calculate_trapezoid_for_block. rewrite Hbusy. cbn [negb fst].
  cbn [set_profile initial_rate final_rate nominal_rate].
  rewrite trapezoid_initial_rate, trapezoid_final_rate. cbv zeta.
  set (r := u32 (ceil (of_int (nominal_rate block) * exit_factor))).
  assert (Hi : 0 <= nominal_rate block < 2 ^ 32 ->
               (0 < entry_factor)%Q -> (entry_factor <= 1)%Q ->
               u32 (ceil (of_int (nominal_rate block) * entry_factor))
               <= nominal_rate block).
  { intros Hn He0 He1.
    pose proof (ceil_scaled_rate (nominal_rate block) entry_factor (proj1 Hn) He0 He1).
    rewrite u32_small; lia. }
  set (q := u32 (ceil (of_int (nominal_rate block) * entry_factor))) in *.
  unfold MIN_STEP_RATE. change (2 ^ 32) with 4294967296 in *.
  repeat split; intros;
    try (assert (q <= nominal_rate block) by (apply Hi; (assumption || lia)));
    destruct (Z.ltb_spec q 120); destruct (Z.ltb_spec r 120);
    repeat match goal with
           | |- context [?a >? ?b] => destruct (Z.gtb_spec a b)
           end; lia.
Qed.

Lemma committed_rates_bounds_witness :
  busy reused_block = false /\
  let block' := fst (calculate_trapezoid_for_block reused_block (1 # 2) (1 # 2)) in
  MIN_STEP_RATE <= initial_rate block' /\
  final_rate block' <= nominal_rate block' /\
  (MIN_STEP_RATE <= nominal_rate reused_block -> MIN_STEP_RATE <= final_rate block') /\
  (MIN_STEP_RATE <= nominal_rate reused_block < 2 ^ 32 ->
   (0 < 1 # 2)%Q -> (1 # 2 <= 1)%Q ->
   initial_rate block' <= nominal_rate block') /\
  (nominal_rate reused_block = MIN_STEP_RATE ->
   (0 < 1 # 2)%Q -> (1 # 2 <= 1)%Q ->
   initial_rate block' = MIN_STEP_RATE /\ final_rate block' = MIN_STEP_RATE).
Proof.
  split; [reflexivity|].
  exact (committed_rates_bounds reused_block (1 # 2) (1 # 2) eq_refl).
Defined.

(** C6. A call on a busy block returns the block as it was, so
    [accelerate_until], [decelerate_after], [initial_rate] and [final_rate]
    keep their values and nothing is stored; on a block that is not busy the
    four stores are made, and in either case every store lies between
    CRITICAL_SECTION_START and CRITICAL_SECTION_END. *)
Theorem busy_block_profile_frozen (block : block_t) (entry_factor exit_factor : float) :
  let block' := fst (calculate_trapezoid_for_block block entry_factor exit_factor) in
  let tr := snd (calculate_trapezoid_for_block block entry_factor exit_factor) in
  (busy block = true ->
   block' = block /\
   accelerate_until block' = accelerate_until block /\
   decelerate_after block' = decelerate_after block /\
   initial_rate block' = initial_rate block /\
   final_rate block' = final_rate block /\
   filter is_store tr = []) /\
  (busy block = false ->
   filter is_store tr =
   [Store F_accelerate_until (accelerate_until block');
    Store F_decelerate_after (decelerate_after block');
    Store F_initial_rate (initial_rate block');
    Store F_final_rate (final_rate block')]) /\
  stores_guarded false tr = true.
Proof.
  unfold calculate_trapezoid_for_block.
  destruct (busy block); cbn; repeat split; intros; try reflexivity; discriminate.
Qed.

Lemma busy_block_profile_frozen_witness :
  busy claimed_block = true /\ busy reused_block = false /\
  fst (calculate_trapezoid_for_block claimed_block (1 # 2) (1 # 2)) = claimed_block /\
  filter is_store (snd (calculate_trapezoid_for_block reused_block (1 # 2) (1 # 2))) =
  [Store F_accelerate_until 0; Store F_decelerate_after 100000;
   Store F_initial_rate 500; Store F_final_rate 500] /\
  stores_guarded false (snd (calculate_trapezoid_for_block reused_block (1 # 2) (1 # 2))) = true.
Proof.
  split; [reflexivity|]. split; [reflexivity|]. split; [|split].
  - apply (busy_block_profile_frozen claimed_block (1 # 2) (1 # 2)). reflexivity.
  - exact (proj1 (proj2 (busy_block_profile_frozen reused_block (1 # 2) (1 # 2))) eq_refl).
  - apply (busy_block_profile_frozen reused_block (1 # 2) (1 # 2)).
Defined.

(** ** The ring *)

Lemma mod_pred (a n : Z) : 0 < n -> a mod n <> 0 -> (a - 1) mod n = a mod n - 1.
Proof.
  intros Hn Hd.
  pose proof (Z.mod_pos_bound a n Hn) as Hb.
  symmetry. apply Z.mod_unique with (q := a / n); [lia|].
  pose proof (Z.div_mod a n ltac:(lia)). lia.
Qed.

Lemma mod_zero_eq (a b n : Z) : 0 <= a < n -> 0 <= b < n -> (a - b) mod n = 0 -> a = b.
Proof.
  intros Ha Hb H.
  apply Z.mod_divide in H; [|lia]. destruct H as [q Hq].
  assert (q = 0) by nia. lia.
Qed.

Lemma land_mask (k a : Z) : 0 <= k -> Z.land a (2 ^ k - 1) = a mod 2 ^ k.
Proof. intros. rewrite <- Z.land_ones by lia. f_equal. rewrite Z.ones_equiv. lia. Qed.

Section Ring.

Variable cfg : config.
Hypothesis Hring : ring_ok cfg.

Local Abbreviation N := (BLOCK_BUFFER_SIZE cfg).

Lemma ring_size : 2 <= N <= 64.
Proof.
  destruct Hring as (k & Hk & E). rewrite E.
  assert (2 ^ 1 <= 2 ^ k) by (apply Z.pow_le_mono_r; lia).
  assert (2 ^ k <= 2 ^ 6) by (apply Z.pow_le_mono_r; lia).
  change (2 ^ 1) with 2 in *. change (2 ^ 6) with 64 in *. lia.
Qed.

Lemma ring_mask (a : Z) : Z.land a (N - 1) = a mod N.
Proof.
  destruct Hring as (k & Hk & E). rewrite E. apply land_mask. lia.
Qed.

Lemma mod_in_ring (a : Z) : in_ring cfg (a mod N).
Proof. pose proof ring_size. unfold in_ring. apply Z.mod_pos_bound. lia. Qed.

Lemma next_block_index_mod (i : Z) :
  in_ring cfg i -> next_block_index cfg i = (i + 1) mod N.
Proof.
  pose proof ring_size as HN. unfold in_ring. intros Hi.
  unfold next_block_index. cbv zeta.
  rewrite (i8_small i) by lia. rewrite i8_small by lia.
  destruct (Z.eqb_spec (i + 1) N) as [E|E].
  - rewrite E. now rewrite Z.mod_same by lia.
  - now rewrite Z.mod_small by lia.
Qed.

Lemma prev_block_index_mod (i : Z) :
  in_ring cfg i -> prev_block_index cfg i = (i - 1) mod N.
Proof.
  pose proof ring_size as HN. unfold in_ring. intros Hi.
  unfold prev_block_index. cbv zeta.
  rewrite (i8_small i) by lia.
  destruct (Z.eqb_spec i 0) as [E|E].
  - subst i. rewrite (i8_small N) by lia. rewrite i8_small by lia.
    replace (0 - 1) with (-1 * N + (N - 1)) by lia.
    rewrite Z.add_comm, Z.mod_add by lia. now rewrite Z.mod_small by lia.
  - rewrite i8_small by lia. now rewrite Z.mod_small by lia.
Qed.

Lemma depth_mod (head tail : Z) :
  Z.land (head - tail + N) (N - 1) = (head - tail) mod N.
Proof.
  pose proof ring_size. rewrite ring_mask.
  replace (head - tail + N) with (head - tail + 1 * N) by lia.
  apply Z.mod_add. lia.
Qed.

(** One step forward shortens the way to [head] by one. *)
Lemma step_forward_distance (head i : Z) :
  in_ring cfg head -> in_ring cfg i -> i <> head ->
  (head - (i + 1) mod N) mod N = (head - i) mod N - 1 /\ 1 <= (head - i) mod N.
Proof.
  pose proof ring_size as HN. unfold in_ring. intros Hh Hi Hne.
  assert (Hd : (head - i) mod N <> 0).
  { intros E. apply mod_zero_eq in E; lia. }
  pose proof (Z.mod_pos_bound (head - i) N ltac:(lia)).
  split; [|lia].
  rewrite Zminus_mod_idemp_r.
  replace (head - (i + 1)) with (head - i - 1) by lia.
  apply mod_pred; lia.
Qed.

(** One step backward shortens the way to [tail] by one. *)
Lemma step_backward_distance (tail i : Z) :
  in_ring cfg tail -> in_ring cfg i -> i <> tail ->
  ((i - 1) mod N - tail) mod N = (i - tail) mod N - 1 /\ 1 <= (i - tail) mod N.
Proof.
  pose proof ring_size as HN. unfold in_ring. intros Ht Hi Hne.
  assert (Hd : (i - tail) mod N <> 0).
  { intros E. apply mod_zero_eq in E; lia. }
  pose proof (Z.mod_pos_bound (i - tail) N ltac:(lia)).
  split; [|lia].
  rewrite Zminus_mod_idemp_l.
  replace (i - 1 - tail) with (i - tail - 1) by lia.
  apply mod_pred; lia.
Qed.

(** Forward walks end, and keep what their body keeps. *)
Lemma walk_forward_returns {A : Type} (advance : Z -> Z) (body : Z -> A -> A) (head : Z) :
  in_ring cfg head ->
  (forall i, in_ring cfg i -> advance i = (i + 1) mod N) ->
  forall fuel i a,
    in_ring cfg i -> (Z.to_nat ((head - i) mod N) < fuel)%nat ->
    exists r, walk_forward advance body fuel head i a = Some r.
Proof.
  intros Hh Hadv. induction fuel as [|fuel IH]; intros i a Hi Hfuel; [lia|].
  cbn [walk_forward]. destruct (Z.eqb_spec i head) as [E|E]; cbn [negb].
  - now exists a.
  - destruct (step_forward_distance head i Hh Hi E) as [Hd H1].
    rewrite (Hadv i Hi). apply IH; [apply mod_in_ring|]. rewrite Hd. lia.
Qed.

Lemma walk_forward_invariant {A : Type} (P : A -> Prop) (advance : Z -> Z)
  (body : Z -> A -> A) (head : Z) :
  (forall i a, P a -> P (body i a)) ->
  forall fuel i a r, P a -> walk_forward advance body fuel head i a = Some r -> P r.
Proof.
  intros Hbody. induction fuel as [|fuel IH]; intros i a r Ha; cbn [walk_forward].
  - discriminate.
  - destruct (negb (i =? head)).
    + apply IH. now apply Hbody.
    + intros [= <-]. exact Ha.
Qed.

Lemma ring_fuel_enough (d : Z) : 0 <= d < N -> (Z.to_nat d < ring_fuel cfg)%nat.
Proof. unfold ring_fuel. lia. Qed.

(** The backward walk of the reverse pass, in closed form. *)
Lemma reverse_pass_loop_unfold {A : Type} (kernel : option Z -> option Z -> option Z -> A -> A)
  (tail : Z) :
  in_ring cfg tail ->
  forall fuel i b0 b1 b2 a,
    in_ring cfg i -> (Z.to_nat ((i - tail) mod N) < fuel)%nat ->
    reverse_pass_loop cfg kernel fuel tail i (b0, b1, b2) a =
    Some (fold_left (call_kernel kernel)
            (windows_from cfg i b0 b1 (Z.to_nat ((i - tail) mod N))) a).
Proof.
  pose proof ring_size as HN.
  intros Ht. induction fuel as [|fuel IH]; intros i b0 b1 b2 a Hi Hfuel; [lia|].
  cbn [reverse_pass_loop]. destruct (Z.eqb_spec i tail) as [E|E]; cbn [negb].
  - subst i. rewrite Z.sub_diag, Z.mod_0_l by (lia). reflexivity.
  - destruct (step_backward_distance tail i Ht Hi E) as [Hd H1].
    rewrite (prev_block_index_mod i Hi).
    pose proof (mod_in_ring (i - 1)) as Hi'.
    rewrite u8_small by (unfold in_ring in Hi'; fold N in Hi'; lia).
    rewrite IH by (try assumption; rewrite Hd; lia).
    rewrite Hd.
    replace (Z.to_nat ((i - tail) mod N)) with (S (Z.to_nat ((i - tail) mod N - 1))) by lia.
    reflexivity.
Qed.

End Ring.

(** ** Reverse pass *)

Lemma record_calls (ws acc : list window) :
  fold_left (call_kernel record_call) ws acc = acc ++ ws.
Proof.
  revert acc. induction ws as [|[[p c] n] ws IH]; intros acc; cbn [fold_left].
  - now rewrite app_nil_r.
  - unfold call_kernel at 2. unfold record_call. rewrite IH, <- app_assoc. reflexivity.
Qed.

Section ReversePass.

Variable cfg : config.
Hypothesis Hring : ring_ok cfg.

Local Abbreviation N := (BLOCK_BUFFER_SIZE cfg).

Lemma ring_down_cons (i : Z) (n : nat) :
  ring_down cfg i (S n) = i mod N :: ring_down cfg (i - 1) n.
Proof.
  unfold ring_down. cbn [seq map]. rewrite Z.sub_0_r. f_equal.
  rewrite <- seq_shift, map_map. apply map_ext. intros k. f_equal. lia.
Qed.

Lemma ring_down_mod (i : Z) (n : nat) : ring_down cfg (i mod N) n = ring_down cfg i n.
Proof.
  unfold ring_down. apply map_ext. intros k. now rewrite Zminus_mod_idemp_l.
Qed.

(** Once the window is full every call adjusts its [current]. *)
Lemma adjusted_full_window (n : nat) (i : Z) (b : Z) :
  adjusted_blocks (windows_from cfg i (Some (i mod N)) (Some b) n) = ring_down cfg i n.
Proof.
  revert i b. induction n as [|n IH]; intros i b; [reflexivity|].
  cbn [windows_from]. cbn [adjusted_blocks flat_map app].
  rewrite ring_down_cons. f_equal.
  pose proof (IH ((i - 1) mod N) (i mod N)) as H.
  rewrite Zmod_mod in H. unfold adjusted_blocks in H. rewrite H.
  apply ring_down_mod.
Qed.

(** From an empty window the first two calls adjust nothing. *)
Lemma adjusted_from_empty_window (n : nat) (i : Z) :
  adjusted_blocks (windows_from cfg i None None n) = ring_down cfg (i - 2) (n - 2).
Proof.
  destruct n as [|[|n]]; [reflexivity | reflexivity |].
  cbn [windows_from]. cbn [adjusted_blocks flat_map app].
  pose proof (adjusted_full_window n (((i - 1) mod N - 1) mod N) ((i - 1) mod N)) as H.
  rewrite Zmod_mod in H. unfold adjusted_blocks in H. rewrite H.
  rewrite ring_down_mod. replace (S (S n) - 2)%nat with n by lia.
  rewrite <- (ring_down_mod ((i - 1) mod N - 1)), Zminus_mod_idemp_l, ring_down_mod.
  f_equal. lia.
Qed.

(** The pass over any kernel is the fold of the kernel over the calls of the
    pass. *)
Lemma reverse_pass_calls_spec {A : Type} (kernel : option Z -> option Z -> option Z -> A -> A)
  (head tail : Z) (a : A) :
  in_ring cfg head -> in_ring cfg tail ->
  exists calls,
    reverse_pass_calls cfg head tail = Some calls /\
    reverse_pass cfg kernel head tail a = Some (fold_left (call_kernel kernel) calls a) /\
    adjusted_blocks calls =
    ring_down cfg (head - 5) (Z.to_nat ((head - tail) mod N - 5)).
Proof.
  pose proof (ring_size cfg Hring) as HN.
  intros Hh Ht. unfold reverse_pass_calls, reverse_pass.
  rewrite (depth_mod cfg Hring).
  pose proof (Z.mod_pos_bound (head - tail) N ltac:(lia)) as Hd.
  destruct (Z.gtb_spec ((head - tail) mod N) 3) as [H3|H3].
  - rewrite (ring_mask cfg Hring).
    pose proof (mod_in_ring cfg Hring (head - 3)) as Hi.
    rewrite u8_small by (unfold in_ring in Hi; fold N in Hi; lia).
    assert (En : ((head - 3) mod N - tail) mod N = (head - tail) mod N - 3).
    { rewrite Zminus_mod_idemp_l.
      symmetry. apply Z.mod_unique with (q := (head - tail) / N); [lia|].
      pose proof (Z.div_mod (head - tail) N ltac:(lia)). lia. }
    rewrite !(reverse_pass_loop_unfold cfg Hring _ tail Ht)
      by (try assumption; rewrite En; apply (ring_fuel_enough cfg); lia).
    rewrite En. eexists. split; [reflexivity|]. split.
    + rewrite record_calls. reflexivity.
    + rewrite record_calls. cbn [app]. rewrite adjusted_from_empty_window.
      rewrite <- (ring_down_mod ((head - 3) mod N - 2)), Zminus_mod_idemp_l, ring_down_mod.
      f_equal; lia.
  - exists []. repeat split.
    replace (Z.to_nat ((head - tail) mod N - 5)) with 0%nat by lia. reflexivity.
Qed.

Lemma in_ring_down (head tail i : Z) :
  in_ring cfg head -> in_ring cfg tail ->
  In i (ring_down cfg (head - 5) (Z.to_nat ((head - tail) mod N - 5))) <->
  in_ring cfg i /\ 1 <= (i - tail) mod N <= (head - tail) mod N - 5.
Proof.
  pose proof (ring_size cfg Hring) as HN.
  intros Hh Ht. unfold ring_down. rewrite in_map_iff.
  pose proof (Z.mod_pos_bound (head - tail) N ltac:(lia)) as Hd.
  pose proof (Z.div_mod (head - tail) N ltac:(lia)) as Hdm.
  split.
  - intros (k & <- & Hk). apply in_seq in Hk. split; [apply (mod_in_ring cfg Hring)|].
    rewrite Zminus_mod_idemp_l.
    replace ((head - 5 - Z.of_nat k - tail) mod N)
      with ((head - tail) mod N - 5 - Z.of_nat k); [lia|].
    apply Z.mod_unique with (q := (head - tail) / N); lia.
  - intros (Hi & Hlo & Hhi).
    exists (Z.to_nat ((head - tail) mod N - 5 - (i - tail) mod N)). split.
    + rewrite Z2Nat.id by lia.
      pose proof (Z.div_mod (i - tail) N ltac:(lia)) as Him.
      unfold in_ring in Hi.
      symmetry. apply Z.mod_unique with (q := (head - tail) / N - (i - tail) / N); lia.
    + apply in_seq. lia.
Qed.

End ReversePass.

(** C3, as stated, fails: with four blocks queued (tail 0, newest 3) the pass
    makes one kernel call, with NULL [current], and never considers the blocks
    1 and 2 that lie strictly between the tail and the newest block. *)
Lemma reverse_pass_skips_recent_blocks :
  ~ (forall head tail calls i,
       in_ring example_config head -> in_ring example_config tail ->
       2 <= (head - tail) mod BLOCK_BUFFER_SIZE example_config ->
       reverse_pass_calls example_config head tail = Some calls ->
       in_ring example_config i ->
       1 <= (i - tail) mod BLOCK_BUFFER_SIZE example_config
         <= (head - tail) mod BLOCK_BUFFER_SIZE example_config - 2 ->
       In i (adjusted_blocks calls)).
Proof.
  intros H.
  assert (Hin : In 1 (adjusted_blocks [(Some 0, None, None)])); [|exact Hin].
  apply (H 4 0); try reflexivity;
    vm_compute; repeat split; (discriminate || reflexivity).
Qed.

(** C3, amended. The reverse pass returns; it is the fold of its kernel over
    the calls it makes, and the blocks it considers as [current] with a
    non-NULL [next] are exactly those from [tail + 1] up to [head - 5]: the
    tail block and the four newest blocks are excluded, and nothing is
    considered while fewer than six blocks are queued. *)
Theorem reverse_pass_considers (cfg : config) (fsqrt : float -> float) (st : planner) :
  ring_ok cfg ->
  in_ring cfg (block_buffer_head st) -> in_ring cfg (block_buffer_tail st) ->
  exists calls,
    reverse_pass_calls cfg (block_buffer_head st) (block_buffer_tail st) = Some calls /\
    planner_reverse_pass cfg fsqrt st =
    Some (set_block_buffer st
            (fold_left (call_kernel (planner_reverse_pass_kernel fsqrt)) calls
               (block_buffer st))) /\
    forall i,
      In i (adjusted_blocks calls) <->
      in_ring cfg i /\
      1 <= (i - block_buffer_tail st) mod BLOCK_BUFFER_SIZE cfg
        <= (block_buffer_head st - block_buffer_tail st) mod BLOCK_BUFFER_SIZE cfg - 5.
Proof.
  intros Hring Hh Ht.
  destruct (reverse_pass_calls_spec cfg Hring (planner_reverse_pass_kernel fsqrt)
              (block_buffer_head st) (block_buffer_tail st) (block_buffer st) Hh Ht)
    as (calls & Hc & Hp & Ha).
  exists calls. split; [exact Hc|]. split.
  - unfold planner_reverse_pass. rewrite Hp. reflexivity.
  - intros i. rewrite Ha. now apply in_ring_down.
Qed.

(** ** Look-ahead: what it keeps, and that it returns *)

Lemma same_static_refl (buf : Z -> block_t) : same_static buf buf.
Proof. intros i. reflexivity. Qed.

Lemma same_static_trans (b1 b2 b3 : Z -> block_t) :
  same_static b1 b2 -> same_static b2 b3 -> same_static b1 b3.
Proof. intros H12 H23 i. now rewrite H23, H12. Qed.

Lemma same_static_store (buf0 buf : Z -> block_t) (i : Z) (b : block_t) :
  same_static buf0 buf -> static_part b = static_part (buf i) ->
  same_static buf0 (store_block buf i b).
Proof.
  intros H Hb j. unfold store_block. destruct (Z.eqb_spec j i) as [->|_].
  - now rewrite Hb, H.
  - apply H.
Qed.

Lemma static_calculate_trapezoid (b : block_t) (f1 f2 : float) :
  static_part (fst (calculate_trapezoid_for_block b f1 f2)) = static_part b.
Proof. unfold calculate_trapezoid_for_block. now destruct (busy b). Qed.

Lemma static_reverse_kernel (fsqrt : float -> float) (buf0 : Z -> block_t)
  (p c n : option Z) (buf : Z -> block_t) :
  same_static buf0 buf -> same_static buf0 (planner_reverse_pass_kernel fsqrt p c n buf).
Proof.
  intros H. unfold planner_reverse_pass_kernel.
  destruct c as [c|]; [|exact H]. destruct n as [n|]; [|exact H].
  destruct (negb (feq _ _)); [|exact H].
  apply same_static_store; [exact H|]. now destruct (_ && _).
Qed.

Lemma static_forward_kernel (fsqrt : float -> float) (buf0 : Z -> block_t)
  (p c n : option Z) (buf : Z -> block_t) :
  same_static buf0 buf -> same_static buf0 (planner_forward_pass_kernel fsqrt p c n buf).
Proof.
  intros H. unfold planner_forward_pass_kernel.
  destruct p as [p|]; [|exact H]. destruct c as [c|]; [|exact H].
  destruct (negb (nominal_length_flag _)); [|exact H].
  destruct (flt _ _); [|exact H].
  destruct (negb (feq _ _)); [|exact H].
  now apply same_static_store.
Qed.

Lemma static_recalculate_at (buf0 buf : Z -> block_t) (i : Z) (f1 f2 : float) :
  same_static buf0 buf -> same_static buf0 (recalculate_at buf i f1 f2).
Proof.
  intros H. unfold recalculate_at. apply same_static_store; [exact H|].
  apply static_calculate_trapezoid.
Qed.

Lemma static_clear_flag (buf0 buf : Z -> block_t) (i : Z) :
  same_static buf0 buf -> same_static buf0 (clear_recalculate_flag buf i).
Proof. intros H. unfold clear_recalculate_flag. now apply same_static_store. Qed.

Lemma reverse_pass_loop_invariant {A : Type} (cfg : config) (P : A -> Prop)
  (kernel : option Z -> option Z -> option Z -> A -> A) :
  (forall p c n a, P a -> P (kernel p c n a)) ->
  forall fuel tail i w a r,
    P a -> reverse_pass_loop cfg kernel fuel tail i w a = Some r -> P r.
Proof.
  intros Hk. induction fuel as [|fuel IH]; intros tail i [[b0 b1] b2] a r Ha;
    cbn [reverse_pass_loop].
  - discriminate.
  - destruct (negb (i =? tail)).
    + apply IH. now apply Hk.
    + intros [= <-]. exact Ha.
Qed.

Section Recalculate.

Variable cfg : config.
Variable fsqrt : float -> float.

Lemma planner_reverse_pass_keeps (st st' : planner) :
  planner_reverse_pass cfg fsqrt st = Some st' ->
  same_static (block_buffer st) (block_buffer st') /\ registers st' = registers st
  /\ fanSpeed st' = fanSpeed st.
Proof.
  unfold planner_reverse_pass, reverse_pass.
  destruct (_ >? 3).
  - destruct (reverse_pass_loop _ _ _ _ _ _ _) as [buf|] eqn:E; [|discriminate].
    intros [= <-]. split; [|split; reflexivity]. cbn.
    apply (reverse_pass_loop_invariant cfg (same_static (block_buffer st))
             (planner_reverse_pass_kernel fsqrt)) in E; [exact E | | apply same_static_refl].
    intros p c n a. apply static_reverse_kernel.
  - intros [= <-]. split; [apply same_static_refl | split; reflexivity].
Qed.

Lemma planner_forward_pass_keeps (st st' : planner) :
  planner_forward_pass cfg fsqrt st = Some st' ->
  same_static (block_buffer st) (block_buffer st') /\ registers st' = registers st
  /\ fanSpeed st' = fanSpeed st.
Proof.
  unfold planner_forward_pass.
  destruct (walk_forward _ _ _ _ _ _) as [[[[b0 b1] b2] buf]|] eqn:E; [|discriminate].
  intros [= <-]. split; [|split; reflexivity]. cbn.
  apply static_forward_kernel.
  apply (walk_forward_invariant
           (fun s : window * (Z -> block_t) => same_static (block_buffer st) (snd s))) in E;
    [exact E | | apply same_static_refl].
  intros i [[[c0 c1] c2] a] Ha. cbn in *. now apply static_forward_kernel.
Qed.

Lemma planner_recalculate_trapezoids_keeps (st st' : planner) :
  planner_recalculate_trapezoids cfg st = Some st' ->
  same_static (block_buffer st) (block_buffer st') /\ registers st' = registers st
  /\ fanSpeed st' = fanSpeed st.
Proof.
  unfold planner_recalculate_trapezoids.
  destruct (walk_forward _ _ _ _ _ _) as [[[current next] buf]|] eqn:E; [|discriminate].
  apply (walk_forward_invariant
           (fun s : option Z * option Z * (Z -> block_t) =>
              same_static (block_buffer st) (snd s))) in E;
    [ | | apply same_static_refl].
  - cbn in E. destruct next as [n|]; intros [= <-]; (split; [|split; reflexivity]); cbn.
    + now apply static_clear_flag, static_recalculate_at.
    + exact E.
  - intros i [[c0 c1] a] Ha. cbn in *. destruct c1 as [c|]; [|exact Ha].
    destruct (_ || _); [|exact Ha]. cbn. now apply static_clear_flag, static_recalculate_at.
Qed.

Lemma planner_recalculate_keeps (st st' : planner) :
  planner_recalculate cfg fsqrt st = Some st' ->
  same_static (block_buffer st) (block_buffer st') /\ registers st' = registers st
  /\ fanSpeed st' = fanSpeed st.
Proof.
  unfold planner_recalculate.
  destruct (planner_reverse_pass cfg fsqrt st) as [st1|] eqn:E1; [|discriminate].
  destruct (planner_forward_pass cfg fsqrt st1) as [st2|] eqn:E2; [|discriminate].
  intros E3.
  apply planner_reverse_pass_keeps in E1. apply planner_forward_pass_keeps in E2.
  apply planner_recalculate_trapezoids_keeps in E3.
  destruct E1 as (S1 & R1 & F1), E2 as (S2 & R2 & F2), E3 as (S3 & R3 & F3).
  split; [|split; congruence].
  eapply same_static_trans; [|exact S3]. eapply same_static_trans; eassumption.
Qed.

Hypothesis Hring : ring_ok cfg.

Lemma planner_recalculate_returns (st : planner) :
  in_ring cfg (block_buffer_head st) -> in_ring cfg (block_buffer_tail st) ->
  exists st', planner_recalculate cfg fsqrt st = Some st'.
Proof.
  pose proof (ring_size cfg Hring) as HN.
  intros Hh Ht. unfold planner_recalculate.
  destruct (reverse_pass_calls_spec cfg Hring (planner_reverse_pass_kernel fsqrt)
              (block_buffer_head st) (block_buffer_tail st) (block_buffer st) Hh Ht)
    as (calls & _ & E1 & _).
  unfold planner_reverse_pass. rewrite E1. cbn [option_map].
  assert (Hwalk : forall (A : Type) (conv : Z -> Z) (body : Z -> A -> A) (a : A),
             (forall i, 0 <= i < 64 -> conv i = i) ->
             exists r, walk_forward (fun i => conv (next_block_index cfg i)) body
                         (ring_fuel cfg) (block_buffer_head st) (block_buffer_tail st) a
                       = Some r).
  { intros A conv body a Hconv.
    apply (walk_forward_returns cfg Hring); try assumption.
    - intros i Hi. rewrite (next_block_index_mod cfg Hring i Hi).
      apply Hconv. pose proof (mod_in_ring cfg Hring (i + 1)) as H.
      unfold in_ring in H. lia.
    - apply ring_fuel_enough.
      apply Z.mod_pos_bound. lia. }
  unfold planner_forward_pass.
  cbn [block_buffer_head block_buffer_tail block_buffer set_block_buffer].
  unfold in_ring in Ht.
  rewrite u8_small by lia.
  destruct (Hwalk _ u8 (forward_pass_body fsqrt)
              ((None, None, None),
               fold_left (call_kernel (planner_reverse_pass_kernel fsqrt)) calls
                 (block_buffer st)))
    as ([[[b0 b1] b2] buf] & E2).
  { intros i Hi. apply u8_small. lia. }
  rewrite E2.
  unfold planner_recalculate_trapezoids.
  cbn [block_buffer_head block_buffer_tail block_buffer set_block_buffer].
  rewrite i8_small by lia.
  destruct (Hwalk _ i8 (recalculate_trapezoids_body)
              (None, None, planner_forward_pass_kernel fsqrt b1 b2 None buf))
    as ([[current next] buf'] & E3).
  { intros i Hi. apply i8_small. lia. }
  rewrite E3. destruct next; eexists; reflexivity.
Qed.

End Recalculate.

(** ** Comparisons and signs of the idealised floats *)

Lemma flt_true (a b : float) : flt a b = true -> (a < b)%Q.
Proof.
  unfold flt. intros H. apply Qnot_le_lt. intros Hle.
  apply Qle_bool_iff in Hle. rewrite Hle in H. discriminate.
Qed.

Lemma flt_false (a b : float) : flt a b = false -> (b <= a)%Q.
Proof.
  unfold flt. intros H. apply Qle_bool_iff.
  destruct (Qle_bool b a); [reflexivity | discriminate].
Qed.

Lemma fgt_true (a b : float) : fgt a b = true -> (b < a)%Q.
Proof. apply flt_true. Qed.

Lemma Qdiv_pos (a b : Q) : (0 < a -> 0 < b -> 0 < a / b)%Q.
Proof.
  intros Ha Hb. unfold Qdiv. apply Qmult_lt_0_compat; [|apply Qinv_lt_0_compat]; assumption.
Qed.

Lemma fmin_pos (a b : float) : (0 < a -> 0 < b -> 0 < fmin a b)%Q.
Proof. intros Ha Hb. unfold fmin. now destruct (flt a b). Qed.

Lemma fabs_pos (a : float) : ~ (a == 0)%Q -> (0 < fabs a)%Q.
Proof.
  intros Hne. unfold fabs. apply Qabs_case; intros H; apply Qle_lteq in H;
    destruct H as [H|H]; try lra; exfalso; apply Hne; lra.
Qed.

Lemma of_int_nonzero (n : Z) : n <> 0 -> ~ (of_int n == 0)%Q.
Proof.
  intros Hn E. apply Hn. unfold of_int, Qeq in E. cbn in E. lia.
Qed.

Lemma of_int_pos (n : Z) : 0 < n -> (0 < of_int n)%Q.
Proof. intros H. unfold of_int. change 0%Q with (inject_Z 0). now rewrite <- Zlt_Qlt. Qed.

Lemma Qdiv_nonzero (a b : Q) : ~ (a == 0)%Q -> (0 < b)%Q -> ~ (a / b == 0)%Q.
Proof.
  intros Ha Hb E. apply Ha.
  assert (H : (a == a / b * b)%Q).
  { field. intros Hb0. rewrite Hb0 in Hb. discriminate. }
  rewrite H, E. ring.
Qed.

Lemma square_pos (a : float) : ~ (a == 0)%Q -> (0 < square a)%Q.
Proof.
  intros Ha. unfold square. destruct (Q_dec a 0) as [[H|H]|H]; [nra | nra | contradiction].
Qed.

Lemma square_nonneg (a : float) : (0 <= square a)%Q.
Proof. unfold square. nra. Qed.

Lemma lround_of_int (n : Z) : 0 <= n -> lround (of_int n) = n.
Proof.
  intros Hn. unfold lround, of_int.
  assert (H0 : Qle_bool 0 (inject_Z n) = true).
  { apply Qle_bool_iff. change 0%Q with (inject_Z 0). now rewrite <- Zle_Qle. }
  rewrite H0.
  pose proof (Qfloor_le (inject_Z n + (1 # 2))) as Hlo.
  pose proof (Qlt_floor (inject_Z n + (1 # 2))) as Hhi.
  set (f := Qfloor (inject_Z n + (1 # 2))) in *.
  unfold Qle, Qlt in *. cbn in *. lia.
Qed.

(** ** Block builder: every divisor is positive *)

Lemma u32_le (n : Z) : 0 <= n -> 0 <= u32 n <= n.
Proof.
  intros Hn. unfold u32, wrap_unsigned. split.
  - apply Z.mod_pos_bound. reflexivity.
  - apply Z.mod_le; [exact Hn | reflexivity].
Qed.

Lemma labs_nonzero (n : Z) : labs n <> 0 -> n <> 0.
Proof. intros H ->. now apply H. Qed.

Section Builder.

Variable cfg : config.
Variable fsqrt : float -> float.
Variable st : planner.
Variables x y z e feed_rate : float.
Variable extruder : Z.

Hypothesis Hax : sane_axes cfg extruder.
Hypothesis Hsqrt : sqrt_positive fsqrt.
Hypothesis Hslow : sane_slowdown cfg.
Hypothesis Hring : ring_ok cfg.
Hypothesis Hfeed : (0 < feed_rate)%Q.
Hypothesis Hlong : dropsegments cfg < block_step_event_count cfg st x y z e extruder.

Lemma steps_e_nonzero :
  block_steps_e cfg st x y z e extruder <> 0 ->
  ax_e (delta_steps cfg st x y z e extruder) <> 0 /\ extrudemultiply cfg <> 0.
Proof.
  unfold block_steps_e. cbv zeta. intros H. split; intros E; apply H; rewrite E.
  - reflexivity.
  - now rewrite Z.mul_0_r.
Qed.

(** A no_move segment that survives the drop test moves the extruder. *)
Lemma no_move_steps_e :
  no_move cfg st x y z e extruder = true -> block_steps_e cfg st x y z e extruder <> 0.
Proof.
  destruct Hax as (Hdrop & _).
  unfold no_move. rewrite !andb_true_iff, !Z.leb_le. intros [[Hx Hy] Hz] He.
  revert Hlong. unfold block_step_event_count. rewrite He.
  set (sx := block_steps_x cfg st x y z e extruder) in *.
  set (sy := block_steps_y cfg st x y z e extruder) in *.
  set (sz := block_steps_z cfg st x y z e extruder) in *.
  intros Hl.
  assert (Hm : 0 <= zmax sx (zmax sy (zmax sz 0)) <= dropsegments cfg).
  { unfold zmax.
    destruct (Z.gtb_spec sz 0);
      match goal with |- context [sy >? ?b] => destruct (Z.gtb_spec sy b) end;
      match goal with |- context [sx >? ?b] => destruct (Z.gtb_spec sx b) end; lia. }
  pose proof (u32_le _ (proj1 Hm)). lia.
Qed.

(** Otherwise one of X, Y, Z moves. *)
Lemma move_delta_nonzero :
  no_move cfg st x y z e extruder = false ->
  ax_x (delta_steps cfg st x y z e extruder) <> 0 \/
  ax_y (delta_steps cfg st x y z e extruder) <> 0 \/
  ax_z (delta_steps cfg st x y z e extruder) <> 0.
Proof.
  destruct Hax as (Hdrop & _).
  unfold no_move. rewrite !andb_false_iff, !Z.leb_gt.
  unfold block_steps_x, block_steps_y, block_steps_z.
  intros [[H|H]|H]; [left | right; left | right; right]; apply labs_nonzero; lia.
Qed.

Lemma block_millimeters_pos : (0 < block_millimeters cfg fsqrt st x y z e extruder)%Q.
Proof.
  destruct Hax as (Hdrop & Hsx & Hsy & Hsz & Hse & _).
  unfold block_millimeters. destruct (no_move cfg st x y z e extruder) eqn:Hnm.
  - destruct (steps_e_nonzero (no_move_steps_e Hnm)) as [Hd Hm].
    apply fabs_pos. unfold delta_mm. cbn [ax_e].
    apply Qdiv_nonzero; [|reflexivity].
    intros E. apply Qmult_integral in E. destruct E as [E|E].
    + revert E. apply Qdiv_nonzero; [now apply of_int_nonzero | exact Hse].
    + revert E. now apply of_int_nonzero.
  - apply Hsqrt. unfold delta_mm. cbn [ax_x ax_y ax_z].
    pose proof (square_nonneg (of_int (ax_x (delta_steps cfg st x y z e extruder))
                               / axis_steps_per_unit cfg X_AXIS)) as Nx.
    pose proof (square_nonneg (of_int (ax_y (delta_steps cfg st x y z e extruder))
                               / axis_steps_per_unit cfg Y_AXIS)) as Ny.
    pose proof (square_nonneg (of_int (ax_z (delta_steps cfg st x y z e extruder))
                               / axis_steps_per_unit cfg Z_AXIS)) as Nz.
    destruct (move_delta_nonzero Hnm) as [H|[H|H]].
    + pose proof (square_pos _ (Qdiv_nonzero _ _ (of_int_nonzero _ H) Hsx)). lra.
    + pose proof (square_pos _ (Qdiv_nonzero _ _ (of_int_nonzero _ H) Hsy)). lra.
    + pose proof (square_pos _ (Qdiv_nonzero _ _ (of_int_nonzero _ H) Hsz)). lra.
Qed.

Lemma floored_feed_rate_pos : (0 < floored_feed_rate cfg st x y z e feed_rate extruder)%Q.
Proof.
  unfold floored_feed_rate.
  destruct (_ =? 0);
    match goal with |- context [flt ?a ?b] => destruct (flt a b) eqn:E end;
    try exact Hfeed; apply flt_true in E; lra.
Qed.

Lemma half_ring (n m : Z) : flt (of_int n) (of_int m * (1 # 2)) = true -> 2 * n < m.
Proof. intros H. apply flt_true in H. unfold Qlt, of_int in H. cbn in H. lia. Qed.

Lemma inverse_second_pos : (0 < inverse_second cfg fsqrt st x y z e feed_rate extruder)%Q.
Proof.
  pose proof block_millimeters_pos as Hmm. pose proof floored_feed_rate_pos as Hf.
  pose proof (ring_size cfg Hring) as HN.
  assert (Hbase : (0 < floored_feed_rate cfg st x y z e feed_rate extruder
                       * inverse_millimeters cfg fsqrt st x y z e extruder)%Q).
  { unfold inverse_millimeters.
    apply Qmult_lt_0_compat; [exact Hf | apply Qdiv_pos; [reflexivity | exact Hmm]]. }
  unfold inverse_second. cbv zeta.
  destruct (SLOWDOWN cfg && _ && _ && _) eqn:Hs; [|exact Hbase].
  destruct ((_ >? 1) && _) eqn:Hq; [|exact Hbase].
  match goal with
  | |- context [?a <? ?b] => destruct (Z.ltb_spec a b) as [Hlt|]; [|exact Hbase]
  end.
  apply Qdiv_pos; [reflexivity|]. apply of_int_pos.
  apply andb_true_iff in Hq. destruct Hq as [Hq1 Hq2].
  apply half_ring in Hq2. apply Z.gtb_lt in Hq1.
  set (mq := moves_queued cfg st) in *.
  match type of Hlt with ?a < _ => set (seg := a) in * end.
  assert (Hseg : 0 <= seg < 2 ^ 32) by (apply Z.mod_pos_bound; reflexivity).
  destruct Hslow as [H|[H|[H1 H2]]].
  - rewrite H in Hs. discriminate.
  - lia.
  - set (m := minsegmenttime cfg) in *.
    change (2 ^ 31) with 2147483648 in *. change (2 ^ 32) with 4294967296 in *.
    assert (P32 : 2 ^ 32 = 4294967296) by reflexivity.
    assert (P31 : 2 ^ 31 = 2147483648) by reflexivity.
    rewrite (u32_small (m - seg)) by lia.
    rewrite (u32_small (2 * (m - seg))) by lia.
    rewrite (u32_small mq) by lia.
    assert (Hq : 0 <= 2 * (m - seg) / mq <= m - seg).
    { split; [apply Z.div_pos; lia|]. apply Z.div_le_upper_bound; nia. }
    rewrite lround_of_int by lia.
    rewrite i32_small by lia.
    rewrite u32_small by lia.
    destruct (Z.eq_dec seg 0) as [E|E]; [|lia].
    assert (0 < 2 * (m - seg) / mq) by (apply Z.div_str_pos; lia). lia.
Qed.

Lemma limit_speed_factor_pos (speed_factor current_speed max_feedrate : float) :
  (0 < speed_factor)%Q -> (0 < max_feedrate)%Q ->
  (0 < limit_speed_factor speed_factor current_speed max_feedrate)%Q.
Proof.
  intros Hs Hm. unfold limit_speed_factor.
  destruct (fgt _ _) eqn:E; [|exact Hs].
  apply fgt_true in E. apply fmin_pos; [exact Hs|]. apply Qdiv_pos; lra.
Qed.

Lemma speed_factor_pos : (0 < speed_factor cfg fsqrt st x y z e feed_rate extruder)%Q.
Proof.
  destruct Hax as (_ & _ & _ & _ & _ & Hfx & Hfy & Hfz & Hfe).
  unfold speed_factor. cbv zeta.
  repeat apply limit_speed_factor_pos; try assumption; try reflexivity.
  unfold COMP_SPEED. lra.
Qed.

Lemma block_nominal_speed_pos :
  (0 < block_nominal_speed cfg fsqrt st x y z e feed_rate extruder)%Q.
Proof.
  pose proof block_millimeters_pos. pose proof inverse_second_pos. pose proof speed_factor_pos.
  unfold block_nominal_speed. cbv zeta.
  destruct (flt _ 1); repeat apply Qmult_lt_0_compat; assumption.
Qed.

End Builder.

(** ** Block builder: outcomes *)

Lemma static_fields (a b : block_t) :
  static_part a = static_part b ->
  nominal_speed a = nominal_speed b /\ nominal_length_flag a = nominal_length_flag b /\
  step_event_count a = step_event_count b /\ steps_e a = steps_e b /\
  millimeters a = millimeters b /\ acceleration a = acceleration b.
Proof. unfold static_part. intros [= ]. repeat split; assumption. Qed.

Section Outcomes.

Variable cfg : config.
Variable fsqrt : float -> float.
Variable st : planner.
Variables x y z e feed_rate : float.
Variable extruder : Z.
Variable safe_speed_uninit : float.

Hypothesis Hring : ring_ok cfg.
Hypothesis Hhead : in_ring cfg (block_buffer_head st).
Hypothesis Htail : in_ring cfg (block_buffer_tail st).

(** With room in the ring, a segment longer than the drop threshold is
    queued: the look-ahead returns, on the state with the new block in. *)
Lemma plan_buffer_line_queues :
  block_buffer_tail st <> next_buffer_head cfg st ->
  dropsegments cfg < block_step_event_count cfg st x y z e extruder ->
  exists st',
    plan_buffer_line cfg fsqrt st x y z e feed_rate extruder safe_speed_uninit
    = Some (Queued st') /\
    planner_recalculate cfg fsqrt
      (committed cfg fsqrt st x y z e feed_rate extruder safe_speed_uninit) = Some st'.
Proof.
  pose proof (ring_size cfg Hring) as HN.
  intros Hroom Hlong. unfold plan_buffer_line.
  destruct (Z.eqb_spec (block_buffer_tail st) (next_buffer_head cfg st)) as [|_];
    [contradiction|].
  destruct (Z.leb_spec (block_step_event_count cfg st x y z e extruder) (dropsegments cfg))
    as [|_]; [lia|].
  destruct (planner_recalculate_returns cfg fsqrt Hring
              (committed cfg fsqrt st x y z e feed_rate extruder safe_speed_uninit))
    as (st' & E).
  - change (in_ring cfg (u8 (next_buffer_head cfg st))).
    unfold next_buffer_head.
    rewrite (next_block_index_mod cfg Hring _ Hhead).
    pose proof (mod_in_ring cfg Hring (block_buffer_head st + 1)) as Hn.
    rewrite u8_small; [exact Hn|]. unfold in_ring in Hn. lia.
  - exact Htail.
  - exists st'. rewrite E. split; reflexivity.
Qed.

(** The look-ahead that ends a call keeps the registers the builder set and
    the static part of every block. *)
Lemma queued_state (st' : planner) :
  planner_recalculate cfg fsqrt
    (committed cfg fsqrt st x y z e feed_rate extruder safe_speed_uninit) = Some st' ->
  block_buffer_head st' = u8 (next_buffer_head cfg st) /\
  block_buffer_tail st' = block_buffer_tail st /\
  position st' = target cfg x y z e extruder /\
  static_part (block_buffer st' (block_buffer_head st)) =
  static_part (prepared_block cfg fsqrt st x y z e feed_rate extruder) /\
  forall i, i <> block_buffer_head st ->
            static_part (block_buffer st' i) = static_part (block_buffer st i).
Proof.
  intros E. apply planner_recalculate_keeps in E. destruct E as (Hs & Hr & _).
  set (c := committed cfg fsqrt st x y z e feed_rate extruder safe_speed_uninit) in *.
  assert (Eh : block_buffer_head st' = block_buffer_head c)
    by exact (f_equal (fun r => fst (fst (fst (fst (fst (fst r)))))) Hr).
  assert (Et : block_buffer_tail st' = block_buffer_tail c)
    by exact (f_equal (fun r => snd (fst (fst (fst (fst (fst r)))))) Hr).
  assert (Ep : position st' = position c)
    by exact (f_equal (fun r => snd (fst (fst (fst (fst r))))) Hr).
  repeat split; try assumption.
  - rewrite (Hs (block_buffer_head st)).
    change (block_buffer c (block_buffer_head st))
      with (store_block (block_buffer st) (block_buffer_head st)
              (new_block cfg fsqrt st x y z e feed_rate extruder safe_speed_uninit)
              (block_buffer_head st)).
    unfold store_block. rewrite Z.eqb_refl. unfold new_block.
    apply static_calculate_trapezoid.
  - intros i Hi. rewrite (Hs i).
    change (block_buffer c i)
      with (store_block (block_buffer st) (block_buffer_head st)
              (new_block cfg fsqrt st x y z e feed_rate extruder safe_speed_uninit) i).
    unfold store_block. now destruct (Z.eqb_spec i (block_buffer_head st)).
Qed.

Lemma next_head_in_ring :
  u8 (next_buffer_head cfg st) = next_block_index cfg (block_buffer_head st) /\
  in_ring cfg (next_block_index cfg (block_buffer_head st)).
Proof.
  pose proof (ring_size cfg Hring) as HN. unfold next_buffer_head.
  rewrite (next_block_index_mod cfg Hring _ Hhead).
  pose proof (mod_in_ring cfg Hring (block_buffer_head st + 1)) as Hn.
  split; [|exact Hn]. apply u8_small. unfold in_ring in Hn. lia.
Qed.

End Outcomes.

(** ** The example machine *)

Lemma example_ring_ok : ring_ok example_config.
Proof. exists 4. split; [lia | reflexivity]. Qed.

Lemma example_sane_axes (extruder : Z) : sane_axes example_config extruder.
Proof.
  unfold sane_axes, example_config, axis_steps_per_unit, max_feedrate, dropsegments.
  repeat split; try reflexivity; try discriminate;
    repeat match goal with
           | |- context [if ?c then _ else _] => destruct c
           end; reflexivity.
Qed.

Lemma example_sane_slowdown : sane_slowdown example_config.
Proof. right. right. cbn. lia. Qed.

Lemma example_sqrt_positive : sqrt_positive example_sqrt.
Proof.
  intros q Hq. unfold example_sqrt. cbv zeta.
  set (n := Qfloor (q * 1000000000000)).
  pose proof (Z.sqrt_nonneg n) as Hr.
  destruct (Qeq_bool _ _) eqn:E.
  - apply Qeq_bool_eq in E. apply Qdiv_pos; [|reflexivity].
    change 0%Q with (inject_Z 0). rewrite <- Zlt_Qlt.
    assert (Hsq : (0 < inject_Z (Z.sqrt n * Z.sqrt n))%Q) by (rewrite E; lra).
    change 0%Q with (inject_Z 0) in Hsq. rewrite <- Zlt_Qlt in Hsq. nia.
  - apply Qdiv_pos; [|reflexivity].
    change 0%Q with (inject_Z 0). rewrite <- Zlt_Qlt. lia.
Qed.

(** ** Block builder: the claims *)

Lemma rescaled_position_xyz (cfg : config) (st : planner) (extruder : Z) :
  ax_x (rescaled_position cfg st extruder) = ax_x (position st) /\
  ax_y (rescaled_position cfg st extruder) = ax_y (position st) /\
  ax_z (rescaled_position cfg st extruder) = ax_z (position st).
Proof. unfold rescaled_position. now destruct (_ && _ && _). Qed.

Lemma rescaled_position_same_extruder (cfg : config) (st : planner) (extruder : Z) :
  last_extruder st = extruder \/
  feq (axis_steps_per_unit cfg (E_AXIS + extruder))
      (axis_steps_per_unit cfg (E_AXIS + last_extruder st)) = true ->
  rescaled_position cfg st extruder = position st.
Proof.
  unfold rescaled_position. intros [E | E]; rewrite E.
  - rewrite Z.eqb_refl. cbn [negb]. now rewrite andb_false_r.
  - cbn [negb]. now rewrite andb_false_r.
Qed.

(** C2. Scenario 1 of the spec (10 mm along X at 50 mm/s from rest) is an
    XYZ move whose safe floor is 10 mm/s and whose nominal speed is 50 mm/s,
    so the exit factor should be 1/5 and the committed final rate 800 steps/s.
    The factor handed to the generator is the uninitialised outer
    [safe_speed] over the nominal speed: with 0 in that slot the factor is 0
    and the final rate the 120 steps/s floor, with 37 it is 37/50. *)
Theorem initial_exit_factor_reads_uninitialised :
  no_move example_config example_boot 10 0 0 0 0 = false /\
  (inner_safe_speed example_config example_sqrt example_boot 10 0 0 0 50 0 == 10)%Q /\
  (block_nominal_speed example_config example_sqrt example_boot 10 0 0 0 50 0 == 50)%Q /\
  (exit_factor example_config example_sqrt example_boot 10 0 0 0 50 0 0 == 0)%Q /\
  (exit_factor example_config example_sqrt example_boot 10 0 0 0 50 0 37 == 37 / 50)%Q /\
  final_rate (new_block example_config example_sqrt example_boot 10 0 0 0 50 0 0) = 120 /\
  final_rate (new_block example_config example_sqrt example_boot 10 0 0 0 50 0 10) = 800.
Proof. vm_compute. repeat split; reflexivity. Qed.

(** On every XYZ move the exit factor is the uninitialised value over the
    nominal speed, whatever the junction speeds are. *)
Lemma exit_factor_of_move (cfg : config) (fsqrt : float -> float) (st : planner)
  (x y z e feed_rate : float) (extruder : Z) (safe_speed_uninit : float) :
  no_move cfg st x y z e extruder = false ->
  exit_factor cfg fsqrt st x y z e feed_rate extruder safe_speed_uninit =
  (safe_speed_uninit / block_nominal_speed cfg fsqrt st x y z e feed_rate extruder)%Q.
Proof. intros H. unfold exit_factor, safe_speed. now rewrite H. Qed.

(** No call of the builder writes [last_extruder]. *)
Lemma plan_buffer_line_keeps_last_extruder (cfg : config) (fsqrt : float -> float)
  (st : planner) (x y z e feed_rate : float) (extruder : Z) (safe_speed_uninit : float)
  (st' : planner) :
  plan_buffer_line cfg fsqrt st x y z e feed_rate extruder safe_speed_uninit
  = Some (Dropped st') \/
  plan_buffer_line cfg fsqrt st x y z e feed_rate extruder safe_speed_uninit
  = Some (Queued st') ->
  last_extruder st' = last_extruder st.
Proof.
  unfold plan_buffer_line.
  destruct (_ =? _); [intros [H|H]; discriminate H|].
  destruct (_ <=? _).
  - intros [[= <-]|H]; [reflexivity | discriminate H].
  - destruct (planner_recalculate _ _ _) as [st1|] eqn:E;
      [|intros [H|H]; discriminate H].
    intros [H|[= <-]]; [discriminate H|].
    apply planner_recalculate_keeps in E. destruct E as (_ & Hr & _).
    exact (f_equal snd Hr).
Qed.

(** C4. After [plan_set_position] on extruder 0 with E at 10 mm (1000 steps),
    a first call for extruder 1 to the same place rescales [position[E]] to
    1400 and drops the empty move, leaving [last_extruder] at 0. A second
    identical call rescales 1400 again, to 1960, and queues a retract of 560
    steps that nobody asked for. *)
Theorem extruder_rescale_repeats :
  match plan_buffer_line example_config example_sqrt swap_state 0 0 0 10 50 1 0 with
  | Some (Dropped st1) =>
    ax_e (position swap_state) = 1000 /\ last_extruder swap_state = 0 /\
    ax_e (position st1) = 1400 /\ last_extruder st1 = 0 /\
    ax_e (rescaled_position example_config st1 1) = 1960 /\
    match plan_buffer_line example_config example_sqrt st1 0 0 0 10 50 1 0 with
    | Some (Queued st2) =>
      steps_e (block_buffer st2 0) = 560 /\ retract (block_buffer st2 0) = true /\
      block_buffer_head st2 = 1
    | _ => False
    end
  | _ => False
  end.
Proof. vm_compute. repeat split; reflexivity. Qed.

(** C7, as stated, fails: the dropped first call of the extruder swap leaves
    [position[E]] at 1400 instead of 1000. *)
Lemma dropped_move_rescales_position :
  match plan_buffer_line example_config example_sqrt swap_state 0 0 0 10 50 1 0 with
  | Some (Dropped st') =>
    block_step_event_count example_config swap_state 0 0 0 10 1
      <= dropsegments example_config /\
    position st' <> position swap_state
  | _ => False
  end.
Proof. vm_compute. split; [discriminate | intros [= ]]. Qed.

(** C7, amended. With room in the ring a call drops the segment exactly when
    its step_event_count is at most [dropsegments]. A dropped call leaves
    head, tail, the junction memory, [position[X, Y, Z]] and every other slot
    of the ring as they were; [position[E]] is what the extruder rescale made
    of it, which is the old value when the extruder is [last_extruder] or
    both steps-per-mm agree. A longer segment is queued, head advances by one
    slot and [position] becomes the target. *)
Theorem short_segment_dropped (cfg : config) (fsqrt : float -> float) (st : planner)
  (x y z e feed_rate : float) (extruder : Z) (safe_speed_uninit : float) :
  ring_ok cfg ->
  in_ring cfg (block_buffer_head st) -> in_ring cfg (block_buffer_tail st) ->
  block_buffer_tail st <> next_buffer_head cfg st ->
  exists st',
    plan_buffer_line cfg fsqrt st x y z e feed_rate extruder safe_speed_uninit =
    Some (if block_step_event_count cfg st x y z e extruder <=? dropsegments cfg
          then Dropped st' else Queued st') /\
    (block_step_event_count cfg st x y z e extruder <= dropsegments cfg ->
     block_buffer_head st' = block_buffer_head st /\
     block_buffer_tail st' = block_buffer_tail st /\
     previous_speed st' = previous_speed st /\
     previous_nominal_speed st' = previous_nominal_speed st /\
     ax_x (position st') = ax_x (position st) /\
     ax_y (position st') = ax_y (position st) /\
     ax_z (position st') = ax_z (position st) /\
     position st' = rescaled_position cfg st extruder /\
     (last_extruder st = extruder \/
      feq (axis_steps_per_unit cfg (E_AXIS + extruder))
          (axis_steps_per_unit cfg (E_AXIS + last_extruder st)) = true ->
      position st' = position st) /\
     forall i, i <> block_buffer_head st -> block_buffer st' i = block_buffer st i) /\
    (dropsegments cfg < block_step_event_count cfg st x y z e extruder ->
     block_buffer_head st' = next_block_index cfg (block_buffer_head st) /\
     block_buffer_tail st' = block_buffer_tail st /\
     position st' = target cfg x y z e extruder /\
     step_event_count (block_buffer st' (block_buffer_head st)) =
     block_step_event_count cfg st x y z e extruder).
Proof.
  intros Hring Hh Ht Hroom.
  destruct (Z.leb_spec (block_step_event_count cfg st x y z e extruder) (dropsegments cfg))
    as [Hshort|Hlong].
  - eexists. split; [|split; [intros _|lia]].
    + unfold plan_buffer_line.
      destruct (Z.eqb_spec (block_buffer_tail st) (next_buffer_head cfg st)) as [|_];
        [contradiction|].
      destruct (Z.leb_spec (block_step_event_count cfg st x y z e extruder)
                  (dropsegments cfg)) as [_|]; [reflexivity | lia].
    + cbn [set_position set_block_buffer block_buffer_head block_buffer_tail
           previous_speed previous_nominal_speed position block_buffer].
      destruct (rescaled_position_xyz cfg st extruder) as (Ex & Ey & Ez).
      repeat split; try assumption.
      * apply rescaled_position_same_extruder.
      * intros i Hi. unfold store_block.
        now destruct (Z.eqb_spec i (block_buffer_head st)).
  - destruct (plan_buffer_line_queues cfg fsqrt st x y z e feed_rate extruder
                safe_speed_uninit Hring Hh Ht Hroom Hlong) as (st' & E & Er).
    exists st'. split; [exact E|]. split; [lia|]. intros _.
    destruct (queued_state cfg fsqrt st x y z e feed_rate extruder safe_speed_uninit st' Er)
      as (Eh & Et & Ep & Es & _).
    destruct (next_head_in_ring cfg st Hring Hh) as (En & _).
    repeat split; try assumption.
    + now rewrite Eh.
    + apply static_fields in Es. destruct Es as (_ & _ & Es & _).
      rewrite Es. unfold prepared_block. reflexivity.
Qed.

Lemma short_segment_dropped_witness :
  ring_ok example_config /\
  in_ring example_config (block_buffer_head swap_state) /\
  in_ring example_config (block_buffer_tail swap_state) /\
  block_buffer_tail swap_state <> next_buffer_head example_config swap_state /\
  exists st',
    plan_buffer_line example_config example_sqrt swap_state 0 0 0 10 50 1 0 =
    Some (if block_step_event_count example_config swap_state 0 0 0 10 1
             <=? dropsegments example_config
          then Dropped st' else Queued st').
Proof.
  assert (Hh : in_ring example_config (block_buffer_head swap_state))
    by (vm_compute; split; [discriminate | reflexivity]).
  assert (Ht : in_ring example_config (block_buffer_tail swap_state))
    by (vm_compute; split; [discriminate | reflexivity]).
  assert (Hroom : block_buffer_tail swap_state <> next_buffer_head example_config swap_state)
    by (vm_compute; discriminate).
  split; [exact example_ring_ok|]. split; [exact Hh|]. split; [exact Ht|].
  split; [exact Hroom|].
  destruct (short_segment_dropped example_config example_sqrt swap_state 0 0 0 10 50 1 0
              example_ring_ok Hh Ht Hroom) as (st' & E & _).
  exists st'. exact E.
Defined.

Lemma reverse_pass_considers_witness :
  ring_ok example_config /\
  exists calls,
    reverse_pass_calls example_config 7 0 = Some calls /\
    (In 2 (adjusted_blocks calls) <->
     in_ring example_config 2 /\
     1 <= (2 - 0) mod BLOCK_BUFFER_SIZE example_config
       <= (7 - 0) mod BLOCK_BUFFER_SIZE example_config - 5).
Proof.
  split; [exact example_ring_ok|].
  assert (Hh : in_ring example_config (block_buffer_head queue7))
    by (vm_compute; split; [discriminate | reflexivity]).
  assert (Ht : in_ring example_config (block_buffer_tail queue7))
    by (vm_compute; split; [discriminate | reflexivity]).
  destruct (reverse_pass_considers example_config example_sqrt queue7
              example_ring_ok Hh Ht) as (calls & E & _ & Hin).
  exists calls. split; [exact E | exact (Hin 2)].
Defined.

(** The flag of a queued block: the builder's on an XYZ move, the slot's old
    one on a pure-E move. *)
Lemma nominal_length_flag_of_queued (cfg : config) (fsqrt : float -> float) (st : planner)
  (x y z e feed_rate : float) (extruder : Z) (safe_speed_uninit : float) (st' : planner) :
  plan_buffer_line cfg fsqrt st x y z e feed_rate extruder safe_speed_uninit
  = Some (Queued st') ->
  nominal_length_flag (block_buffer st' (block_buffer_head st)) =
  if no_move cfg st x y z e extruder
  then nominal_length_flag (block_buffer st (block_buffer_head st))
  else fle (block_nominal_speed cfg fsqrt st x y z e feed_rate extruder)
           (v_allowable cfg fsqrt st x y z e extruder).
Proof.
  unfold plan_buffer_line.
  destruct (_ =? _); [discriminate|]. destruct (_ <=? _); [discriminate|].
  destruct (planner_recalculate _ _ _) as [st1|] eqn:E; [|discriminate].
  intros [= <-].
  destruct (queued_state cfg fsqrt st x y z e feed_rate extruder safe_speed_uninit st1 E)
    as (_ & _ & _ & Es & _).
  apply static_fields in Es. destruct Es as (_ & Es & _).
  rewrite Es. unfold prepared_block. reflexivity.
Qed.

(** C8. A retract of 2 mm at 25 mm/s from boot is queued with
    [nominal_length_flag = false], the value the zeroed slot held, although
    its nominal speed is below [v_allowable]. *)
Theorem pure_e_block_keeps_stale_flag :
  match plan_buffer_line example_config example_sqrt example_boot 0 0 0 (-2) 25 0 0 with
  | Some (Queued st') =>
    let b := block_buffer st' 0 in
    nominal_length_flag (block_buffer example_boot 0) = false /\
    retract b = true /\
    nominal_length_flag b = false /\
    (nominal_speed b <=
     max_allowable_speed example_sqrt (- acceleration b)
       (MINIMUM_PLANNER_SPEED example_config) (millimeters b))%Q
  | _ => False
  end.
Proof. vm_compute. repeat split; try reflexivity. discriminate. Qed.

Lemma tight_ring_ok : ring_ok tight_config.
Proof. exists 4. split; [lia | reflexivity]. Qed.

(** C10, as stated, fails: with a minimum segment time of 1 microsecond and
    three blocks queued, a move of 1 mm on X and E at 10^7 mm/s (feed rate,
    floors and axis limits all positive) has a segment time that rounds to 0
    and is stretched by [2 * (1 - 0) / 3 = 0] microseconds: the SLOWDOWN
    code divides 10^6 by 0 and the block is queued with a nominal speed that
    is not positive (0 in this arithmetic). *)
Lemma slowdown_zeroes_nominal_speed :
  (0 < 10000000)%Q /\
  (0 < minimumfeedrate tight_config)%Q /\ (0 < mintravelfeedrate tight_config)%Q /\
  (0 < max_feedrate tight_config X_AXIS)%Q /\ (0 < max_feedrate tight_config Y_AXIS)%Q /\
  (0 < max_feedrate tight_config Z_AXIS)%Q /\ (0 < max_feedrate tight_config (E_AXIS + 0))%Q /\
  moves_queued tight_config queue3 = 3 /\
  exists st',
    plan_buffer_line tight_config example_sqrt queue3 1 0 0 1 10000000 0 0
    = Some (Queued st') /\
    ~ (0 < nominal_speed (block_buffer st' (block_buffer_head queue3)))%Q.
Proof.
  repeat (split; [reflexivity|]).
  assert (Hh : in_ring tight_config (block_buffer_head queue3))
    by (vm_compute; split; [discriminate | reflexivity]).
  assert (Ht : in_ring tight_config (block_buffer_tail queue3))
    by (vm_compute; split; [discriminate | reflexivity]).
  assert (Hroom : block_buffer_tail queue3 <> next_buffer_head tight_config queue3)
    by (vm_compute; discriminate).
  assert (Hlong : dropsegments tight_config
                  < block_step_event_count tight_config queue3 1 0 0 1 0)
    by (vm_compute; reflexivity).
  destruct (plan_buffer_line_queues tight_config example_sqrt queue3 1 0 0 1 10000000 0 0
              tight_ring_ok Hh Ht Hroom Hlong) as (st' & E & Er).
  exists st'. split; [exact E|].
  destruct (queued_state tight_config example_sqrt queue3 1 0 0 1 10000000 0 0 st' Er)
    as (_ & _ & _ & Es & _).
  apply static_fields in Es. destruct Es as (Es & _). rewrite Es.
  unfold prepared_block. cbn [nominal_speed]. vm_compute. intros H. discriminate H.
Qed.

(** C10, amended. With the settings sane for the move (positive steps per
    mm and feed-rate limits on its axes, a drop threshold that is not
    negative), a well-formed ring, a square root that is positive on positive
    numbers, a minimum segment time that cannot stretch a segment to 0
    microseconds (SLOWDOWN off, or [minsegmenttime] 0, or at least a quarter
    of the ring size and below 2^31) and a positive feed rate, a call that
    queues a block publishes it with a positive nominal speed, which is also
    the divisor of the factors of the initial trapezoid; the nominal speeds
    of the blocks already queued are untouched, so every divisor met by
    [planner_recalculate_trapezoids] is positive as long as this holds of
    each insertion. *)
Theorem published_nominal_speed_positive (cfg : config) (fsqrt : float -> float)
  (st : planner) (x y z e feed_rate : float) (extruder : Z) (safe_speed_uninit : float)
  (st' : planner) :
  ring_ok cfg -> sane_axes cfg extruder -> sane_slowdown cfg -> sqrt_positive fsqrt ->
  (0 < feed_rate)%Q ->
  plan_buffer_line cfg fsqrt st x y z e feed_rate extruder safe_speed_uninit
  = Some (Queued st') ->
  (0 < nominal_speed (block_buffer st' (block_buffer_head st)))%Q /\
  nominal_speed (block_buffer st' (block_buffer_head st)) =
  block_nominal_speed cfg fsqrt st x y z e feed_rate extruder /\
  forall i, i <> block_buffer_head st ->
            nominal_speed (block_buffer st' i) = nominal_speed (block_buffer st i).
Proof.
  intros Hring Hax Hslow Hsqrt Hfeed. unfold plan_buffer_line.
  destruct (_ =? _); [discriminate|].
  destruct (Z.leb_spec (block_step_event_count cfg st x y z e extruder) (dropsegments cfg))
    as [|Hlong]; [discriminate|].
  destruct (planner_recalculate _ _ _) as [st1|] eqn:E; [|discriminate].
  intros [= <-].
  destruct (queued_state cfg fsqrt st x y z e feed_rate extruder safe_speed_uninit st1 E)
    as (_ & _ & _ & Es & Eo).
  apply static_fields in Es. destruct Es as (Es & _).
  assert (En : nominal_speed (block_buffer st1 (block_buffer_head st)) =
               block_nominal_speed cfg fsqrt st x y z e feed_rate extruder).
  { rewrite Es. unfold prepared_block. reflexivity. }
  split; [|split; [exact En|]].
  - rewrite En. now apply block_nominal_speed_pos.
  - intros i Hi. specialize (Eo i Hi). apply static_fields in Eo. now destruct Eo.
Qed.

Lemma published_nominal_speed_positive_witness :
  ring_ok example_config /\ sane_axes example_config 0 /\ sane_slowdown example_config /\
  sqrt_positive example_sqrt /\ (0 < 50)%Q /\
  exists st',
    plan_buffer_line example_config example_sqrt example_boot 10 0 0 0 50 0 0
    = Some (Queued st') /\
    (0 < nominal_speed (block_buffer st' (block_buffer_head example_boot)))%Q.
Proof.
  split; [exact example_ring_ok|]. split; [exact (example_sane_axes 0)|].
  split; [exact example_sane_slowdown|]. split; [exact example_sqrt_positive|].
  split; [reflexivity|].
  assert (Hh : in_ring example_config (block_buffer_head example_boot))
    by (vm_compute; split; [discriminate | reflexivity]).
  assert (Hroom : block_buffer_tail example_boot <> next_buffer_head example_config example_boot)
    by (vm_compute; discriminate).
  assert (Hlong : dropsegments example_config
                  < block_step_event_count example_config example_boot 10 0 0 0 0)
    by (vm_compute; reflexivity).
  destruct (plan_buffer_line_queues example_config example_sqrt example_boot 10 0 0 0 50 0 0
              example_ring_ok Hh Hh Hroom Hlong) as (st' & E & _).
  exists st'. split; [exact E|].
  apply (published_nominal_speed_positive example_config example_sqrt example_boot
           10 0 0 0 50 0 0 st' example_ring_ok (example_sane_axes 0) example_sane_slowdown
           example_sqrt_positive eq_refl E).
Defined.

(** ** Axis-activity scan *)

(** C9, as stated, fails: with two blocks of extruder 0 queued, the newest
    one carrying the fan at 200 (also the current setting), the scan writes
    100, the fan speed of the tail block, to the pin of extruder 0. *)
Lemma fan_follows_tail_block :
  match check_axes_activity example_config fan_queue with
  | Some (_, out) =>
    block_buffer_tail fan_queue = 0 /\ block_buffer_head fan_queue = 2 /\
    active_extruder (block_buffer fan_queue 1) = 0 /\
    fan_speed (block_buffer fan_queue 1) = 200 /\
    fan_pin example_config 0 = 6 /\
    In (6, 100) (analogWrite out) /\ ~ In (6, 200) (analogWrite out)
  | None => False
  end.
Proof.
  vm_compute. repeat split; try reflexivity.
  - left. reflexivity.
  - intros [H|[H|[]]]; discriminate H.
Qed.

Section Fans.

Variable cfg : config.

Local Abbreviation pin := (fan_output_pin cfg).
Local Abbreviation driven := (fan_driven cfg).

Lemma fan_kept_refl (f : Z -> Z) : fan_kept cfg f f.
Proof. split; reflexivity. Qed.

(** Slaving the entry of [e] to the entry of the active extruder. *)
Lemma fan_kept_slave (f0 f : Z -> Z) (e : Z) :
  fan_kept cfg f0 f -> fan_slaved cfg e = true ->
  fan_kept cfg f0 (fun i => if i =? e then f (ACTIVE_EXTRUDER cfg) else f i).
Proof.
  intros [Hk Ha] He. split.
  - intros i Hi. destruct (Z.eqb_spec i e) as [->|_]; [congruence | now apply Hk].
  - now destruct (ACTIVE_EXTRUDER cfg =? e).
Qed.

Lemma fan_round_writes (tfs0 fs0 tfs fs : Z -> Z) (writes : list (Z * Z)) (e : Z) :
  fan_kept cfg tfs0 tfs -> fan_kept cfg fs0 fs ->
  exists tfs' fs',
    fan_round cfg (tfs, fs, writes) e =
    (tfs', fs', writes ++ (if driven e then [(pin e, tfs0 (fan_source cfg e))] else [])) /\
    fan_kept cfg tfs0 tfs' /\ fan_kept cfg fs0 fs'.
Proof.
  intros Ht Hf. unfold fan_round, fan_driven, fan_output_pin, fan_source.
  change (PER_EXTRUDER_FANS cfg && (EXTRUDERS cfg >? 1) && follow_me_fan cfg
          && negb (Z.land (follow_me cfg) (Z.shiftl 1 e) =? 0))
    with (fan_slaved cfg e).
  destruct (fan_slaved cfg e) eqn:Es.
  - exists (fun i => if i =? e then tfs (ACTIVE_EXTRUDER cfg) else tfs i),
           (fun i => if i =? e then fs (ACTIVE_EXTRUDER cfg) else fs i).
    split; [|split; now apply fan_kept_slave].
    rewrite Z.eqb_refl. destruct Ht as [_ ->].
    destruct (PER_EXTRUDER_FANS cfg).
    + destruct (fan_pin cfg e >? -1); [reflexivity | now rewrite app_nil_r].
    + destruct ((e =? ACTIVE_EXTRUDER cfg) && (FAN_PIN cfg >? -1));
        [reflexivity | now rewrite app_nil_r].
  - exists tfs, fs. split; [|split; assumption].
    destruct Ht as [Hk _]. rewrite (Hk e Es).
    destruct (PER_EXTRUDER_FANS cfg).
    + destruct (fan_pin cfg e >? -1); [reflexivity | now rewrite app_nil_r].
    + destruct ((e =? ACTIVE_EXTRUDER cfg) && (FAN_PIN cfg >? -1));
        [reflexivity | now rewrite app_nil_r].
Qed.

Lemma fan_loop_writes (tfs0 fs0 : Z -> Z) (es : list Z) :
  forall (tfs fs : Z -> Z) (writes : list (Z * Z)),
    fan_kept cfg tfs0 tfs -> fan_kept cfg fs0 fs ->
    exists tfs' fs',
      fold_left (fan_round cfg) es (tfs, fs, writes) =
      (tfs', fs',
       writes ++ map (fun e => (pin e, tfs0 (fan_source cfg e))) (filter driven es)) /\
      fan_kept cfg fs0 fs'.
Proof.
  induction es as [|e es IH]; intros tfs fs writes Ht Hf; cbn [fold_left filter map].
  - exists tfs, fs. now rewrite app_nil_r.
  - destruct (fan_round_writes tfs0 fs0 tfs fs writes e Ht Hf) as (tfs1 & fs1 & E & Ht1 & Hf1).
    rewrite E.
    destruct (IH tfs1 fs1 (writes ++ (if driven e then [(pin e, tfs0 (fan_source cfg e))]
                                       else [])) Ht1 Hf1) as (tfs2 & fs2 & E2 & Hf2).
    exists tfs2, fs2. split; [|exact Hf2].
    rewrite E2, <- app_assoc. now destruct (driven e).
Qed.

Hypothesis Hring : ring_ok cfg.

Lemma check_axes_activity_fans (st : planner) :
  in_ring cfg (block_buffer_head st) -> in_ring cfg (block_buffer_tail st) ->
  exists st' out,
    check_axes_activity cfg st = Some (st', out) /\
    fan_kept cfg (fanSpeed st) (fanSpeed st') /\
    analogWrite out =
    map (fun e => (pin e, tail_fan_speed st (fan_source cfg e)))
        (filter driven (extruders cfg)).
Proof.
  pose proof (ring_size cfg Hring) as HN.
  intros Hh Ht. unfold check_axes_activity.
  destruct (fan_loop_writes (tail_fan_speed st) (fanSpeed st) (extruders cfg)
              (tail_fan_speed st) (fanSpeed st) [] (fan_kept_refl _) (fan_kept_refl _))
    as (tfs' & fs' & El & Hf).
  rewrite El. cbn [app].
  destruct (negb (block_buffer_tail st =? block_buffer_head st)).
  - destruct (walk_forward_returns cfg Hring
                (fun i => u8 (Z.land (i + 1) (BLOCK_BUFFER_SIZE cfg - 1)))
                (count_active) (block_buffer_head st) Hh) with
        (fuel := ring_fuel cfg) (i := u8 (block_buffer_tail st))
        (a := ((0, 0, 0, 0), block_buffer st))
      as ([[[[xa ya] za] ea] buf] & E).
    + intros i Hi. rewrite (ring_mask cfg Hring).
      pose proof (mod_in_ring cfg Hring (i + 1)) as Hn. unfold in_ring in Hn.
      apply u8_small. lia.
    + unfold in_ring in Ht. rewrite u8_small by lia. exact Ht.
    + apply ring_fuel_enough. apply Z.mod_pos_bound. lia.
    + rewrite E. cbn [option_map fst]. eexists. eexists. split; [reflexivity|].
      split; [exact Hf | reflexivity].
  - eexists. eexists. split; [reflexivity|]. split; [exact Hf | reflexivity].
Qed.

End Fans.

(** C9, amended. The scan returns and writes one PWM value per driven
    extruder (with PER_EXTRUDER_FANS every extruder that has a pin, otherwise
    the active extruder on FAN_PIN), in extruder order. For an extruder that
    is not slaved by follow-me the value is the [fan_speed] of the tail
    block, the one being executed, when the queue is not empty and that is
    the block's extruder, and the configured [fanSpeed] of the extruder
    otherwise and when the queue is empty; a slaved extruder is given what
    the active extruder is given by this rule. The [fanSpeed] of an extruder
    that is not slaved is left alone. *)
Theorem fan_output_of_tail_block (cfg : config) (st : planner) :
  ring_ok cfg ->
  in_ring cfg (block_buffer_head st) -> in_ring cfg (block_buffer_tail st) ->
  exists st' out,
    check_axes_activity cfg st = Some (st', out) /\
    (forall e, fan_slaved cfg e = false -> fanSpeed st' e = fanSpeed st e) /\
    analogWrite out =
    map (fun e =>
           let source := if fan_slaved cfg e then ACTIVE_EXTRUDER cfg else e in
           (if PER_EXTRUDER_FANS cfg then fan_pin cfg e else FAN_PIN cfg,
            if block_buffer_tail st =? block_buffer_head st then fanSpeed st source
            else if source =? active_extruder (block_buffer st (block_buffer_tail st))
                 then u8 (fan_speed (block_buffer st (block_buffer_tail st)))
                 else fanSpeed st source))
        (filter (fun e => if PER_EXTRUDER_FANS cfg then fan_pin cfg e >? -1
                          else (e =? ACTIVE_EXTRUDER cfg) && (FAN_PIN cfg >? -1))
                (extruders cfg)).
Proof.
  intros Hring Hh Ht.
  destruct (check_axes_activity_fans cfg Hring st Hh Ht) as (st' & out & E & [Hk _] & Ew).
  exists st', out. split; [exact E|]. split; [exact Hk|].
  rewrite Ew. apply map_ext. intros e. cbv zeta. f_equal.
  unfold tail_fan_speed, fan_source.
  now destruct (block_buffer_tail st =? block_buffer_head st).
Qed.

Lemma fan_output_of_tail_block_witness :
  ring_ok follow_config /\
  in_ring follow_config (block_buffer_head fan_queue) /\
  in_ring follow_config (block_buffer_tail fan_queue) /\
  fan_slaved follow_config 0 = false /\ fan_slaved follow_config 1 = true /\
  exists st' out,
    check_axes_activity follow_config fan_queue = Some (st', out) /\
    analogWrite out = [(6, 100); (7, 100)].
Proof.
  assert (Hr : ring_ok follow_config) by (exists 4; split; [lia | reflexivity]).
  assert (Hh : in_ring follow_config (block_buffer_head fan_queue))
    by (vm_compute; split; [discriminate | reflexivity]).
  assert (Ht : in_ring follow_config (block_buffer_tail fan_queue))
    by (vm_compute; split; [discriminate | reflexivity]).
  split; [exact Hr|]. split; [exact Hh|]. split; [exact Ht|].
  split; [reflexivity|]. split; [reflexivity|].
  destruct (fan_output_of_tail_block follow_config fan_queue Hr Hh Ht)
    as (st' & out & E & _ & Ew).
  exists st', out. split; [exact E|]. rewrite Ew. reflexivity.
Defined.

(** * Further properties *)

(** ** Ring indices *)

Lemma prev_of_next_block_index (cfg : config) (i : Z) :
  ring_ok cfg -> in_ring cfg i -> prev_block_index cfg (next_block_index cfg i) = i.
Proof.
  intros Hring Hi. pose proof (ring_size cfg Hring) as HN.
  pose proof (mod_in_ring cfg Hring (i + 1)) as Hn.
  rewrite (next_block_index_mod cfg Hring i Hi), (prev_block_index_mod cfg Hring _ Hn).
  rewrite Zminus_mod_idemp_l, Z.add_simpl_r.
  unfold in_ring in Hi. apply Z.mod_small. lia.
Qed.

(** X1. On a ring whose capacity is a power of two of at most 64,
    [next_block_index] and [prev_block_index] keep an index inside the ring
    and undo each other, across the wrap at either end. *)
Theorem ring_index_round_trip (cfg : config) (i : Z) :
  ring_ok cfg -> in_ring cfg i ->
  in_ring cfg (next_block_index cfg i) /\ in_ring cfg (prev_block_index cfg i) /\
  prev_block_index cfg (next_block_index cfg i) = i /\
  next_block_index cfg (prev_block_index cfg i) = i.
Proof.
  intros Hring Hi. pose proof (ring_size cfg Hring) as HN.
  pose proof (mod_in_ring cfg Hring (i + 1)) as Hn.
  pose proof (mod_in_ring cfg Hring (i - 1)) as Hp.
  split; [now rewrite (next_block_index_mod cfg Hring i Hi)|].
  split; [now rewrite (prev_block_index_mod cfg Hring i Hi)|].
  split; [now apply prev_of_next_block_index|].
  rewrite (prev_block_index_mod cfg Hring i Hi), (next_block_index_mod cfg Hring _ Hp).
  rewrite Zplus_mod_idemp_l, Z.sub_add.
  unfold in_ring in Hi. apply Z.mod_small. lia.
Qed.

Lemma ring_index_round_trip_witness :
  ring_ok example_config /\ in_ring example_config 15 /\
  next_block_index example_config 15 = 0 /\
  prev_block_index example_config (next_block_index example_config 15) = 15.
Proof.
  assert (Hi : in_ring example_config 15) by (vm_compute; split; [discriminate | reflexivity]).
  split; [exact example_ring_ok|]. split; [exact Hi|]. split; [reflexivity|].
  apply (ring_index_round_trip example_config 15 example_ring_ok Hi).
Defined.

(** ** Kinematics *)

Lemma feq_false (a b : float) : ~ (a == b)%Q -> feq a b = false.
Proof.
  intros H. unfold feq. destruct (Qeq_bool a b) eqn:E; [|reflexivity].
  apply Qeq_bool_eq in E. contradiction.
Qed.

(** X2. For a non-zero acceleration, [estimate_acceleration_distance] is the
    distance [s] with [target^2 = initial^2 + 2 a s], and
    [intersection_distance] is the point of a segment of length [d] at which
    accelerating from [initial] and then braking to [final] reach the same
    speed. *)
Theorem acceleration_distances_solve (i t f a d : float) :
  ~ (a == 0)%Q ->
  (t * t == i * i + 2 * a * estimate_acceleration_distance i t a)%Q /\
  (i * i + 2 * a * intersection_distance i f a d
   == f * f + 2 * a * (d - intersection_distance i f a d))%Q.
Proof.
  intros Ha. unfold estimate_acceleration_distance, intersection_distance.
  rewrite (feq_false a 0 Ha). cbn [negb]. split; field; exact Ha.
Qed.

Lemma acceleration_distances_solve_witness :
  ~ (1000 == 0)%Q /\
  (4000 * 4000 == 800 * 800 + 2 * 1000 * estimate_acceleration_distance 800 4000 1000)%Q.
Proof.
  assert (H : ~ (1000 == 0)%Q) by discriminate.
  split; [exact H|]. apply (acceleration_distances_solve 800 4000 120 1000 800 H).
Defined.

(** ** Trapezoid generator: the shape of the profile *)

Lemma i32_range (z : Z) : - 2 ^ 31 <= i32 z < 2 ^ 31.
Proof.
  unfold i32, wrap_signed. change (2 ^ (32 - 1)) with (2 ^ 31).
  pose proof (Z.mod_pos_bound (z + 2 ^ 31) (2 ^ 32) eq_refl).
  change (2 ^ 32) with (2 * 2 ^ 31) in *. lia.
Qed.

(** The triangle case: the clamp brings any step count into [0, N]. *)
Lemma clamp_accelerate_steps (v n : Z) :
  0 <= n < 2 ^ 31 ->
  0 <= i32 (zmin (u32 (zmax (i32 v) 0)) n) <= n.
Proof.
  intros Hn. pose proof (i32_range v) as Hv.
  change (2 ^ 31) with 2147483648 in *.
  assert (Hm : 0 <= zmax (i32 v) 0 < 2147483648).
  { unfold zmax. destruct (Z.gtb_spec (i32 v) 0); lia. }
  rewrite (u32_small (zmax (i32 v) 0)) by (change (2 ^ 32) with 4294967296; lia).
  assert (Hz : 0 <= zmin (zmax (i32 v) 0) n <= n).
  { unfold zmin. destruct (Z.ltb_spec (zmax (i32 v) 0) n); lia. }
  rewrite i32_small by (change (2 ^ 31) with 2147483648; lia). exact Hz.
Qed.

Lemma ceil_bounds (q : Q) (m : Z) : (0 <= q)%Q -> (q <= inject_Z m)%Q -> 0 <= ceil q <= m.
Proof.
  intros H0 Hm. unfold ceil. split.
  - apply Z.le_trans with (Qceiling (inject_Z 0)); [rewrite Qceiling_Z; lia|].
    now apply Qceiling_resp_le.
  - apply Z.le_trans with (Qceiling (inject_Z m)); [|rewrite Qceiling_Z; lia].
    now apply Qceiling_resp_le.
Qed.

Lemma floor_bounds (q : Q) (m : Z) : (0 <= q)%Q -> (q <= inject_Z m)%Q -> 0 <= floor q <= m.
Proof.
  intros H0 Hm. unfold floor. split.
  - apply Z.le_trans with (Qfloor (inject_Z 0)); [rewrite Qfloor_Z; lia|].
    now apply Qfloor_resp_le.
  - apply Z.le_trans with (Qfloor (inject_Z m)); [|rewrite Qfloor_Z; lia].
    now apply Qfloor_resp_le.
Qed.

(** The distance between two rates [lo <= hi <= T], [T * T < 2^31], at an
    acceleration of at least 1 step/s^2, is at most 2^30 steps. *)
Lemma rate_distance_bounds (lo hi a : Z) :
  0 <= lo <= hi -> hi * hi < 2 ^ 31 -> 0 < a ->
  (0 <= (of_int hi * of_int hi - of_int lo * of_int lo) / (2 * of_int a)
   <= inject_Z (2 ^ 30))%Q.
Proof.
  intros Hr Hh Ha. unfold of_int.
  assert (Qa : (0 < inject_Z a)%Q) by now apply of_int_pos.
  assert (Qa1 : (1 <= inject_Z a)%Q) by (change 1%Q with (inject_Z 1); rewrite <- Zle_Qle; lia).
  assert (Ql : (0 <= inject_Z lo)%Q) by (change 0%Q with (inject_Z 0); rewrite <- Zle_Qle; lia).
  assert (Qlh : (inject_Z lo <= inject_Z hi)%Q) by (rewrite <- Zle_Qle; lia).
  assert (Qh : (inject_Z hi * inject_Z hi <= inject_Z (2 ^ 31))%Q).
  { rewrite <- inject_Z_mult, <- Zle_Qle. lia. }
  change (inject_Z (2 ^ 31)) with 2147483648%Q in Qh.
  change (inject_Z (2 ^ 30)) with 1073741824%Q.
  split.
  - apply Qle_shift_div_l; [lra|]. nra.
  - apply Qle_shift_div_r; [lra|]. nra.
Qed.

(** X3. On a block that is not busy, whose stored rates do not exceed a
    nominal rate below 46341 steps/s and whose step count and acceleration fit
    a [long], the committed profile is ordered:
    [0 <= accelerate_until <= decelerate_after <= step_event_count], in the
    trapezoid and in the triangle case. *)
Theorem committed_profile_shape (block : block_t) (entry_factor exit_factor : float) :
  busy block = false ->
  0 <= step_event_count block < 2 ^ 31 ->
  0 <= acceleration_st block < 2 ^ 31 ->
  0 <= initial_rate block <= nominal_rate block ->
  0 <= final_rate block <= nominal_rate block ->
  nominal_rate block * nominal_rate block < 2 ^ 31 ->
  let block' := fst (calculate_trapezoid_for_block block entry_factor exit_factor) in
  0 <= accelerate_until block' /\
  accelerate_until block' <= decelerate_after block' /\
  decelerate_after block' <= step_event_count block'.
Proof.
  intros Hbusy Hn Ha Hi Hf Ht.
  unfold calculate_trapezoid_for_block. rewrite Hbusy.
  cbn [negb fst set_profile accelerate_until decelerate_after step_event_count].
  unfold trapezoid_locals. cbv zeta.
  rewrite (i32_small (acceleration_st block)) by lia.
  set (ea := estimate_acceleration_distance (of_int (initial_rate block))
               (of_int (nominal_rate block)) (of_int (acceleration_st block))).
  set (ed := estimate_acceleration_distance (of_int (nominal_rate block))
               (of_int (final_rate block)) (of_int (- acceleration_st block))).
  assert (Ea : 0 <= ceil ea <= 2 ^ 30).
  { unfold ea, estimate_acceleration_distance.
    destruct (feq (of_int (acceleration_st block)) 0) eqn:E; cbn [negb].
    - change (ceil 0) with 0. lia.
    - assert (0 < acceleration_st block).
      { destruct (Z.eq_dec (acceleration_st block) 0) as [E0|]; [|lia].
        rewrite E0 in E. discriminate E. }
      apply ceil_bounds; apply rate_distance_bounds; lia. }
  assert (Ed : 0 <= floor ed <= 2 ^ 30).
  { unfold ed, estimate_acceleration_distance.
    destruct (feq (of_int (- acceleration_st block)) 0) eqn:E; cbn [negb].
    - change (floor 0) with 0. lia.
    - assert (0 < acceleration_st block).
      { destruct (Z.eq_dec (acceleration_st block) 0) as [E0|]; [|lia].
        rewrite E0 in E. discriminate E. }
      assert (Eq : ((of_int (final_rate block) * of_int (final_rate block)
                     - of_int (nominal_rate block) * of_int (nominal_rate block))
                    / (2 * of_int (- acceleration_st block))
                    == (of_int (nominal_rate block) * of_int (nominal_rate block)
                        - of_int (final_rate block) * of_int (final_rate block))
                       / (2 * of_int (acceleration_st block)))%Q).
      { unfold of_int. rewrite inject_Z_opp. field.
        intros E0. apply (of_int_nonzero (acceleration_st block)); [lia | exact E0]. }
      pose proof (rate_distance_bounds (final_rate block) (nominal_rate block)
                    (acceleration_st block) Hf Ht H) as [B0 B1].
      apply floor_bounds; rewrite Eq; assumption. }
  change (2 ^ 30) with 1073741824 in *. change (2 ^ 31) with 2147483648 in *.
  assert (P31 : 2 ^ 31 = 2147483648) by reflexivity.
  rewrite (i32_small (ceil ea)) by lia.
  rewrite (i32_small (floor ed)) by lia.
  rewrite (i32_small (step_event_count block - ceil ea - floor ed)) by lia.
  destruct (Z.ltb_spec (step_event_count block - ceil ea - floor ed) 0) as [Hneg|Hpos];
    cbn [t_accelerate_steps t_plateau_steps].
  - rewrite Z.add_0_r.
    match goal with
    | |- context [i32 (zmin (u32 (zmax (i32 ?v) 0)) ?n)] =>
      pose proof (clamp_accelerate_steps v n) as Hc
    end.
    rewrite P31 in Hc. specialize (Hc Hn).
    rewrite (i32_small (i32 _)) by lia. lia.
  - rewrite i32_small by lia. lia.
Qed.

Lemma committed_profile_shape_witness :
  let block' := fst (calculate_trapezoid_for_block reused_block (1 # 2) (1 # 2)) in
  0 <= accelerate_until block' /\
  accelerate_until block' <= decelerate_after block' /\
  decelerate_after block' <= step_event_count block'.
Proof.
  apply (committed_profile_shape reused_block (1 # 2) (1 # 2));
    vm_compute; try reflexivity; split; (discriminate || reflexivity).
Defined.

(** ** Look-ahead: invariants *)

Lemma fmin_le_l (a b : float) : (fmin a b <= a)%Q.
Proof.
  unfold fmin. destruct (flt a b) eqn:E; [lra|]. now apply flt_false in E.
Qed.

Lemma fmin_le_r (a b : float) : (fmin a b <= b)%Q.
Proof.
  unfold fmin. destruct (flt a b) eqn:E; [|lra]. apply flt_true in E. lra.
Qed.

(** Whatever the three passes keep of the ring, the look-ahead keeps. *)
Lemma planner_recalculate_invariant (cfg : config) (fsqrt : float -> float)
  (P : (Z -> block_t) -> Prop) :
  (forall p c n buf, P buf -> P (planner_reverse_pass_kernel fsqrt p c n buf)) ->
  (forall p c n buf, P buf -> P (planner_forward_pass_kernel fsqrt p c n buf)) ->
  (forall buf i f1 f2, P buf -> P (clear_recalculate_flag (recalculate_at buf i f1 f2) i)) ->
  forall st st',
    P (block_buffer st) -> planner_recalculate cfg fsqrt st = Some st' ->
    P (block_buffer st').
Proof.
  intros Hrev Hfwd Hcalc st st' H0. unfold planner_recalculate.
  destruct (planner_reverse_pass cfg fsqrt st) as [st1|] eqn:E1; [|discriminate].
  destruct (planner_forward_pass cfg fsqrt st1) as [st2|] eqn:E2; [|discriminate].
  intros E3.
  assert (H1 : P (block_buffer st1)).
  { revert E1. unfold planner_reverse_pass, reverse_pass. destruct (_ >? 3).
    - destruct (reverse_pass_loop _ _ _ _ _ _ _) as [buf|] eqn:E; [|discriminate].
      intros [= <-]. cbn.
      now apply (reverse_pass_loop_invariant cfg P (planner_reverse_pass_kernel fsqrt) Hrev)
        in E.
    - intros [= <-]. exact H0. }
  assert (H2 : P (block_buffer st2)).
  { revert E2. unfold planner_forward_pass.
    destruct (walk_forward _ _ _ _ _ _) as [[[[b0 b1] b2] buf]|] eqn:E; [|discriminate].
    intros [= <-]. cbn. apply Hfwd.
    apply (walk_forward_invariant (fun s : window * (Z -> block_t) => P (snd s))) in E;
      [exact E | | exact H1].
    intros i [[[c0 c1] c2] a] Ha. cbn in *. now apply Hfwd. }
  revert E3. unfold planner_recalculate_trapezoids.
  destruct (walk_forward _ _ _ _ _ _) as [[[current next] buf]|] eqn:E; [|discriminate].
  apply (walk_forward_invariant
           (fun s : option Z * option Z * (Z -> block_t) => P (snd s))) in E;
    [ | | exact H2].
  - cbn in E. destruct next as [n|]; intros [= <-]; cbn; [now apply Hcalc | exact E].
  - intros i [[c0 c1] a] Ha. cbn in *. destruct c1 as [c|]; [|exact Ha].
    destruct (_ || _); [|exact Ha]. cbn. now apply Hcalc.
Qed.

Lemma pointwise_store (R : Z -> block_t -> Prop) (buf : Z -> block_t) (c : Z) (b : block_t) :
  (forall i, R i (buf i)) -> R c b -> forall i, R i (store_block buf c b i).
Proof.
  intros H Hb i. unfold store_block. destruct (Z.eqb_spec i c) as [->|_]; [exact Hb | apply H].
Qed.

Lemma pointwise_recalculate (R : Z -> block_t -> Prop) (buf : Z -> block_t) (c : Z)
  (f1 f2 : float) :
  (forall i b g1 g2, R i b -> R i (fst (calculate_trapezoid_for_block b g1 g2))) ->
  (forall i b, R i b -> R i (set_recalculate_flag b false)) ->
  (forall i, R i (buf i)) ->
  forall i, R i (clear_recalculate_flag (recalculate_at buf c f1 f2) c i).
Proof.
  intros Hcalc Hflag H.
  assert (H1 : forall i, R i (recalculate_at buf c f1 f2 i)).
  { unfold recalculate_at. apply pointwise_store; [exact H|]. apply Hcalc, H. }
  unfold clear_recalculate_flag. apply pointwise_store; [exact H1|]. apply Hflag, H1.
Qed.

(** *** Junction speeds *)

Lemma junction_ok_entry (b : block_t) (v : float) (f : bool) :
  (max_entry_speed b <= nominal_speed b)%Q -> (v <= max_entry_speed b)%Q ->
  junction_ok (set_recalculate_flag (set_entry_speed b v) f).
Proof. intros H1 H2. split; assumption. Qed.

Lemma junction_ok_reverse_kernel (fsqrt : float -> float) (S : Z -> Prop)
  (p c n : option Z) (buf : Z -> block_t) :
  (forall i, S i -> junction_ok (buf i)) ->
  forall i, S i -> junction_ok (planner_reverse_pass_kernel fsqrt p c n buf i).
Proof.
  intros H. unfold planner_reverse_pass_kernel.
  destruct c as [c|]; [|exact H]. destruct n as [n|]; [|exact H].
  destruct (negb (feq _ _)); [|exact H].
  apply (pointwise_store (fun i b => S i -> junction_ok b)); [exact H|].
  intros Hc. destruct (H c Hc) as [_ Hm].
  destruct (_ && _); apply junction_ok_entry; try exact Hm; cbn.
  - apply fmin_le_l.
  - lra.
Qed.

Lemma junction_ok_forward_kernel (fsqrt : float -> float) (S : Z -> Prop)
  (p c n : option Z) (buf : Z -> block_t) :
  (forall i, S i -> junction_ok (buf i)) ->
  forall i, S i -> junction_ok (planner_forward_pass_kernel fsqrt p c n buf i).
Proof.
  intros H. unfold planner_forward_pass_kernel.
  destruct p as [p|]; [|exact H]. destruct c as [c|]; [|exact H].
  destruct (negb (nominal_length_flag _)); [|exact H].
  destruct (flt _ _); [|exact H].
  destruct (negb (feq _ _)); [|exact H].
  apply (pointwise_store (fun i b => S i -> junction_ok b)); [exact H|].
  intros Hc. destruct (H c Hc) as [He Hm].
  apply junction_ok_entry; [exact Hm|].
  pose proof (fmin_le_l (entry_speed (buf c))
                (max_allowable_speed fsqrt (- acceleration (buf p)) (entry_speed (buf p))
                   (millimeters (buf p)))). lra.
Qed.

Lemma junction_ok_calculate (b : block_t) (g1 g2 : float) :
  junction_ok b -> junction_ok (fst (calculate_trapezoid_for_block b g1 g2)).
Proof. unfold calculate_trapezoid_for_block. now destruct (busy b). Qed.

(** The look-ahead keeps invariant 3 on every block that has it. *)
Lemma planner_recalculate_junction_ok (cfg : config) (fsqrt : float -> float)
  (S : Z -> Prop) (st st' : planner) :
  (forall i, S i -> junction_ok (block_buffer st i)) ->
  planner_recalculate cfg fsqrt st = Some st' ->
  forall i, S i -> junction_ok (block_buffer st' i).
Proof.
  apply (planner_recalculate_invariant cfg fsqrt
           (fun buf => forall i, S i -> junction_ok (buf i))).
  - intros p c n buf. apply junction_ok_reverse_kernel.
  - intros p c n buf. apply junction_ok_forward_kernel.
  - intros buf i f1 f2 H.
    apply (pointwise_recalculate (fun i b => S i -> junction_ok b)); [| |exact H].
    + intros j b g1 g2 Hb Hj. apply junction_ok_calculate, Hb, Hj.
    + intros j b Hb Hj. exact (Hb Hj).
Qed.

(** *** The forward pass only lowers entry speeds *)

(** X4. The forward pass never raises an entry speed and never writes a
    [max_entry_speed]. *)
Theorem forward_pass_never_raises (cfg : config) (fsqrt : float -> float)
  (st st' : planner) :
  planner_forward_pass cfg fsqrt st = Some st' ->
  forall i,
    (entry_speed (block_buffer st' i) <= entry_speed (block_buffer st i))%Q /\
    max_entry_speed (block_buffer st' i) = max_entry_speed (block_buffer st i).
Proof.
  set (R := fun (i : Z) (b : block_t) =>
              (entry_speed b <= entry_speed (block_buffer st i))%Q /\
              max_entry_speed b = max_entry_speed (block_buffer st i)).
  set (P := fun buf : Z -> block_t => forall i, R i (buf i)).
  assert (Hk : forall p c n buf, P buf -> P (planner_forward_pass_kernel fsqrt p c n buf)).
  { intros p c n buf H. unfold planner_forward_pass_kernel.
    destruct p as [p|]; [|exact H]. destruct c as [c|]; [|exact H].
    destruct (negb (nominal_length_flag _)); [|exact H].
    destruct (flt _ _); [|exact H].
    destruct (negb (feq _ _)); [|exact H].
    refine (pointwise_store R buf c _ H _).
    destruct (H c) as [He Hm]. split; [|exact Hm]. cbn.
    pose proof (fmin_le_l (entry_speed (buf c))
                  (max_allowable_speed fsqrt (- acceleration (buf p)) (entry_speed (buf p))
                     (millimeters (buf p)))). lra. }
  unfold planner_forward_pass.
  destruct (walk_forward _ _ _ _ _ _) as [[[[b0 b1] b2] buf]|] eqn:E; [|discriminate].
  intros [= <-]. cbn. apply Hk.
  apply (walk_forward_invariant (fun s : window * (Z -> block_t) => P (snd s))) in E;
    [exact E | | intros i; split; [apply Qle_refl | reflexivity]].
  intros i [[[c0 c1] c2] a] Ha. cbn in *. now apply Hk.
Qed.

(** *** Claimed blocks *)

Lemma busy_frozen_block (b0 b : block_t) (g1 g2 : float) :
  busy b = true /\ profile_of b = profile_of b0 ->
  busy (fst (calculate_trapezoid_for_block b g1 g2)) = true /\
  profile_of (fst (calculate_trapezoid_for_block b g1 g2)) = profile_of b0.
Proof.
  intros [Hb Hp]. unfold calculate_trapezoid_for_block. rewrite Hb. cbn. now split.
Qed.

(** What the look-ahead keeps of a claimed block, as one tuple. *)
Lemma planner_recalculate_keeps_claimed (cfg : config) (fsqrt : float -> float)
  (st st' : planner) :
  planner_recalculate cfg fsqrt st = Some st' ->
  forall i,
    busy (block_buffer st i) = true ->
    busy (block_buffer st' i) = true /\
    profile_of (block_buffer st' i) = profile_of (block_buffer st i).
Proof.
  intros E.
  set (R := fun (i : Z) (b : block_t) =>
              busy (block_buffer st i) = true ->
              busy b = true /\ profile_of b = profile_of (block_buffer st i)).
  assert (H : forall i, R i (block_buffer st' i)).
  { revert E. apply (planner_recalculate_invariant cfg fsqrt (fun buf => forall i, R i (buf i))).
    - intros p c n buf H. unfold planner_reverse_pass_kernel.
      destruct c as [c|]; [|exact H]. destruct n as [n|]; [|exact H].
      destruct (negb (feq _ _)); [|exact H].
      refine (pointwise_store R buf c _ H _).
      intros Hc. destruct (H c Hc) as [Hb Hp]. now destruct (_ && _).
    - intros p c n buf H. unfold planner_forward_pass_kernel.
      destruct p as [p|]; [|exact H]. destruct c as [c|]; [|exact H].
      destruct (negb (nominal_length_flag _)); [|exact H].
      destruct (flt _ _); [|exact H].
      destruct (negb (feq _ _)); [|exact H].
      refine (pointwise_store R buf c _ H _).
      intros Hc. exact (H c Hc).
    - intros buf i f1 f2 H. refine (pointwise_recalculate R buf i f1 f2 _ _ H).
      + intros j b g1 g2 Hb Hj. apply busy_frozen_block, Hb, Hj.
      + intros j b Hb Hj. exact (Hb Hj).
    - intros i Hi. now split. }
  intros i Hi. exact (H i Hi).
Qed.

(** X5. The look-ahead leaves a block the stepper has claimed (busy) as it
    is to the stepper: it stays busy and keeps [accelerate_until],
    [decelerate_after], [initial_rate] and [final_rate], through the three
    passes of [planner_recalculate]. *)
Theorem look_ahead_keeps_claimed_profiles (cfg : config) (fsqrt : float -> float)
  (st st' : planner) :
  planner_recalculate cfg fsqrt st = Some st' ->
  forall i,
    busy (block_buffer st i) = true ->
    busy (block_buffer st' i) = true /\
    accelerate_until (block_buffer st' i) = accelerate_until (block_buffer st i) /\
    decelerate_after (block_buffer st' i) = decelerate_after (block_buffer st i) /\
    initial_rate (block_buffer st' i) = initial_rate (block_buffer st i) /\
    final_rate (block_buffer st' i) = final_rate (block_buffer st i).
Proof.
  intros E i Hi.
  destruct (planner_recalculate_keeps_claimed cfg fsqrt st st' E i Hi) as [Hb Hp].
  unfold profile_of in Hp. injection Hp as H1 H2 H3 H4. repeat split; assumption.
Qed.

(** ** Block builder: how a call ends *)

Section Inversion.

Variable cfg : config.
Variable fsqrt : float -> float.
Variable st : planner.
Variables x y z e feed_rate : float.
Variable extruder : Z.
Variable safe_speed_uninit : float.

Local Abbreviation call :=
  (plan_buffer_line cfg fsqrt st x y z e feed_rate extruder safe_speed_uninit).

Lemma waiting_inversion : call = Some Waiting <-> block_buffer_tail st = next_buffer_head cfg st.
Proof.
  unfold plan_buffer_line.
  destruct (Z.eqb_spec (block_buffer_tail st) (next_buffer_head cfg st)) as [E|E].
  - split; auto.
  - split; [|contradiction]. destruct (_ <=? _); [discriminate|].
    destruct (planner_recalculate _ _ _); discriminate.
Qed.

Lemma dropped_inversion (st' : planner) :
  call = Some (Dropped st') ->
  block_buffer_tail st <> next_buffer_head cfg st /\
  block_step_event_count cfg st x y z e extruder <= dropsegments cfg /\
  st' = set_position
          (set_block_buffer st
             (store_block (block_buffer st) (block_buffer_head st)
                (dropped_block cfg st x y z e extruder)))
          (rescaled_position cfg st extruder).
Proof.
  unfold plan_buffer_line.
  destruct (Z.eqb_spec (block_buffer_tail st) (next_buffer_head cfg st)) as [E|E];
    [discriminate|].
  destruct (Z.leb_spec (block_step_event_count cfg st x y z e extruder) (dropsegments cfg)).
  - intros [= <-]. auto.
  - destruct (planner_recalculate _ _ _); discriminate.
Qed.

Lemma queued_inversion (st' : planner) :
  call = Some (Queued st') ->
  block_buffer_tail st <> next_buffer_head cfg st /\
  dropsegments cfg < block_step_event_count cfg st x y z e extruder /\
  planner_recalculate cfg fsqrt
    (committed cfg fsqrt st x y z e feed_rate extruder safe_speed_uninit) = Some st'.
Proof.
  unfold plan_buffer_line.
  destruct (Z.eqb_spec (block_buffer_tail st) (next_buffer_head cfg st)) as [E|E];
    [discriminate|].
  destruct (Z.leb_spec (block_step_event_count cfg st x y z e extruder) (dropsegments cfg)).
  - discriminate.
  - destruct (planner_recalculate _ _ _) as [st1|]; [|discriminate].
    intros [= <-]. auto.
Qed.

Lemma drops_when_short :
  block_buffer_tail st <> next_buffer_head cfg st ->
  block_step_event_count cfg st x y z e extruder <= dropsegments cfg ->
  call = Some (Dropped
                 (set_position
                    (set_block_buffer st
                       (store_block (block_buffer st) (block_buffer_head st)
                          (dropped_block cfg st x y z e extruder)))
                    (rescaled_position cfg st extruder))).
Proof.
  intros Hroom Hshort. unfold plan_buffer_line.
  destruct (Z.eqb_spec (block_buffer_tail st) (next_buffer_head cfg st)) as [|_];
    [contradiction|].
  destruct (Z.leb_spec (block_step_event_count cfg st x y z e extruder) (dropsegments cfg));
    [reflexivity | lia].
Qed.

(** A target that quantises to the current position gives no steps. *)
Lemma no_steps_at_position :
  target cfg x y z e extruder = rescaled_position cfg st extruder ->
  block_step_event_count cfg st x y z e extruder = 0.
Proof.
  intros E. unfold block_step_event_count, block_steps_x, block_steps_y, block_steps_z,
    block_steps_e, delta_steps. rewrite E. cbn [ax_x ax_y ax_z ax_e].
  rewrite !Z.sub_diag. reflexivity.
Qed.

End Inversion.

(** ** Queue depth *)

Lemma movesplanned_mod (cfg : config) (st : planner) :
  ring_ok cfg ->
  movesplanned cfg st
  = (block_buffer_head st - block_buffer_tail st) mod BLOCK_BUFFER_SIZE cfg.
Proof.
  intros Hring. pose proof (ring_size cfg Hring) as HN. unfold movesplanned.
  rewrite (depth_mod cfg Hring).
  pose proof (Z.mod_pos_bound (block_buffer_head st - block_buffer_tail st)
                (BLOCK_BUFFER_SIZE cfg) ltac:(lia)).
  apply u8_small. lia.
Qed.

Lemma full_ring (cfg : config) (st : planner) :
  ring_ok cfg -> in_ring cfg (block_buffer_head st) -> in_ring cfg (block_buffer_tail st) ->
  (block_buffer_tail st = next_buffer_head cfg st <->
   movesplanned cfg st = BLOCK_BUFFER_SIZE cfg - 1) /\
  (block_buffer_tail st <> next_buffer_head cfg st ->
   (next_buffer_head cfg st - block_buffer_tail st) mod BLOCK_BUFFER_SIZE cfg
   = movesplanned cfg st + 1).
Proof.
  intros Hring Hh Ht. pose proof (ring_size cfg Hring) as HN.
  rewrite (movesplanned_mod cfg st Hring). unfold next_buffer_head.
  rewrite (next_block_index_mod cfg Hring _ Hh).
  set (N := BLOCK_BUFFER_SIZE cfg) in *. set (h := block_buffer_head st) in *.
  set (t := block_buffer_tail st) in *. unfold in_ring in Hh, Ht. fold N in Hh, Ht.
  pose proof (Z.mod_pos_bound (h - t) N ltac:(lia)) as Hd.
  pose proof (Z.div_mod (h - t) N ltac:(lia)) as Hdm.
  assert (Hnext : ((h + 1) mod N - t) mod N = ((h - t) mod N + 1) mod N).
  { rewrite Zminus_mod_idemp_l, Zplus_mod_idemp_l. f_equal. lia. }
  assert (Hiff : t = (h + 1) mod N <-> (h - t) mod N = N - 1).
  { split.
    - intros E. rewrite E at 1. rewrite Zminus_mod_idemp_r.
      replace (h - (h + 1)) with (-1 * N + (N - 1)) by lia.
      rewrite Z.add_comm, Z.mod_add by lia. apply Z.mod_small. lia.
    - intros E. symmetry. apply (mod_zero_eq _ _ N); [apply Z.mod_pos_bound; lia | lia |].
      rewrite Hnext, E. replace (N - 1 + 1) with N by lia. apply Z.mod_same. lia. }
  split; [exact Hiff|].
  intros Hne. rewrite Hnext. apply Z.mod_small.
  assert ((h - t) mod N <> N - 1) by (intros E; apply Hne, Hiff, E). lia.
Qed.

(** X6. A call waits exactly when [movesplanned] is at the capacity less
    one; a dropped move keeps the depth of the queue, a queued move raises it
    by one, never beyond the capacity less one. *)
Theorem queue_depth_of_outcome (cfg : config) (fsqrt : float -> float) (st : planner)
  (x y z e feed_rate : float) (extruder : Z) (safe_speed_uninit : float) :
  ring_ok cfg -> in_ring cfg (block_buffer_head st) -> in_ring cfg (block_buffer_tail st) ->
  (plan_buffer_line cfg fsqrt st x y z e feed_rate extruder safe_speed_uninit = Some Waiting
   <-> movesplanned cfg st = BLOCK_BUFFER_SIZE cfg - 1) /\
  (forall st',
     plan_buffer_line cfg fsqrt st x y z e feed_rate extruder safe_speed_uninit
     = Some (Dropped st') -> movesplanned cfg st' = movesplanned cfg st) /\
  (forall st',
     plan_buffer_line cfg fsqrt st x y z e feed_rate extruder safe_speed_uninit
     = Some (Queued st') ->
     movesplanned cfg st' = movesplanned cfg st + 1 /\
     movesplanned cfg st' <= BLOCK_BUFFER_SIZE cfg - 1).
Proof.
  intros Hring Hh Ht. pose proof (ring_size cfg Hring) as HN.
  destruct (full_ring cfg st Hring Hh Ht) as [Hfull Hroom].
  split; [|split].
  - rewrite waiting_inversion. exact Hfull.
  - intros st' E. apply dropped_inversion in E. destruct E as (_ & _ & ->). reflexivity.
  - intros st' E. apply queued_inversion in E. destruct E as (Hne & _ & E).
    apply queued_state in E. destruct E as (Eh & Et & _).
    destruct (next_head_in_ring cfg st Hring Hh) as (En & _).
    assert (Ed : movesplanned cfg st' = movesplanned cfg st + 1).
    { rewrite (movesplanned_mod cfg st' Hring), Eh, Et, En. apply (Hroom Hne). }
    split; [exact Ed|].
    rewrite (movesplanned_mod cfg st' Hring).
    pose proof (Z.mod_pos_bound (block_buffer_head st' - block_buffer_tail st')
                  (BLOCK_BUFFER_SIZE cfg) ltac:(lia)). lia.
Qed.

(** ** Block builder: what a call leaves to the stepper *)

(** X7. A call that returns, dropping or queueing its move, never moves the
    tail, never changes [fanSpeed], and leaves to every busy block outside
    the slot at the head its busy flag and its committed profile. *)
Theorem builder_keeps_stepper_side (cfg : config) (fsqrt : float -> float) (st : planner)
  (x y z e feed_rate : float) (extruder : Z) (safe_speed_uninit : float) (st' : planner) :
  plan_buffer_line cfg fsqrt st x y z e feed_rate extruder safe_speed_uninit
  = Some (Dropped st') \/
  plan_buffer_line cfg fsqrt st x y z e feed_rate extruder safe_speed_uninit
  = Some (Queued st') ->
  block_buffer_tail st' = block_buffer_tail st /\
  fanSpeed st' = fanSpeed st /\
  forall i,
    i <> block_buffer_head st -> busy (block_buffer st i) = true ->
    busy (block_buffer st' i) = true /\
    accelerate_until (block_buffer st' i) = accelerate_until (block_buffer st i) /\
    decelerate_after (block_buffer st' i) = decelerate_after (block_buffer st i) /\
    initial_rate (block_buffer st' i) = initial_rate (block_buffer st i) /\
    final_rate (block_buffer st' i) = final_rate (block_buffer st i).
Proof.
  intros [E|E].
  - apply dropped_inversion in E. destruct E as (_ & _ & ->).
    split; [reflexivity|]. split; [reflexivity|].
    intros i Hi Hb. cbn [set_position set_block_buffer block_buffer]. unfold store_block.
    destruct (Z.eqb_spec i (block_buffer_head st)); [contradiction|]. auto.
  - apply queued_inversion in E. destruct E as (_ & _ & E).
    pose proof (planner_recalculate_keeps cfg fsqrt _ _ E) as (_ & Hr & Hf).
    pose proof (planner_recalculate_keeps_claimed cfg fsqrt _ _ E) as Hp.
    split; [exact (f_equal (fun r => snd (fst (fst (fst (fst (fst r)))))) Hr)|].
    split; [exact Hf|].
    intros i Hi Hb. specialize (Hp i).
    change (block_buffer (committed cfg fsqrt st x y z e feed_rate extruder safe_speed_uninit) i)
      with (store_block (block_buffer st) (block_buffer_head st)
              (new_block cfg fsqrt st x y z e feed_rate extruder safe_speed_uninit) i) in Hp.
    unfold store_block in Hp.
    destruct (Z.eqb_spec i (block_buffer_head st)); [contradiction|].
    destruct (Hp Hb) as [Hb' Hq]. unfold profile_of in Hq.
    injection Hq as H1 H2 H3 H4. repeat split; assumption.
Qed.

(** ** Block builder: round trips *)

(** X8. After [plan_set_position] to a point, a move to the same point on
    the active extruder is dropped: nothing is queued and the position is
    kept, with the junction memory at rest. *)
Theorem set_position_round_trip (cfg : config) (fsqrt : float -> float) (st : planner)
  (x y z e feed_rate : float) (safe_speed_uninit : float) :
  0 <= dropsegments cfg -> 0 <= ACTIVE_EXTRUDER cfg < 256 ->
  let st1 := plan_set_position cfg st x y z e in
  block_buffer_tail st <> next_buffer_head cfg st ->
  exists st2,
    plan_buffer_line cfg fsqrt st1 x y z e feed_rate (ACTIVE_EXTRUDER cfg) safe_speed_uninit
    = Some (Dropped st2) /\
    position st2 = position st1 /\ block_buffer_head st2 = block_buffer_head st /\
    previous_nominal_speed st2 = 0%Q.
Proof.
  intros Hdrop Ha st1 Hroom.
  assert (Hl : last_extruder st1 = ACTIVE_EXTRUDER cfg) by (apply u8_small; exact Ha).
  assert (Hp : rescaled_position cfg st1 (ACTIVE_EXTRUDER cfg) = position st1).
  { apply rescaled_position_same_extruder. left. exact Hl. }
  assert (Ht : target cfg x y z e (ACTIVE_EXTRUDER cfg)
               = rescaled_position cfg st1 (ACTIVE_EXTRUDER cfg)).
  { rewrite Hp. reflexivity. }
  eexists. split.
  - apply drops_when_short; [exact Hroom|].
    rewrite (no_steps_at_position cfg st1 x y z e (ACTIVE_EXTRUDER cfg) Ht). exact Hdrop.
  - cbn [set_position set_block_buffer position block_buffer_head previous_nominal_speed].
    split; [exact Hp|]. split; reflexivity.
Qed.

(** X9. Once a move on the planner's extruder is queued, a second call to
    the same target queues nothing: it waits on a full ring or is dropped,
    keeping position, head and junction memory. *)
Theorem repeated_call_is_dropped (cfg : config) (fsqrt : float -> float) (st : planner)
  (x y z e feed_rate feed_rate' : float) (extruder : Z) (u u' : float) (st1 : planner) :
  0 <= dropsegments cfg ->
  last_extruder st = extruder ->
  plan_buffer_line cfg fsqrt st x y z e feed_rate extruder u = Some (Queued st1) ->
  plan_buffer_line cfg fsqrt st1 x y z e feed_rate' extruder u' = Some Waiting \/
  exists st2,
    plan_buffer_line cfg fsqrt st1 x y z e feed_rate' extruder u' = Some (Dropped st2) /\
    position st2 = position st1 /\
    block_buffer_head st2 = block_buffer_head st1 /\
    previous_speed st2 = previous_speed st1 /\
    previous_nominal_speed st2 = previous_nominal_speed st1.
Proof.
  intros Hdrop Hl E.
  pose proof (plan_buffer_line_keeps_last_extruder cfg fsqrt st x y z e feed_rate extruder u
                st1 (or_intror E)) as Hl1.
  apply queued_inversion in E. destruct E as (_ & _ & E).
  apply queued_state in E. destruct E as (_ & _ & Ep & _).
  assert (Hp : rescaled_position cfg st1 extruder = position st1).
  { apply rescaled_position_same_extruder. left. congruence. }
  destruct (Z.eq_dec (block_buffer_tail st1) (next_buffer_head cfg st1)) as [Hfull|Hroom].
  - left. now apply waiting_inversion.
  - right. eexists. split.
    + apply drops_when_short; [exact Hroom|].
      rewrite (no_steps_at_position cfg st1 x y z e extruder); [exact Hdrop|]. congruence.
    + cbn [set_position set_block_buffer position block_buffer_head previous_speed
           previous_nominal_speed].
      split; [exact Hp|]. repeat split.
Qed.

(** ** Block builder: the queued block *)

Lemma static_fields_more (a b : block_t) :
  static_part a = static_part b ->
  steps_x a = steps_x b /\ steps_y a = steps_y b /\ steps_z a = steps_z b /\
  steps_e a = steps_e b /\ step_event_count a = step_event_count b /\
  direction_bits a = direction_bits b /\ acceleration_st a = acceleration_st b /\
  max_entry_speed a = max_entry_speed b /\ nominal_rate a = nominal_rate b /\
  busy a = busy b.
Proof. unfold static_part. intros [= ]. repeat split; assumption. Qed.

Lemma direction_bits_spec (cfg : config) (st : planner) (x y z e : float) (extruder : Z) :
  let t := target cfg x y z e extruder in
  let p := rescaled_position cfg st extruder in
  let bits := block_direction_bits cfg st x y z e extruder in
  Z.testbit bits X_AXIS = (ax_x t <? ax_x p) /\
  Z.testbit bits Y_AXIS = (ax_y t <? ax_y p) /\
  Z.testbit bits Z_AXIS = (ax_z t <? ax_z p) /\
  Z.testbit bits E_AXIS = (ax_e t <? ax_e p) /\
  0 <= bits < 16.
Proof.
  cbv zeta. unfold block_direction_bits. cbv zeta.
  destruct (ax_x _ <? ax_x _), (ax_y _ <? ax_y _), (ax_z _ <? ax_z _), (ax_e _ <? ax_e _);
    vm_compute; repeat split; (discriminate || reflexivity).
Qed.

(** X10. The direction bits of a queued block: bit [i] is set exactly when
    the axis moves backwards, from the position to the new position, the E
    bit against the rescaled E position; no other bit is set. *)
Theorem queued_direction_bits (cfg : config) (fsqrt : float -> float) (st : planner)
  (x y z e feed_rate : float) (extruder : Z) (safe_speed_uninit : float) (st' : planner) :
  plan_buffer_line cfg fsqrt st x y z e feed_rate extruder safe_speed_uninit
  = Some (Queued st') ->
  let b := block_buffer st' (block_buffer_head st) in
  let t := position st' in
  let p := rescaled_position cfg st extruder in
  Z.testbit (direction_bits b) X_AXIS = (ax_x t <? ax_x (position st)) /\
  Z.testbit (direction_bits b) Y_AXIS = (ax_y t <? ax_y (position st)) /\
  Z.testbit (direction_bits b) Z_AXIS = (ax_z t <? ax_z (position st)) /\
  Z.testbit (direction_bits b) E_AXIS = (ax_e t <? ax_e p) /\
  0 <= direction_bits b < 16.
Proof.
  intros E. apply queued_inversion in E. destruct E as (_ & _ & E).
  apply queued_state in E. destruct E as (_ & _ & Ep & Es & _).
  apply static_fields_more in Es. destruct Es as (_ & _ & _ & _ & _ & Ed & _).
  cbv zeta. rewrite Ed, Ep.
  change (direction_bits (prepared_block cfg fsqrt st x y z e feed_rate extruder))
    with (block_direction_bits cfg st x y z e extruder).
  destruct (rescaled_position_xyz cfg st extruder) as (Ex & Ey & Ez).
  rewrite <- Ex, <- Ey, <- Ez. apply direction_bits_spec.
Qed.

Lemma le_u32_max (m s : Z) : s <= m -> m < 2 ^ 31 -> s <= u32 m.
Proof.
  intros Hs Hm. change (2 ^ 31) with 2147483648 in Hm.
  destruct (Z_lt_le_dec m 0) as [Hneg|Hpos].
  - pose proof (Z.mod_pos_bound m (2 ^ 32) eq_refl). unfold u32, wrap_unsigned. lia.
  - rewrite u32_small; [lia|]. change (2 ^ 32) with 4294967296. lia.
Qed.

Lemma step_counts_dominated (cfg : config) (st : planner) (x y z e : float) (extruder : Z) :
  let n := block_step_event_count cfg st x y z e extruder in
  block_steps_x cfg st x y z e extruder <= n /\
  block_steps_y cfg st x y z e extruder <= n /\
  block_steps_z cfg st x y z e extruder <= n /\
  block_steps_e cfg st x y z e extruder <= n.
Proof.
  cbv zeta. unfold block_step_event_count.
  assert (Hx : block_steps_x cfg st x y z e extruder < 2 ^ 31) by apply i32_range.
  assert (Hy : block_steps_y cfg st x y z e extruder < 2 ^ 31) by apply i32_range.
  assert (Hz : block_steps_z cfg st x y z e extruder < 2 ^ 31) by apply i32_range.
  assert (He : block_steps_e cfg st x y z e extruder < 2 ^ 31) by apply i32_range.
  set (sx := block_steps_x cfg st x y z e extruder) in *.
  set (sy := block_steps_y cfg st x y z e extruder) in *.
  set (sz := block_steps_z cfg st x y z e extruder) in *.
  set (se := block_steps_e cfg st x y z e extruder) in *.
  assert (Hm : sx <= zmax sx (zmax sy (zmax sz se)) /\ sy <= zmax sx (zmax sy (zmax sz se))
               /\ sz <= zmax sx (zmax sy (zmax sz se))
               /\ se <= zmax sx (zmax sy (zmax sz se))
               /\ zmax sx (zmax sy (zmax sz se)) < 2 ^ 31).
  { unfold zmax.
    destruct (Z.gtb_spec sz se);
      match goal with |- context [sy >? ?b] => destruct (Z.gtb_spec sy b) end;
      match goal with |- context [sx >? ?b] => destruct (Z.gtb_spec sx b) end; lia. }
  destruct Hm as (Mx & My & Mz & Me & Mr).
  repeat split; apply le_u32_max; assumption.
Qed.

(** X11. A queued block is longer than the drop threshold, none of its axes
    steps more often than [step_event_count], it is published not busy, and
    the step counts of the other slots are untouched. *)
Theorem queued_step_counts (cfg : config) (fsqrt : float -> float) (st : planner)
  (x y z e feed_rate : float) (extruder : Z) (safe_speed_uninit : float) (st' : planner) :
  plan_buffer_line cfg fsqrt st x y z e feed_rate extruder safe_speed_uninit
  = Some (Queued st') ->
  (let b := block_buffer st' (block_buffer_head st) in
   dropsegments cfg < step_event_count b /\
   steps_x b <= step_event_count b /\ steps_y b <= step_event_count b /\
   steps_z b <= step_event_count b /\ steps_e b <= step_event_count b /\
   busy b = false) /\
  forall i, i <> block_buffer_head st ->
            step_event_count (block_buffer st' i) = step_event_count (block_buffer st i).
Proof.
  intros E. apply queued_inversion in E. destruct E as (_ & Hlong & E).
  apply queued_state in E. destruct E as (_ & _ & _ & Es & Eo).
  apply static_fields_more in Es.
  destruct Es as (Ex & Ey & Ez & Ee & En & _ & _ & _ & _ & Eb).
  split.
  - cbv zeta. rewrite Ex, Ey, Ez, Ee, En, Eb.
    destruct (step_counts_dominated cfg st x y z e extruder) as (Dx & Dy & Dz & De).
    repeat split; assumption.
  - intros i Hi. specialize (Eo i Hi). apply static_fields_more in Eo.
    now destruct Eo as (_ & _ & _ & _ & Eo & _).
Qed.

(** ** Block builder: junction speeds of the new block *)

Section Junction.

Variable cfg : config.
Variable fsqrt : float -> float.
Variable st : planner.
Variables x y z e feed_rate : float.
Variable extruder : Z.

Hypothesis Hnominal : (0 < block_nominal_speed cfg fsqrt st x y z e feed_rate extruder)%Q.
Hypothesis Hjerk : (0 <= max_xy_jerk cfg)%Q.

Lemma vmax_junction_le_nominal :
  (vmax_junction cfg fsqrt st x y z e feed_rate extruder
   <= block_nominal_speed cfg fsqrt st x y z e feed_rate extruder)%Q.
Proof.
  unfold vmax_junction. destruct (_ && _).
  - cbv zeta.
    set (nominal := block_nominal_speed cfg fsqrt st x y z e feed_rate extruder) in *.
    set (jerk := fsqrt _).
    set (dz := fabs (ax_z (current_speed cfg fsqrt st x y z e feed_rate extruder)
                     - ax_z (previous_speed st))).
    set (de := fabs (ax_e (current_speed cfg fsqrt st x y z e feed_rate extruder)
                     - ax_e (previous_speed st))).
    assert (Ha : ((if fgt jerk (max_xy_jerk cfg) then max_xy_jerk cfg / jerk else 1) <= 1)%Q).
    { destruct (fgt jerk (max_xy_jerk cfg)) eqn:E; [|lra].
      apply fgt_true in E. apply Qle_shift_div_r; lra. }
    set (a := if fgt jerk (max_xy_jerk cfg) then _ else _) in *.
    match goal with |- (fmin _ (nominal * ?f) <= _)%Q => set (f3 := f) end.
    assert (H3 : (f3 <= 1)%Q).
    { unfold f3. destruct (fgt (de + COMP_SPEED) _); destruct (fgt dz _);
        repeat (eapply Qle_trans; [apply fmin_le_l|]); exact Ha. }
    match goal with |- (fmin ?p ?q <= _)%Q => pose proof (fmin_le_r p q) end.
    nra.
  - unfold inner_safe_speed. cbv zeta. apply fmin_le_r.
Qed.

Lemma prepared_block_junction_ok :
  junction_ok (prepared_block cfg fsqrt st x y z e feed_rate extruder).
Proof.
  unfold junction_ok, prepared_block. cbn [entry_speed max_entry_speed nominal_speed].
  unfold block_entry_speed, block_max_entry_speed.
  destruct (no_move cfg st x y z e extruder).
  - split; [lra | apply fmin_le_r].
  - split; [apply fmin_le_l | apply vmax_junction_le_nominal].
Qed.

End Junction.

(** X12. With a jerk limit that is not negative, a queued block has
    [entry_speed <= max_entry_speed <= nominal_speed], and the call keeps
    this order on every block that had it. *)
Theorem queued_junction_speeds (cfg : config) (fsqrt : float -> float) (st : planner)
  (x y z e feed_rate : float) (extruder : Z) (safe_speed_uninit : float) (st' : planner) :
  ring_ok cfg -> sane_axes cfg extruder -> sane_slowdown cfg -> sqrt_positive fsqrt ->
  (0 < feed_rate)%Q -> (0 <= max_xy_jerk cfg)%Q ->
  plan_buffer_line cfg fsqrt st x y z e feed_rate extruder safe_speed_uninit
  = Some (Queued st') ->
  junction_ok (block_buffer st' (block_buffer_head st)) /\
  forall i, junction_ok (block_buffer st i) -> junction_ok (block_buffer st' i).
Proof.
  intros Hring Hax Hslow Hsqrt Hfeed Hjerk E.
  apply queued_inversion in E. destruct E as (_ & Hlong & E).
  pose proof (block_nominal_speed_pos cfg fsqrt st x y z e feed_rate extruder
                Hax Hsqrt Hslow Hring Hfeed Hlong) as Hnom.
  pose proof (prepared_block_junction_ok cfg fsqrt st x y z e feed_rate extruder Hnom Hjerk)
    as Hnew.
  assert (H : forall i, i = block_buffer_head st \/ junction_ok (block_buffer st i) ->
                        junction_ok (block_buffer st' i)).
  { apply (planner_recalculate_junction_ok cfg fsqrt _ _ _) with (2 := E).
    intros i Hi.
    change (block_buffer (committed cfg fsqrt st x y z e feed_rate extruder safe_speed_uninit) i)
      with (store_block (block_buffer st) (block_buffer_head st)
              (new_block cfg fsqrt st x y z e feed_rate extruder safe_speed_uninit) i).
    unfold store_block. destruct (Z.eqb_spec i (block_buffer_head st)) as [->|Hne].
    - unfold new_block. now apply junction_ok_calculate.
    - destruct Hi as [Hi|Hi]; [contradiction | exact Hi]. }
  split; [apply H; now left | intros i Hi; apply H; now right].
Qed.

(** ** Forward walks in closed form *)

Section Walk.

Variable cfg : config.
Hypothesis Hring : ring_ok cfg.

Local Abbreviation N := (BLOCK_BUFFER_SIZE cfg).

Lemma ring_up_cons (i : Z) (n : nat) :
  ring_up cfg i (S n) = i mod N :: ring_up cfg (i + 1) n.
Proof.
  unfold ring_up. cbn [seq map]. rewrite Z.add_0_r. f_equal.
  rewrite <- seq_shift, map_map. apply map_ext. intros k. f_equal. lia.
Qed.

Lemma ring_up_mod (i : Z) (n : nat) : ring_up cfg (i mod N) n = ring_up cfg i n.
Proof.
  unfold ring_up. apply map_ext. intros k. now rewrite Zplus_mod_idemp_l.
Qed.

Lemma ring_up_snoc (i : Z) (n : nat) :
  ring_up cfg i (S n) = ring_up cfg i n ++ [(i + Z.of_nat n) mod N].
Proof. unfold ring_up. now rewrite seq_S, map_app. Qed.

Lemma in_ring_up (i j : Z) (n : nat) : In j (ring_up cfg i n) -> in_ring cfg j.
Proof.
  unfold ring_up. rewrite in_map_iff. intros (k & <- & _). apply (mod_in_ring cfg Hring).
Qed.

Lemma walk_forward_unfold {A : Type} (advance : Z -> Z) (body : Z -> A -> A) (head : Z) :
  in_ring cfg head ->
  (forall i, in_ring cfg i -> advance i = (i + 1) mod N) ->
  forall fuel i a,
    in_ring cfg i -> (Z.to_nat ((head - i) mod N) < fuel)%nat ->
    walk_forward advance body fuel head i a =
    Some (fold_left (fun a j => body j a) (ring_up cfg i (Z.to_nat ((head - i) mod N))) a).
Proof.
  pose proof (ring_size cfg Hring) as HN.
  intros Hh Hadv. induction fuel as [|fuel IH]; intros i a Hi Hfuel; [lia|].
  cbn [walk_forward]. destruct (Z.eqb_spec i head) as [E|E]; cbn [negb].
  - subst i. rewrite Z.sub_diag, Z.mod_0_l by lia. reflexivity.
  - destruct (step_forward_distance cfg Hring head i Hh Hi E) as [Hd H1].
    rewrite (Hadv i Hi), IH; [|apply (mod_in_ring cfg Hring)|rewrite Hd; lia].
    rewrite Hd.
    replace (Z.to_nat ((head - i) mod N)) with (S (Z.to_nat ((head - i) mod N - 1))) by lia.
    rewrite ring_up_cons. cbn [fold_left].
    rewrite (Z.mod_small i) by (unfold in_ring in Hi; lia).
    now rewrite ring_up_mod.
Qed.

Lemma queued_blocks_spec (st : planner) :
  queued_blocks cfg st =
  ring_up cfg (block_buffer_tail st)
    (Z.to_nat ((block_buffer_head st - block_buffer_tail st) mod N)).
Proof. unfold queued_blocks. now rewrite (movesplanned_mod cfg st Hring). Qed.

(** The scan of a queue visits its blocks from the tail on. *)
Lemma walk_queue {A : Type} (advance : Z -> Z) (body : Z -> A -> A) (st : planner) (a : A) :
  in_ring cfg (block_buffer_head st) -> in_ring cfg (block_buffer_tail st) ->
  (forall i, in_ring cfg i -> advance i = (i + 1) mod N) ->
  walk_forward advance body (ring_fuel cfg) (block_buffer_head st) (block_buffer_tail st) a =
  Some (fold_left (fun a j => body j a) (queued_blocks cfg st) a).
Proof.
  pose proof (ring_size cfg Hring) as HN.
  intros Hh Ht Hadv. rewrite queued_blocks_spec.
  apply walk_forward_unfold; try assumption.
  apply ring_fuel_enough. apply Z.mod_pos_bound. lia.
Qed.

Lemma queued_blocks_in_ring (st : planner) (j : Z) :
  In j (queued_blocks cfg st) -> in_ring cfg j.
Proof. apply in_ring_up. Qed.


End Walk.

(** ** The trapezoid pass over the queue *)

Lemma store_block_same (buf : Z -> block_t) (i : Z) (b : block_t) : store_block buf i b i = b.
Proof. unfold store_block. now rewrite Z.eqb_refl. Qed.

Lemma store_block_other (buf : Z -> block_t) (i j : Z) (b : block_t) :
  j <> i -> store_block buf i b j = buf j.
Proof. intros H. unfold store_block. now destruct (Z.eqb_spec j i). Qed.

Lemma recalculated_block (buf : Z -> block_t) (i : Z) (f1 f2 : float) :
  let buf' := clear_recalculate_flag (recalculate_at buf i f1 f2) i in
  buf' i = set_recalculate_flag (fst (calculate_trapezoid_for_block (buf i) f1 f2)) false /\
  forall j, j <> i -> buf' j = buf j.
Proof.
  cbv zeta. unfold clear_recalculate_flag, recalculate_at. split.
  - now rewrite !store_block_same.
  - intros j Hj. now rewrite !store_block_other.
Qed.


Section Replan.

Variable buf0 : Z -> block_t.

Lemma entry_speed_recalculated (b : block_t) (f1 f2 : float) :
  entry_speed (set_recalculate_flag (fst (calculate_trapezoid_for_block b f1 f2)) false)
  = entry_speed b.
Proof. unfold calculate_trapezoid_for_block. now destruct (busy b). Qed.

Lemma replan_inv_step (done : list Z) (i : Z) (s : option Z * option Z * (Z -> block_t)) :
  replan_inv buf0 done s -> replan_inv buf0 (done ++ [i]) (recalculate_trapezoids_body i s).
Proof.
  destruct s as [[current next] buf]. intros (Hlast & Hflags & Hstatic & Hframe & Hentry).
  assert (Hout : forall j, ~ In j (done ++ [i]) -> ~ In j done).
  { intros j Hj Hd. apply Hj, in_or_app. now left. }
  unfold recalculate_trapezoids_body.
  destruct next as [c|].
  - assert (Hc : In c done).
    { destruct Hlast as [[_ H]|(l & k & -> & [= ->])]; [discriminate|].
      apply in_or_app. right. now left. }
    destruct (recalculate_flag (buf c) || recalculate_flag (buf i)) eqn:E.
    + match goal with
      | |- replan_inv _ _ (_, _, clear_recalculate_flag (recalculate_at _ _ ?f1 ?f2) _) =>
        destruct (recalculated_block buf c f1 f2) as [Hs Ho]
      end.
      split; [right; now exists done, i|]. split; [|split; [|split]].
      * intros j Hj Hne. destruct (Z.eq_dec j c) as [->|Hjc].
        -- rewrite Hs. reflexivity.
        -- rewrite (Ho j Hjc). apply Hflags; [|congruence].
           apply in_app_or in Hj. destruct Hj as [Hj|[Hj|[]]]; [exact Hj | congruence].
      * apply static_clear_flag, static_recalculate_at, Hstatic.
      * intros j Hj. rewrite Ho; [apply Hframe, Hout, Hj|].
        intros ->. now apply (Hout c Hj).
      * intros j. destruct (Z.eq_dec j c) as [->|Hjc].
        -- rewrite Hs, entry_speed_recalculated. apply Hentry.
        -- rewrite (Ho j Hjc). apply Hentry.
    + apply orb_false_elim in E. destruct E as [Ec _].
      split; [right; now exists done, i|]. split; [|split; [exact Hstatic|split; [|exact Hentry]]].
      * intros j Hj Hne. destruct (Z.eq_dec j c) as [->|Hjc]; [exact Ec|].
        apply Hflags; [|congruence].
        apply in_app_or in Hj. destruct Hj as [Hj|[Hj|[]]]; [exact Hj | congruence].
      * intros j Hj. apply Hframe, Hout, Hj.
  - split; [right; now exists done, i|]. split; [|split; [exact Hstatic|split; [|exact Hentry]]].
    + intros j Hj Hne. destruct Hlast as [[-> _]|(l & k & _ & Hk)]; [|discriminate].
      destruct Hj as [Hj|[]]. congruence.
    + intros j Hj. apply Hframe, Hout, Hj.
Qed.

Lemma replan_inv_fold (l done : list Z) (s : option Z * option Z * (Z -> block_t)) :
  replan_inv buf0 done s ->
  replan_inv buf0 (done ++ l) (fold_left (fun a j => recalculate_trapezoids_body j a) l s).
Proof.
  revert done s. induction l as [|i l IH]; intros done s H; cbn [fold_left].
  - now rewrite app_nil_r.
  - replace (done ++ i :: l) with ((done ++ [i]) ++ l) by now rewrite <- app_assoc.
    apply IH. now apply replan_inv_step.
Qed.

End Replan.

Lemma i8_next_in_ring (cfg : config) (Hring : ring_ok cfg) (i : Z) :
  in_ring cfg i -> i8 (next_block_index cfg i) = (i + 1) mod BLOCK_BUFFER_SIZE cfg.
Proof.
  intros Hi. pose proof (ring_size cfg Hring) as HN.
  rewrite (next_block_index_mod cfg Hring i Hi).
  pose proof (mod_in_ring cfg Hring (i + 1)) as Hn. unfold in_ring in Hn.
  apply i8_small. lia.
Qed.

(** [planner_recalculate_trapezoids] as a fold over the queued blocks. *)
Lemma planner_recalculate_trapezoids_unfold (cfg : config) (st st' : planner) :
  ring_ok cfg -> in_ring cfg (block_buffer_head st) -> in_ring cfg (block_buffer_tail st) ->
  planner_recalculate_trapezoids cfg st = Some st' ->
  exists current next buf,
    replan_inv (block_buffer st) (queued_blocks cfg st) (current, next, buf) /\
    block_buffer st' =
    match next with
    | Some n =>
      clear_recalculate_flag
        (recalculate_at buf n (entry_speed (buf n) / nominal_speed (buf n))
           (MINIMUM_PLANNER_SPEED cfg / nominal_speed (buf n))) n
    | None => buf
    end.
Proof.
  intros Hring Hh Ht. pose proof (ring_size cfg Hring) as HN.
  unfold planner_recalculate_trapezoids.
  rewrite (i8_small (block_buffer_tail st)) by (unfold in_ring in Ht; lia).
  rewrite (walk_queue cfg Hring _ _ st _ Hh Ht (i8_next_in_ring cfg Hring)).
  pose proof (replan_inv_fold (block_buffer st) (queued_blocks cfg st) []
                (None, None, block_buffer st)) as Hinv.
  cbn [app] in Hinv.
  destruct (fold_left _ _ _) as [[current next] buf].
  intros E. exists current, next, buf. split.
  - apply Hinv. split; [now left|]. split; [intros j []|].
    split; [apply same_static_refl|]. split; reflexivity.
  - destruct next as [n|]; injection E as <-; reflexivity.
Qed.

Lemma trapezoid_pass_clears_flags (cfg : config) (st st' : planner) :
  ring_ok cfg -> in_ring cfg (block_buffer_head st) -> in_ring cfg (block_buffer_tail st) ->
  planner_recalculate_trapezoids cfg st = Some st' ->
  forall j, In j (queued_blocks cfg st) -> recalculate_flag (block_buffer st' j) = false.
Proof.
  intros Hring Hh Ht E j Hj.
  destruct (planner_recalculate_trapezoids_unfold cfg st st' Hring Hh Ht E)
    as (current & next & buf & (Hlast & Hflags & _) & ->).
  destruct next as [n|].
  - match goal with |- recalculate_flag (clear_recalculate_flag (recalculate_at _ _ ?f1 ?f2) _ _) = _ =>
      destruct (recalculated_block buf n f1 f2) as [Hc Ho] end.
    destruct (Z.eq_dec j n) as [->|Hjn].
    + rewrite Hc. reflexivity.
    + rewrite (Ho j Hjn). apply Hflags; [exact Hj | congruence].
  - destruct Hlast as [[El _]|(l & k & _ & Hk)]; [|discriminate].
    rewrite El in Hj. destruct Hj.
Qed.


(** The registers of head and tail decide which blocks are queued. *)
Lemma queued_blocks_registers (cfg : config) (st st' : planner) :
  registers st' = registers st -> queued_blocks cfg st' = queued_blocks cfg st.
Proof.
  intros Hr.
  assert (Eh : block_buffer_head st' = block_buffer_head st)
    by exact (f_equal (fun r => fst (fst (fst (fst (fst (fst r)))))) Hr).
  assert (Et : block_buffer_tail st' = block_buffer_tail st)
    by exact (f_equal (fun r => snd (fst (fst (fst (fst (fst r)))))) Hr).
  unfold queued_blocks, movesplanned. now rewrite Eh, Et.
Qed.

Lemma planner_recalculate_stages (cfg : config) (fsqrt : float -> float) (st st' : planner) :
  planner_recalculate cfg fsqrt st = Some st' ->
  exists st2,
    planner_recalculate_trapezoids cfg st2 = Some st' /\
    same_static (block_buffer st) (block_buffer st2) /\ registers st2 = registers st.
Proof.
  unfold planner_recalculate.
  destruct (planner_reverse_pass cfg fsqrt st) as [st1|] eqn:E1; [|discriminate].
  destruct (planner_forward_pass cfg fsqrt st1) as [st2|] eqn:E2; [|discriminate].
  intros E3. exists st2. split; [exact E3|].
  apply planner_reverse_pass_keeps in E1. destruct E1 as (S1 & R1 & _).
  apply planner_forward_pass_keeps in E2. destruct E2 as (S2 & R2 & _).
  split; [now apply same_static_trans with (block_buffer st1) | congruence].
Qed.

(** X15. After [planner_recalculate] no queued block has its
    [recalculate_flag] set; the queue itself is the same. *)
Theorem look_ahead_clears_recalculate_flags (cfg : config) (fsqrt : float -> float)
  (st st' : planner) :
  ring_ok cfg -> in_ring cfg (block_buffer_head st) -> in_ring cfg (block_buffer_tail st) ->
  planner_recalculate cfg fsqrt st = Some st' ->
  queued_blocks cfg st' = queued_blocks cfg st /\
  forall j, In j (queued_blocks cfg st) -> recalculate_flag (block_buffer st' j) = false.
Proof.
  intros Hring Hh Ht E.
  pose proof (planner_recalculate_keeps cfg fsqrt _ _ E) as (_ & Hr & _).
  destruct (planner_recalculate_stages cfg fsqrt st st' E) as (st2 & E3 & _ & R2).
  split; [now apply queued_blocks_registers|].
  assert (Eh : block_buffer_head st2 = block_buffer_head st)
    by exact (f_equal (fun r => fst (fst (fst (fst (fst (fst r)))))) R2).
  assert (Et : block_buffer_tail st2 = block_buffer_tail st)
    by exact (f_equal (fun r => snd (fst (fst (fst (fst (fst r)))))) R2).
  rewrite <- (queued_blocks_registers cfg st st2 R2).
  apply trapezoid_pass_clears_flags; [exact Hring | now rewrite Eh | now rewrite Et | exact E3].
Qed.



(** ** Axis-activity scan: the idle axes *)

(** How many blocks of [l] step the axis. *)
Lemma count_active_fold (buf : Z -> block_t) (l : list Z) (cx cy cz ce : Z) :
  let count (steps : block_t -> Z) :=
    Z.of_nat (length (filter (fun i => negb (steps (buf i) =? 0)) l)) in
  0 <= cx -> 0 <= cy -> 0 <= cz -> 0 <= ce ->
  cx + Z.of_nat (length l) < 256 -> cy + Z.of_nat (length l) < 256 ->
  cz + Z.of_nat (length l) < 256 -> ce + Z.of_nat (length l) < 256 ->
  fold_left (fun a j => count_active j a) l ((cx, cy, cz, ce), buf) =
  ((cx + count steps_x, cy + count steps_y, cz + count steps_z, ce + count steps_e), buf).
Proof.
  cbv zeta. revert cx cy cz ce.
  induction l as [|i l IH]; intros cx cy cz ce Hx Hy Hz He Bx By Bz Be.
  - cbn. now rewrite !Z.add_0_r.
  - cbn [fold_left count_active filter length] in *.
    rewrite Nat2Z.inj_succ in Bx, By, Bz, Be.
    destruct (negb (steps_x (buf i) =? 0)), (negb (steps_y (buf i) =? 0)),
             (negb (steps_z (buf i) =? 0)), (negb (steps_e (buf i) =? 0));
      cbv iota; rewrite ?u8_small by lia; rewrite IH by lia;
      cbn [length]; rewrite ?Nat2Z.inj_succ; apply (f_equal (fun q => (q, buf)));
      (apply f_equal2; [apply f_equal2; [apply f_equal2|]|]); lia.
Qed.

Lemma axis_idle_count (steps : block_t -> Z) (buf : Z -> block_t) (l : list Z) :
  (0 + Z.of_nat (length (filter (fun i => negb (steps (buf i) =? 0)) l)) =? 0)
  = axis_idle steps buf l.
Proof.
  unfold axis_idle. induction l as [|i l IH]; [reflexivity|].
  cbn [filter forallb]. destruct (steps (buf i) =? 0); cbn [negb andb]; [exact IH|].
  cbn [length]. rewrite Nat2Z.inj_succ. apply Z.eqb_neq. lia.
Qed.

Lemma ring_up_length (cfg : config) (i : Z) (n : nat) : length (ring_up cfg i n) = n.
Proof. unfold ring_up. now rewrite length_map, length_seq. Qed.

Lemma u8_next_in_ring (cfg : config) (Hring : ring_ok cfg) (i : Z) :
  in_ring cfg i ->
  u8 (Z.land (i + 1) (BLOCK_BUFFER_SIZE cfg - 1)) = (i + 1) mod BLOCK_BUFFER_SIZE cfg.
Proof.
  intros Hi. pose proof (ring_size cfg Hring) as HN.
  rewrite (ring_mask cfg Hring).
  pose proof (mod_in_ring cfg Hring (i + 1)) as Hn. unfold in_ring in Hn.
  apply u8_small. lia.
Qed.

(** X17. The scan returns and leaves ring and registers alone; it asks for
    an axis to be disabled exactly when the DISABLE switch of the axis is on
    and no queued block steps the axis. *)
Theorem idle_axes_are_disabled (cfg : config) (st : planner) :
  ring_ok cfg -> in_ring cfg (block_buffer_head st) -> in_ring cfg (block_buffer_tail st) ->
  exists st' out,
    check_axes_activity cfg st = Some (st', out) /\
    disable_x out = DISABLE_X cfg && axis_idle steps_x (block_buffer st) (queued_blocks cfg st) /\
    disable_y out = DISABLE_Y cfg && axis_idle steps_y (block_buffer st) (queued_blocks cfg st) /\
    disable_z out = DISABLE_Z cfg && axis_idle steps_z (block_buffer st) (queued_blocks cfg st) /\
    disable_e out = DISABLE_E cfg && axis_idle steps_e (block_buffer st) (queued_blocks cfg st) /\
    block_buffer st' = block_buffer st /\ registers st' = registers st.
Proof.
  intros Hring Hh Ht. pose proof (ring_size cfg Hring) as HN.
  assert (Hlen : Z.of_nat (length (queued_blocks cfg st)) < 256).
  { rewrite (queued_blocks_spec cfg Hring), ring_up_length.
    pose proof (Z.mod_pos_bound (block_buffer_head st - block_buffer_tail st)
                  (BLOCK_BUFFER_SIZE cfg) ltac:(lia)). lia. }
  unfold check_axes_activity.
  assert (Hcounts :
    (if negb (block_buffer_tail st =? block_buffer_head st) then
       option_map fst
         (walk_forward (fun i => u8 (Z.land (i + 1) (BLOCK_BUFFER_SIZE cfg - 1))) count_active
            (ring_fuel cfg) (block_buffer_head st) (u8 (block_buffer_tail st))
            ((0, 0, 0, 0), block_buffer st))
     else Some (0, 0, 0, 0)) =
    option_map fst
      (Some (fold_left (fun a j => count_active j a) (queued_blocks cfg st)
               ((0, 0, 0, 0), block_buffer st)))).
  { destruct (Z.eqb_spec (block_buffer_tail st) (block_buffer_head st)) as [E|E]; cbn [negb].
    - rewrite (queued_blocks_spec cfg Hring), E, Z.sub_diag, Z.mod_0_l by lia. reflexivity.
    - rewrite (u8_small (block_buffer_tail st)) by (unfold in_ring in Ht; lia).
      now rewrite (walk_queue cfg Hring _ _ st _ Hh Ht (u8_next_in_ring cfg Hring)). }
  rewrite Hcounts. clear Hcounts.
  rewrite count_active_fold by lia. cbn [option_map fst].
  destruct (fold_left (fan_round cfg) _ _) as [[tfs fs] writes].
  eexists. eexists. split; [reflexivity|].
  cbn [disable_x disable_y disable_z disable_e block_buffer].
  rewrite !axis_idle_count. repeat split.
Qed.

(** ** What the look-ahead writes *)

Lemma reverse_kernel_frame (fsqrt : float -> float) (p c n : option Z)
  (buf : Z -> block_t) (j : Z) :
  c <> Some j \/ n = None -> planner_reverse_pass_kernel fsqrt p c n buf j = buf j.
Proof.
  intros H. unfold planner_reverse_pass_kernel.
  destruct c as [c|]; [|reflexivity]. destruct n as [n|]; [|reflexivity].
  destruct H as [H|H]; [|discriminate].
  destruct (negb (feq _ _)); [|reflexivity].
  apply store_block_other. congruence.
Qed.

Lemma forward_kernel_frame (fsqrt : float -> float) (p c n : option Z)
  (buf : Z -> block_t) (j : Z) :
  p = None \/ c <> Some j -> planner_forward_pass_kernel fsqrt p c n buf j = buf j.
Proof.
  intros H. unfold planner_forward_pass_kernel.
  destruct p as [p|]; [|reflexivity]. destruct c as [c|]; [|reflexivity].
  destruct H as [H|H]; [discriminate|].
  destruct (negb (nominal_length_flag _)); [|reflexivity].
  destruct (flt _ _); [|reflexivity].
  destruct (negb (feq _ _)); [|reflexivity].
  apply store_block_other. congruence.
Qed.

Lemma reverse_fold_frame (fsqrt : float -> float) (calls : list window)
  (buf : Z -> block_t) (j : Z) :
  ~ In j (adjusted_blocks calls) ->
  fold_left (call_kernel (planner_reverse_pass_kernel fsqrt)) calls buf j = buf j.
Proof.
  revert buf. induction calls as [|[[p c] n] calls IH]; intros buf Hj; [reflexivity|].
  cbn [fold_left]. unfold adjusted_blocks in Hj. cbn [flat_map] in Hj.
  rewrite IH.
  - unfold call_kernel. apply reverse_kernel_frame.
    destruct c as [c|]; [|left; discriminate]. destruct n as [n|]; [|now right].
    left. intros [= ->]. apply Hj. now left.
  - intros H. apply Hj, in_or_app. now right.
Qed.

Section Frames.

Variable cfg : config.
Hypothesis Hring : ring_ok cfg.
Variable fsqrt : float -> float.

Local Abbreviation N := (BLOCK_BUFFER_SIZE cfg).

Lemma in_ring_up_iff (t j : Z) (n : nat) :
  in_ring cfg t -> Z.of_nat n <= N ->
  In j (ring_up cfg t n) <-> in_ring cfg j /\ (j - t) mod N < Z.of_nat n.
Proof.
  pose proof (ring_size cfg Hring) as HN. intros Ht Hn.
  unfold ring_up. rewrite in_map_iff. split.
  - intros (k & <- & Hk). apply in_seq in Hk. split; [apply (mod_in_ring cfg Hring)|].
    rewrite Zminus_mod_idemp_l. replace (t + Z.of_nat k - t) with (Z.of_nat k) by lia.
    rewrite Z.mod_small by lia. lia.
  - intros (Hj & Hd).
    pose proof (Z.mod_pos_bound (j - t) N ltac:(lia)) as Hb.
    exists (Z.to_nat ((j - t) mod N)). split; [|apply in_seq; lia].
    rewrite Z2Nat.id by lia. rewrite Zplus_mod_idemp_r.
    replace (t + (j - t)) with j by lia. apply Z.mod_small. exact Hj.
Qed.

Lemma in_queued_blocks (st : planner) (j : Z) :
  in_ring cfg (block_buffer_tail st) ->
  In j (queued_blocks cfg st) <->
  in_ring cfg j /\ (j - block_buffer_tail st) mod N < movesplanned cfg st.
Proof.
  pose proof (ring_size cfg Hring) as HN. intros Ht.
  pose proof (movesplanned_mod cfg st Hring) as Em.
  pose proof (Z.mod_pos_bound (block_buffer_head st - block_buffer_tail st) N ltac:(lia)).
  unfold queued_blocks. rewrite in_ring_up_iff by (try assumption; lia).
  rewrite Z2Nat.id by lia. reflexivity.
Qed.

(** The reverse pass writes no block but those it adjusts. *)
Lemma planner_reverse_pass_frame (st st' : planner) :
  in_ring cfg (block_buffer_head st) -> in_ring cfg (block_buffer_tail st) ->
  planner_reverse_pass cfg fsqrt st = Some st' ->
  forall j,
    ~ (in_ring cfg j /\
       1 <= (j - block_buffer_tail st) mod N <= movesplanned cfg st - 5) ->
    block_buffer st' j = block_buffer st j.
Proof.
  intros Hh Ht E j Hj. rewrite (movesplanned_mod cfg st Hring) in Hj.
  unfold planner_reverse_pass in E.
  destruct (reverse_pass_calls_spec cfg Hring (planner_reverse_pass_kernel fsqrt)
              (block_buffer_head st) (block_buffer_tail st) (block_buffer st) Hh Ht)
    as (calls & _ & Er & Ea).
  rewrite Er in E. injection E as <-. cbn [block_buffer set_block_buffer].
  apply reverse_fold_frame. rewrite Ea. intros Hin.
  apply (in_ring_down cfg Hring) in Hin; try assumption. tauto.
Qed.

(** The forward walk after [n] blocks: the window, and the blocks written. *)
Lemma forward_fold (buf0 : Z -> block_t) (t : Z) (n : nat) :
  let s := fold_left (fun a j => forward_pass_body fsqrt j a) (ring_up cfg t n)
             ((None, None, None), buf0) in
  fst s = (slot cfg t (Z.of_nat n - 3), slot cfg t (Z.of_nat n - 2), slot cfg t (Z.of_nat n - 1))
  /\ forall j, (forall k, 1 <= k <= Z.of_nat n - 2 -> j <> (t + k) mod N) -> snd s j = buf0 j.
Proof.
  cbv zeta. induction n as [|n IH].
  - cbn. split; [reflexivity|]. reflexivity.
  - rewrite ring_up_snoc, fold_left_app. cbn [fold_left].
    destruct (fold_left _ (ring_up cfg t n) _) as [[[b0 b1] b2] buf].
    cbn [fst snd] in IH. destruct IH as [Ew Hf]. injection Ew as E0 E1 E2.
    unfold forward_pass_body. cbn [fst snd]. rewrite Nat2Z.inj_succ. split.
    + rewrite E1, E2. f_equal; [f_equal|]; try (f_equal; lia).
      unfold slot. destruct (Z.ltb_spec (Z.succ (Z.of_nat n) - 1) 0); [lia|].
      do 2 f_equal. lia.
    + intros j Hj. rewrite forward_kernel_frame.
      * apply Hf. intros k Hk. apply Hj. lia.
      * rewrite E1, E2. unfold slot.
        destruct (Z.ltb_spec (Z.of_nat n - 2) 0); [now left|]. right.
        destruct (Z.ltb_spec (Z.of_nat n - 1) 0); [discriminate|].
        intros [= E]. apply (Hj (Z.of_nat n - 1)); [lia|]. now rewrite E.
Qed.

Lemma u8_next_block_index (i : Z) :
  in_ring cfg i -> u8 (next_block_index cfg i) = (i + 1) mod N.
Proof.
  intros Hi. pose proof (ring_size cfg Hring) as HN.
  rewrite (next_block_index_mod cfg Hring i Hi).
  pose proof (mod_in_ring cfg Hring (i + 1)) as Hn. unfold in_ring in Hn.
  apply u8_small. lia.
Qed.

(** The forward pass writes no block but those after the tail block. *)
Lemma planner_forward_pass_frame (st st' : planner) :
  in_ring cfg (block_buffer_head st) -> in_ring cfg (block_buffer_tail st) ->
  planner_forward_pass cfg fsqrt st = Some st' ->
  forall j,
    ~ (in_ring cfg j /\
       1 <= (j - block_buffer_tail st) mod N <= movesplanned cfg st - 1) ->
    block_buffer st' j = block_buffer st j.
Proof.
  pose proof (ring_size cfg Hring) as HN.
  intros Hh Ht E j Hj. rewrite (movesplanned_mod cfg st Hring) in Hj.
  unfold planner_forward_pass in E.
  rewrite (u8_small (block_buffer_tail st)) in E by (unfold in_ring in Ht; lia).
  rewrite (walk_queue cfg Hring _ _ st _ Hh Ht u8_next_block_index) in E.
  rewrite (queued_blocks_spec cfg Hring) in E.
  set (t := block_buffer_tail st) in *.
  set (d := (block_buffer_head st - t) mod N) in *.
  pose proof (Z.mod_pos_bound (block_buffer_head st - t) N ltac:(lia)) as Hd. fold d in Hd.
  destruct (forward_fold (block_buffer st) t (Z.to_nat d)) as [Ew Hf].
  destruct (fold_left _ _ _) as [[[b0 b1] b2] buf].
  cbn [fst snd] in Ew, Hf. injection Ew as E0 E1 E2. injection E as <-.
  cbn [block_buffer set_block_buffer].
  assert (Hoff : forall k, 1 <= k <= d - 1 -> j <> (t + k) mod N).
  { intros k Hk ->. apply Hj. split; [apply (mod_in_ring cfg Hring)|].
    rewrite Zminus_mod_idemp_l. replace (t + k - t) with k by lia.
    rewrite Z.mod_small by lia. lia. }
  rewrite forward_kernel_frame.
  - apply Hf. intros k Hk. apply Hoff. lia.
  - rewrite E1, E2. unfold slot. rewrite Z2Nat.id by lia.
    destruct (Z.ltb_spec (d - 2) 0); [now left|]. right.
    destruct (Z.ltb_spec (d - 1) 0); [discriminate|].
    intros [= E]. apply (Hoff (d - 1)); [lia|]. now rewrite E.
Qed.

(** The trapezoid pass writes no block outside the queue, and no entry
    speed. *)
Lemma planner_recalculate_trapezoids_frame (st st' : planner) :
  in_ring cfg (block_buffer_head st) -> in_ring cfg (block_buffer_tail st) ->
  planner_recalculate_trapezoids cfg st = Some st' ->
  (forall j, ~ In j (queued_blocks cfg st) -> block_buffer st' j = block_buffer st j) /\
  (forall j, entry_speed (block_buffer st' j) = entry_speed (block_buffer st j)).
Proof.
  intros Hh Ht E.
  destruct (planner_recalculate_trapezoids_unfold cfg st st' Hring Hh Ht E)
    as (current & next & buf & (Hlast & _ & _ & Hframe & Hentry) & ->).
  destruct next as [n|]; [|split; assumption].
  match goal with
  | |- context [clear_recalculate_flag (recalculate_at _ _ ?f1 ?f2) _] =>
    destruct (recalculated_block buf n f1 f2) as [Hs Ho]
  end.
  assert (Hn : In n (queued_blocks cfg st)).
  { destruct Hlast as [[_ H]|(l & k & -> & [= ->])]; [discriminate|].
    apply in_or_app. right. now left. }
  split; intros j.
  - intros Hj. rewrite Ho; [now apply Hframe|]. intros ->. now apply Hj.
  - destruct (Z.eq_dec j n) as [->|Hjn].
    + rewrite Hs, entry_speed_recalculated. apply Hentry.
    + rewrite (Ho j Hjn). apply Hentry.
Qed.

End Frames.

(** X18. [planner_recalculate] writes queued blocks only, and it keeps the
    entry speed of the tail block, the one the stepper runs. *)
Theorem look_ahead_writes_queued_blocks_only (cfg : config) (fsqrt : float -> float)
  (st st' : planner) :
  ring_ok cfg -> in_ring cfg (block_buffer_head st) -> in_ring cfg (block_buffer_tail st) ->
  planner_recalculate cfg fsqrt st = Some st' ->
  (forall j, ~ In j (queued_blocks cfg st) -> block_buffer st' j = block_buffer st j) /\
  entry_speed (block_buffer st' (block_buffer_tail st))
  = entry_speed (block_buffer st (block_buffer_tail st)).
Proof.
  intros Hring Hh Ht. pose proof (ring_size cfg Hring) as HN.
  unfold planner_recalculate.
  destruct (planner_reverse_pass cfg fsqrt st) as [st1|] eqn:E1; [|discriminate].
  destruct (planner_forward_pass cfg fsqrt st1) as [st2|] eqn:E2; [|discriminate].
  intros E3.
  pose proof (planner_reverse_pass_keeps cfg fsqrt st st1 E1) as (_ & R1 & _).
  pose proof (planner_forward_pass_keeps cfg fsqrt st1 st2 E2) as (_ & R2 & _).
  assert (Eh1 : block_buffer_head st1 = block_buffer_head st)
    by exact (f_equal (fun r => fst (fst (fst (fst (fst (fst r)))))) R1).
  assert (Et1 : block_buffer_tail st1 = block_buffer_tail st)
    by exact (f_equal (fun r => snd (fst (fst (fst (fst (fst r)))))) R1).
  assert (Eh2 : block_buffer_head st2 = block_buffer_head st1)
    by exact (f_equal (fun r => fst (fst (fst (fst (fst (fst r)))))) R2).
  assert (Et2 : block_buffer_tail st2 = block_buffer_tail st1)
    by exact (f_equal (fun r => snd (fst (fst (fst (fst (fst r)))))) R2).
  assert (Hh1 : in_ring cfg (block_buffer_head st1)) by now rewrite Eh1.
  assert (Ht1 : in_ring cfg (block_buffer_tail st1)) by now rewrite Et1.
  assert (Hh2 : in_ring cfg (block_buffer_head st2)) by now rewrite Eh2.
  assert (Ht2 : in_ring cfg (block_buffer_tail st2)) by now rewrite Et2.
  assert (Em1 : movesplanned cfg st1 = movesplanned cfg st)
    by (unfold movesplanned; now rewrite Eh1, Et1).
  assert (Eq2 : queued_blocks cfg st2 = queued_blocks cfg st).
  { rewrite (queued_blocks_registers cfg st1 st2 R2). now apply queued_blocks_registers. }
  pose proof (planner_reverse_pass_frame cfg Hring fsqrt st st1 Hh Ht E1) as F1.
  pose proof (planner_forward_pass_frame cfg Hring fsqrt st1 st2 Hh1 Ht1 E2) as F2.
  destruct (planner_recalculate_trapezoids_frame cfg Hring st2 st' Hh2 Ht2 E3) as (F3 & F3e).
  rewrite Et1, Em1 in F2. rewrite Eq2 in F3.
  split.
  - intros j Hj.
    assert (Hout : ~ (in_ring cfg j /\
                      (j - block_buffer_tail st) mod BLOCK_BUFFER_SIZE cfg
                      < movesplanned cfg st)).
    { intros H. apply Hj. now apply (in_queued_blocks cfg Hring). }
    rewrite F3 by exact Hj. rewrite F2 by (intros [H1 H2]; apply Hout; split; [exact H1|lia]).
    apply F1. intros [H1 H2]. apply Hout. split; [exact H1|lia].
  - rewrite F3e, F2, F1; [reflexivity| |];
      rewrite Z.sub_diag, Z.mod_0_l by lia; lia.
Qed.

(** ** Kinematics: the speed a distance allows *)

(** X19. Where the square root is exact, [max_allowable_speed] is the speed
    from which the target velocity is reached in exactly the given distance:
    [estimate_acceleration_distance] gives the distance back. *)
Theorem max_allowable_speed_round_trip (fsqrt : float -> float)
  (acceleration target_velocity distance : float) :
  let r := (target_velocity * target_velocity - 2 * acceleration * distance)%Q in
  (fsqrt r * fsqrt r == r)%Q -> ~ (acceleration == 0)%Q ->
  (estimate_acceleration_distance
     (max_allowable_speed fsqrt acceleration target_velocity distance)
     target_velocity acceleration == distance)%Q.
Proof.
  cbv zeta. intros Hr Ha. unfold max_allowable_speed, estimate_acceleration_distance.
  rewrite (feq_false _ _ Ha). cbn [negb].
  set (v := fsqrt _) in *.
  assert (E : (target_velocity * target_velocity - v * v == 2 * acceleration * distance)%Q)
    by (rewrite Hr; ring).
  rewrite E. field. exact Ha.
Qed.

Lemma max_allowable_speed_round_trip_witness :
  (example_sqrt 25 * example_sqrt 25 == 25)%Q /\ ~ (-2 == 0)%Q /\
  (estimate_acceleration_distance (max_allowable_speed example_sqrt (-2) 3 4) 3 (-2) == 4)%Q.
Proof.
  assert (Hr : (example_sqrt (3 * 3 - 2 * -2 * 4) * example_sqrt (3 * 3 - 2 * -2 * 4)
                == 3 * 3 - 2 * -2 * 4)%Q) by (vm_compute; reflexivity).
  assert (Ha : ~ (-2 == 0)%Q) by discriminate.
  split; [vm_compute; reflexivity|]. split; [exact Ha|].
  apply (max_allowable_speed_round_trip example_sqrt (-2) 3 4 Hr Ha).
Defined.

(** ** Automatic temperature *)

(** X20. With [autotemp_min <= autotemp_max], an old weight between 0 and 1
    and the last target not above [autotemp_max], [getHighESpeed] returns; it
    sets no target exactly when automatic temperature is off or the hotend's
    target is more than 2 degrees below [autotemp_min]; a target it sets lies
    between [autotemp_min] and [autotemp_max] and is remembered as the last
    target. *)
Theorem autotemp_target_in_range (cfg : config) (settings : autotemp)
  (degTargetHotend0 oldt : float) (st : planner) :
  ring_ok cfg -> in_ring cfg (block_buffer_head st) -> in_ring cfg (block_buffer_tail st) ->
  (autotemp_min settings <= autotemp_max settings)%Q ->
  (0 <= AUTOTEMP_OLDWEIGHT settings)%Q -> (AUTOTEMP_OLDWEIGHT settings <= 1)%Q ->
  (oldt <= autotemp_max settings)%Q ->
  exists oldt' target,
    getHighESpeed cfg settings degTargetHotend0 oldt st = Some (oldt', target) /\
    (oldt' <= autotemp_max settings)%Q /\
    (target = None <->
     autotemp_enabled settings = false \/
     (degTargetHotend0 + 2 < autotemp_min settings)%Q) /\
    match target with
    | Some t => (autotemp_min settings <= t)%Q /\ (t <= autotemp_max settings)%Q /\ oldt' = t
    | None => oldt' = oldt
    end.
Proof.
  intros Hring Hh Ht Hmm Hw0 Hw1 Hold. pose proof (ring_size cfg Hring) as HN.
  unfold getHighESpeed.
  destruct (autotemp_enabled settings) eqn:Een; cbn [negb].
  - destruct (flt (degTargetHotend0 + 2) (autotemp_min settings)) eqn:Edeg.
    + apply flt_true in Edeg. exists oldt, None. repeat split; auto.
    + apply flt_false in Edeg.
      rewrite (u8_small (block_buffer_tail st)) by (unfold in_ring in Ht; lia).
      rewrite (walk_queue cfg Hring _ _ st _ Hh Ht (u8_next_in_ring cfg Hring)).
      set (high := fold_left _ _ _). cbv zeta.
      set (g := (autotemp_min settings + high * autotemp_factor settings)%Q).
      set (t1 := if flt g (autotemp_min settings) then autotemp_min settings else g).
      set (t2 := if fgt t1 (autotemp_max settings) then autotemp_max settings else t1).
      assert (H1 : (autotemp_min settings <= t1)%Q).
      { unfold t1. destruct (flt g _) eqn:E; [lra|]. now apply flt_false in E. }
      assert (H2 : (autotemp_min settings <= t2 /\ t2 <= autotemp_max settings)%Q).
      { unfold t2. destruct (fgt t1 _) eqn:E; [lra|]. apply flt_false in E. lra. }
      set (w := AUTOTEMP_OLDWEIGHT settings) in *.
      assert (H3 : (autotemp_min settings
                    <= (if fgt oldt t2 then w * oldt + (1 - w) * t2 else t2)
                    <= autotemp_max settings)%Q).
      { destruct (fgt oldt t2) eqn:E; [|lra]. apply fgt_true in E. split; nra. }
      eexists. eexists. split; [reflexivity|]. split; [lra|]. split.
      * split; [discriminate|]. intros [H|H]; [discriminate | lra].
      * split; [lra|]. split; [lra|reflexivity].
  - exists oldt, None. repeat split; auto.
Qed.

Lemma autotemp_target_in_range_witness :
  ring_ok example_config /\ in_ring example_config (block_buffer_head queue7) /\
  (autotemp_min example_autotemp <= autotemp_max example_autotemp)%Q /\
  exists oldt' target,
    getHighESpeed example_config example_autotemp 215 0 queue7 = Some (oldt', target) /\
    (oldt' <= autotemp_max example_autotemp)%Q.
Proof.
  assert (Hh : in_ring example_config (block_buffer_head queue7))
    by (vm_compute; split; [discriminate | reflexivity]).
  assert (Ht : in_ring example_config (block_buffer_tail queue7))
    by (vm_compute; split; [discriminate | reflexivity]).
  assert (Hmm : (autotemp_min example_autotemp <= autotemp_max example_autotemp)%Q)
    by (vm_compute; discriminate).
  assert (Hw0 : (0 <= AUTOTEMP_OLDWEIGHT example_autotemp)%Q) by (vm_compute; discriminate).
  assert (Hw1 : (AUTOTEMP_OLDWEIGHT example_autotemp <= 1)%Q) by (vm_compute; discriminate).
  assert (Hold : (0 <= autotemp_max example_autotemp)%Q) by (vm_compute; discriminate).
  split; [exact example_ring_ok|]. split; [exact Hh|]. split; [exact Hmm|].
  destruct (autotemp_target_in_range example_config example_autotemp 215 0 queue7
              example_ring_ok Hh Ht Hmm Hw0 Hw1 Hold) as (oldt' & target & E & Hle & _).
  exists oldt', target. split; [exact E | exact Hle].
Defined.

(** ** The example machine at work *)

Lemma planner_forward_pass_returns (cfg : config) (fsqrt : float -> float) (st : planner) :
  ring_ok cfg -> in_ring cfg (block_buffer_head st) -> in_ring cfg (block_buffer_tail st) ->
  exists st', planner_forward_pass cfg fsqrt st = Some st'.
Proof.
  intros Hring Hh Ht. pose proof (ring_size cfg Hring) as HN.
  unfold planner_forward_pass.
  rewrite (u8_small (block_buffer_tail st)) by (unfold in_ring in Ht; lia).
  rewrite (walk_queue cfg Hring _ _ st _ Hh Ht (u8_next_block_index cfg Hring)).
  destruct (fold_left _ _ _) as [[[b0 b1] b2] buf]. now eexists.
Qed.

Lemma example_in_ring (i : Z) : 0 <= i < 16 -> in_ring example_config i.
Proof. intros H. exact H. Qed.

(** The first move of the example machine, 10 mm along X at 50 mm/s, is
    queued whatever the uninitialised exit speed holds. *)
Lemma example_move_queues (safe_speed_uninit : float) :
  exists st',
    plan_buffer_line example_config example_sqrt example_boot 10 0 0 0 50 0 safe_speed_uninit
    = Some (Queued st') /\
    planner_recalculate example_config example_sqrt
      (committed example_config example_sqrt example_boot 10 0 0 0 50 0 safe_speed_uninit)
    = Some st'.
Proof.
  assert (Hh : in_ring example_config (block_buffer_head example_boot))
    by (apply example_in_ring; cbn; lia).
  apply (plan_buffer_line_queues example_config example_sqrt example_boot 10 0 0 0 50 0
           safe_speed_uninit example_ring_ok Hh Hh).
  - vm_compute. discriminate.
  - vm_compute. reflexivity.
Qed.

(** A second move, from 10 mm to 20 mm, behind a block the stepper runs. *)
Lemma claimed_move_queues :
  exists st',
    plan_buffer_line example_config example_sqrt claimed_queue 20 0 0 0 50 0 0
    = Some (Queued st').
Proof.
  assert (Hh : in_ring example_config (block_buffer_head claimed_queue))
    by (apply example_in_ring; cbn; lia).
  assert (Ht : in_ring example_config (block_buffer_tail claimed_queue))
    by (apply example_in_ring; cbn; lia).
  destruct (plan_buffer_line_queues example_config example_sqrt claimed_queue 20 0 0 0 50 0 0
              example_ring_ok Hh Ht) as (st' & E & _).
  - vm_compute. discriminate.
  - vm_compute. reflexivity.
  - now exists st'.
Qed.

Lemma forward_pass_never_raises_witness :
  exists st',
    planner_forward_pass example_config example_sqrt queue7 = Some st' /\
    (entry_speed (block_buffer st' 3) <= entry_speed (block_buffer queue7 3))%Q.
Proof.
  destruct (planner_forward_pass_returns example_config example_sqrt queue7 example_ring_ok)
    as (st' & E); [apply example_in_ring; cbn; lia | apply example_in_ring; cbn; lia |].
  exists st'. split; [exact E|].
  apply (forward_pass_never_raises example_config example_sqrt queue7 st' E 3).
Defined.

Lemma look_ahead_keeps_claimed_profiles_witness :
  busy (block_buffer claimed_queue 0) = true /\
  exists st',
    planner_recalculate example_config example_sqrt claimed_queue = Some st' /\
    final_rate (block_buffer st' 0) = final_rate (block_buffer claimed_queue 0).
Proof.
  split; [reflexivity|].
  destruct (planner_recalculate_returns example_config example_sqrt example_ring_ok
              claimed_queue) as (st' & E);
    [apply example_in_ring; cbn; lia | apply example_in_ring; cbn; lia |].
  exists st'. split; [exact E|].
  apply (look_ahead_keeps_claimed_profiles example_config example_sqrt claimed_queue st' E 0
           eq_refl).
Defined.

Lemma queue_depth_of_outcome_witness :
  ring_ok example_config /\ in_ring example_config (block_buffer_head example_boot) /\
  (plan_buffer_line example_config example_sqrt example_boot 10 0 0 0 50 0 0 = Some Waiting
   <-> movesplanned example_config example_boot = BLOCK_BUFFER_SIZE example_config - 1).
Proof.
  assert (Hh : in_ring example_config (block_buffer_head example_boot))
    by (apply example_in_ring; cbn; lia).
  split; [exact example_ring_ok|]. split; [exact Hh|].
  apply (queue_depth_of_outcome example_config example_sqrt example_boot 10 0 0 0 50 0 0
           example_ring_ok Hh Hh).
Defined.

Lemma builder_keeps_stepper_side_witness :
  busy (block_buffer claimed_queue 0) = true /\
  exists st',
    plan_buffer_line example_config example_sqrt claimed_queue 20 0 0 0 50 0 0
    = Some (Queued st') /\
    block_buffer_tail st' = block_buffer_tail claimed_queue.
Proof.
  split; [reflexivity|].
  destruct claimed_move_queues as (st' & E). exists st'. split; [exact E|].
  apply (builder_keeps_stepper_side example_config example_sqrt claimed_queue 20 0 0 0 50 0 0
           st' (or_intror E)).
Defined.

Lemma set_position_round_trip_witness :
  0 <= dropsegments example_config /\ 0 <= ACTIVE_EXTRUDER example_config < 256 /\
  block_buffer_tail example_boot <> next_buffer_head example_config example_boot /\
  exists st2,
    plan_buffer_line example_config example_sqrt
      (plan_set_position example_config example_boot 1 2 3 4) 1 2 3 4 50 0 0
    = Some (Dropped st2) /\
    position st2 = position (plan_set_position example_config example_boot 1 2 3 4).
Proof.
  assert (H1 : 0 <= dropsegments example_config) by (vm_compute; discriminate).
  assert (H2 : 0 <= ACTIVE_EXTRUDER example_config < 256)
    by (vm_compute; split; [discriminate | reflexivity]).
  assert (H3 : block_buffer_tail example_boot <> next_buffer_head example_config example_boot)
    by (vm_compute; discriminate).
  split; [exact H1|]. split; [exact H2|]. split; [exact H3|].
  destruct (set_position_round_trip example_config example_sqrt example_boot 1 2 3 4 50 0
              H1 H2 H3) as (st2 & E & Hp & _).
  exists st2. split; [exact E | exact Hp].
Defined.

Lemma repeated_call_is_dropped_witness :
  0 <= dropsegments example_config /\ last_extruder example_boot = 0 /\
  exists st1,
    plan_buffer_line example_config example_sqrt example_boot 10 0 0 0 50 0 0
    = Some (Queued st1) /\
    (plan_buffer_line example_config example_sqrt st1 10 0 0 0 80 0 0 = Some Waiting \/
     exists st2,
       plan_buffer_line example_config example_sqrt st1 10 0 0 0 80 0 0 = Some (Dropped st2) /\
       position st2 = position st1 /\
       block_buffer_head st2 = block_buffer_head st1 /\
       previous_speed st2 = previous_speed st1 /\
       previous_nominal_speed st2 = previous_nominal_speed st1).
Proof.
  assert (H1 : 0 <= dropsegments example_config) by (vm_compute; discriminate).
  split; [exact H1|]. split; [reflexivity|].
  destruct (example_move_queues 0) as (st1 & E & _). exists st1. split; [exact E|].
  apply (repeated_call_is_dropped example_config example_sqrt example_boot 10 0 0 0 50 80 0
           0 0 st1 H1 eq_refl E).
Defined.

Lemma queued_direction_bits_witness :
  exists st',
    plan_buffer_line example_config example_sqrt example_boot 10 0 0 0 50 0 0
    = Some (Queued st') /\
    0 <= direction_bits (block_buffer st' (block_buffer_head example_boot)) < 16.
Proof.
  destruct (example_move_queues 0) as (st' & E & _). exists st'. split; [exact E|].
  apply (queued_direction_bits example_config example_sqrt example_boot 10 0 0 0 50 0 0 st' E).
Defined.

Lemma queued_step_counts_witness :
  exists st',
    plan_buffer_line example_config example_sqrt example_boot 10 0 0 0 50 0 0
    = Some (Queued st') /\
    dropsegments example_config
    < step_event_count (block_buffer st' (block_buffer_head example_boot)).
Proof.
  destruct (example_move_queues 0) as (st' & E & _). exists st'. split; [exact E|].
  apply (queued_step_counts example_config example_sqrt example_boot 10 0 0 0 50 0 0 st' E).
Defined.

Lemma queued_junction_speeds_witness :
  ring_ok example_config /\ sane_axes example_config 0 /\ sane_slowdown example_config /\
  sqrt_positive example_sqrt /\ (0 < 50)%Q /\ (0 <= max_xy_jerk example_config)%Q /\
  exists st',
    plan_buffer_line example_config example_sqrt example_boot 10 0 0 0 50 0 0
    = Some (Queued st') /\
    junction_ok (block_buffer st' (block_buffer_head example_boot)).
Proof.
  assert (Hj : (0 <= max_xy_jerk example_config)%Q) by (vm_compute; discriminate).
  split; [exact example_ring_ok|]. split; [exact (example_sane_axes 0)|].
  split; [exact example_sane_slowdown|]. split; [exact example_sqrt_positive|].
  split; [reflexivity|]. split; [exact Hj|].
  destruct (example_move_queues 0) as (st' & E & _). exists st'. split; [exact E|].
  exact (proj1 (queued_junction_speeds example_config example_sqrt example_boot
                  10 0 0 0 50 0 0 st' example_ring_ok (example_sane_axes 0)
                  example_sane_slowdown example_sqrt_positive eq_refl Hj E)).
Defined.

Lemma look_ahead_clears_recalculate_flags_witness :
  ring_ok example_config /\ In 3 (queued_blocks example_config queue7) /\
  exists st',
    planner_recalculate example_config example_sqrt queue7 = Some st' /\
    recalculate_flag (block_buffer st' 3) = false.
Proof.
  assert (Hh : in_ring example_config (block_buffer_head queue7))
    by (apply example_in_ring; cbn; lia).
  assert (Ht : in_ring example_config (block_buffer_tail queue7))
    by (apply example_in_ring; cbn; lia).
  assert (H3 : In 3 (queued_blocks example_config queue7))
    by (vm_compute; right; right; right; left; reflexivity).
  split; [exact example_ring_ok|]. split; [exact H3|].
  destruct (planner_recalculate_returns example_config example_sqrt example_ring_ok queue7
              Hh Ht) as (st' & E).
  exists st'. split; [exact E|].
  apply (look_ahead_clears_recalculate_flags example_config example_sqrt queue7 st'
           example_ring_ok Hh Ht E); exact H3.
Defined.

Lemma idle_axes_are_disabled_witness :
  ring_ok example_config /\ in_ring example_config (block_buffer_head fan_queue) /\
  in_ring example_config (block_buffer_tail fan_queue) /\
  exists st' out, check_axes_activity example_config fan_queue = Some (st', out) /\
                  block_buffer st' = block_buffer fan_queue.
Proof.
  assert (Hh : in_ring example_config (block_buffer_head fan_queue))
    by (apply example_in_ring; cbn; lia).
  assert (Ht : in_ring example_config (block_buffer_tail fan_queue))
    by (apply example_in_ring; cbn; lia).
  split; [exact example_ring_ok|]. split; [exact Hh|]. split; [exact Ht|].
  destruct (idle_axes_are_disabled example_config fan_queue example_ring_ok Hh Ht)
    as (st' & out & E & _ & _ & _ & _ & Eb & _).
  exists st', out. split; [exact E | exact Eb].
Defined.

Lemma look_ahead_writes_queued_blocks_only_witness :
  ring_ok example_config /\
  exists st',
    planner_recalculate example_config example_sqrt queue7 = Some st' /\
    entry_speed (block_buffer st' (block_buffer_tail queue7))
    = entry_speed (block_buffer queue7 (block_buffer_tail queue7)).
Proof.
  assert (Hh : in_ring example_config (block_buffer_head queue7))
    by (apply example_in_ring; cbn; lia).
  assert (Ht : in_ring example_config (block_buffer_tail queue7))
    by (apply example_in_ring; cbn; lia).
  split; [exact example_ring_ok|].
  destruct (planner_recalculate_returns example_config example_sqrt example_ring_ok queue7
              Hh Ht) as (st' & E).
  exists st'. split; [exact E|].
  apply (look_ahead_writes_queued_blocks_only example_config example_sqrt queue7 st'
           example_ring_ok Hh Ht E).
Defined.


(** ** Block builder: travel, retract and restore *)

Lemma static_kinds (a b : block_t) :
  static_part a = static_part b ->
  travel a = travel b /\ retract a = retract b /\ restore a = restore b.
Proof. unfold static_part. intros [= ]. repeat split; assumption. Qed.

Lemma e_bit_of_direction (cfg : config) (st : planner) (x y z e : float) (extruder : Z) :
  (Z.land (block_direction_bits cfg st x y z e extruder) (Z.shiftl 1 E_AXIS) =? 0)
  = negb (ax_e (target cfg x y z e extruder) <? ax_e (rescaled_position cfg st extruder)).
Proof.
  unfold block_direction_bits. cbv zeta.
  destruct (ax_x _ <? ax_x _), (ax_y _ <? ax_y _), (ax_z _ <? ax_z _), (ax_e _ <? ax_e _);
    reflexivity.
Qed.

Lemma i32_diff_nonzero (a b : Z) : i32 (a - b) <> 0 -> a <> b.
Proof. intros H ->. apply H. now rewrite Z.sub_diag. Qed.

(** X21. The kind of a queued block: a travel block steps no extruder and
    is neither retract nor restore; a retract block moves E backwards, a
    restore block forwards, and either moves X, Y and Z by no more than the
    drop threshold; no block is both. *)
Theorem queued_move_kind (cfg : config) (fsqrt : float -> float) (st : planner)
  (x y z e feed_rate : float) (extruder : Z) (safe_speed_uninit : float) (st' : planner) :
  plan_buffer_line cfg fsqrt st x y z e feed_rate extruder safe_speed_uninit
  = Some (Queued st') ->
  let b := block_buffer st' (block_buffer_head st) in
  let from := ax_e (rescaled_position cfg st extruder) in
  let to := ax_e (position st') in
  (travel b = true -> retract b = false /\ restore b = false /\ steps_e b = 0) /\
  (retract b = true ->
   restore b = false /\ to < from /\
   steps_x b <= dropsegments cfg /\ steps_y b <= dropsegments cfg /\
   steps_z b <= dropsegments cfg) /\
  (restore b = true ->
   retract b = false /\ from < to /\
   steps_x b <= dropsegments cfg /\ steps_y b <= dropsegments cfg /\
   steps_z b <= dropsegments cfg).
Proof.
  intros E. apply queued_inversion in E. destruct E as (_ & _ & E).
  apply queued_state in E. destruct E as (_ & _ & Ep & Es & _).
  pose proof (static_kinds _ _ Es) as (Et & Er & Eo).
  pose proof (static_fields_more _ _ Es) as (Ex & Ey & Ez & Ee & _).
  cbv zeta. rewrite Et, Er, Eo, Ex, Ey, Ez, Ee, Ep.
  unfold prepared_block. cbn [travel retract restore steps_x steps_y steps_z steps_e].
  unfold block_travel, block_retract, block_restore. rewrite e_bit_of_direction.
  assert (Hno : no_move cfg st x y z e extruder = true ->
                block_steps_x cfg st x y z e extruder <= dropsegments cfg /\
                block_steps_y cfg st x y z e extruder <= dropsegments cfg /\
                block_steps_z cfg st x y z e extruder <= dropsegments cfg).
  { unfold no_move. rewrite !andb_true_iff, !Z.leb_le. tauto. }
  assert (Hne : block_steps_e cfg st x y z e extruder <> 0 ->
                ax_e (target cfg x y z e extruder)
                <> ax_e (rescaled_position cfg st extruder)).
  { intros H. apply steps_e_nonzero in H. destruct H as [H _].
    unfold delta_steps in H. cbn [ax_e] in H. now apply i32_diff_nonzero. }
  destruct (no_move cfg st x y z e extruder);
    destruct (Z.eqb_spec (block_steps_e cfg st x y z e extruder) 0) as [E0|E0];
    destruct (Z.ltb_spec (ax_e (target cfg x y z e extruder))
                (ax_e (rescaled_position cfg st extruder)));
    cbn [negb andb]; repeat split; try discriminate; try tauto; try reflexivity;
    try (specialize (Hne E0); lia).
Qed.

(** A retract of 2 mm from the boot state. *)
Lemma example_retract_queues :
  exists st',
    plan_buffer_line example_config example_sqrt example_boot 0 0 0 (-2) 25 0 0
    = Some (Queued st') /\
    planner_recalculate example_config example_sqrt
      (committed example_config example_sqrt example_boot 0 0 0 (-2) 25 0 0) = Some st'.
Proof.
  assert (Hh : in_ring example_config (block_buffer_head example_boot))
    by (apply example_in_ring; cbn; lia).
  apply (plan_buffer_line_queues example_config example_sqrt example_boot 0 0 0 (-2) 25 0 0
           example_ring_ok Hh Hh).
  - vm_compute. discriminate.
  - vm_compute. reflexivity.
Qed.

Lemma queued_move_kind_witness :
  exists st',
    plan_buffer_line example_config example_sqrt example_boot 0 0 0 (-2) 25 0 0
    = Some (Queued st') /\
    retract (block_buffer st' (block_buffer_head example_boot)) = true /\
    restore (block_buffer st' (block_buffer_head example_boot)) = false /\
    ax_e (position st') < ax_e (rescaled_position example_config example_boot 0).
Proof.
  destruct example_retract_queues as (st' & E & Er). exists st'. split; [exact E|].
  destruct (queued_state example_config example_sqrt example_boot 0 0 0 (-2) 25 0 0 st' Er)
    as (_ & _ & _ & Es & _).
  apply static_kinds in Es. destruct Es as (_ & Ek & _).
  assert (Hr : retract (block_buffer st' (block_buffer_head example_boot)) = true)
    by (rewrite Ek; unfold prepared_block; cbn [retract]; vm_compute; reflexivity).
  split; [exact Hr|].
  destruct (queued_move_kind example_config example_sqrt example_boot 0 0 0 (-2) 25 0 0 st' E)
    as (_ & H & _).
  destruct (H Hr) as (H1 & H2 & _). split; [exact H1 | exact H2].
Defined.

(** ** Forward pass: entry speeds within reach *)

Lemma feq_true (a b : float) : feq a b = true -> (a == b)%Q.
Proof. unfold feq. apply Qeq_bool_eq. Qed.

Lemma forward_kernel_reaches (fsqrt : float -> float) (p c : Z) (n : option Z)
  (buf : Z -> block_t) :
  p <> c ->
  let buf' := planner_forward_pass_kernel fsqrt (Some p) (Some c) n buf in
  reachable fsqrt (buf' p) (buf' c).
Proof.
  intros Hpc. cbv zeta. unfold planner_forward_pass_kernel.
  destruct (nominal_length_flag (buf p)) eqn:Ef; cbn [negb]; [now left|].
  destruct (flt (entry_speed (buf p)) (entry_speed (buf c))) eqn:El.
  - set (v := fmin (entry_speed (buf c))
                (max_allowable_speed fsqrt (- acceleration (buf p)) (entry_speed (buf p))
                   (millimeters (buf p)))).
    destruct (feq (entry_speed (buf c)) v) eqn:Ee; cbn [negb].
    + right. right. apply feq_true in Ee. rewrite Ee. apply fmin_le_r.
    + rewrite store_block_same, store_block_other by exact Hpc.
      right. right. cbn [entry_speed set_recalculate_flag set_entry_speed]. apply fmin_le_r.
  - right. left. now apply flt_false in El.
Qed.

Lemma reachable_static (fsqrt : float -> float) (prv cur prv' cur' : block_t) :
  static_part prv' = static_part prv ->
  entry_speed prv' = entry_speed prv -> entry_speed cur' = entry_speed cur ->
  reachable fsqrt prv cur -> reachable fsqrt prv' cur'.
Proof.
  intros Hs Hp Hc. apply static_fields in Hs. destruct Hs as (_ & Hf & _ & _ & Hm & Ha).
  unfold reachable. now rewrite Hf, Hm, Ha, Hp, Hc.
Qed.

Section Reach.

Variable cfg : config.
Hypothesis Hring : ring_ok cfg.
Variable fsqrt : float -> float.

Local Abbreviation N := (BLOCK_BUFFER_SIZE cfg).

Lemma ring_offsets_distinct (t a b : Z) :
  0 <= a < N -> 0 <= b < N -> a <> b -> (t + a) mod N <> (t + b) mod N.
Proof.
  pose proof (ring_size cfg Hring) as HN. intros Ha Hb Hab E.
  assert (H : (a - b) mod N = 0).
  { replace (a - b) with ((t + a) - (t + b)) by lia.
    rewrite Zminus_mod, E, Z.sub_diag. apply Z.mod_0_l. lia. }
  apply Z.mod_divide in H; [|lia]. destruct H as [q Hq].
  assert (q = 0) by nia. lia.
Qed.

Lemma forward_fold_reach (buf0 : Z -> block_t) (t : Z) (n : nat) :
  Z.of_nat n <= N ->
  let s := fold_left (fun a j => forward_pass_body fsqrt j a) (ring_up cfg t n)
             ((None, None, None), buf0) in
  forall k, 0 <= k <= Z.of_nat n - 3 ->
            reachable fsqrt (snd s ((t + k) mod N)) (snd s ((t + k + 1) mod N)).
Proof.
  pose proof (ring_size cfg Hring) as HN.
  cbv zeta. induction n as [|n IH]; intros Hn k Hk; [cbn in Hk; lia|].
  rewrite Nat2Z.inj_succ in Hn, Hk.
  specialize (IH ltac:(lia)).
  pose proof (forward_fold cfg fsqrt buf0 t n) as Hw. cbv zeta in Hw.
  rewrite ring_up_snoc, fold_left_app. cbn [fold_left].
  destruct (fold_left _ (ring_up cfg t n) _) as [[[b0 b1] b2] buf].
  cbn [fst snd] in IH, Hw. destruct Hw as [Ew _]. injection Ew as E0 E1 E2.
  unfold forward_pass_body. cbn [snd]. rewrite E1, E2. unfold slot.
  destruct (Z.ltb_spec (Z.of_nat n - 2) 0) as [H2|H2]; [lia|].
  destruct (Z.ltb_spec (Z.of_nat n - 1) 0) as [H1|H1]; [lia|].
  destruct (Z.eq_dec k (Z.of_nat n - 2)) as [->|Hne].
  - replace (t + (Z.of_nat n - 2) + 1) with (t + (Z.of_nat n - 1)) by lia.
    apply forward_kernel_reaches. apply ring_offsets_distinct; lia.
  - rewrite !forward_kernel_frame.
    + apply IH. lia.
    + right. intros [= E]. revert E. replace (t + k + 1) with (t + (k + 1)) by lia.
      apply ring_offsets_distinct; lia.
    + right. intros [= E]. revert E. apply ring_offsets_distinct; lia.
Qed.

Lemma planner_forward_pass_reaches (st st' : planner) :
  in_ring cfg (block_buffer_head st) -> in_ring cfg (block_buffer_tail st) ->
  planner_forward_pass cfg fsqrt st = Some st' ->
  forall k, 0 <= k -> k + 1 < movesplanned cfg st ->
            reachable fsqrt (block_buffer st' ((block_buffer_tail st + k) mod N))
              (block_buffer st' ((block_buffer_tail st + k + 1) mod N)).
Proof.
  pose proof (ring_size cfg Hring) as HN.
  intros Hh Ht E k Hk0 Hk. rewrite (movesplanned_mod cfg st Hring) in Hk.
  unfold planner_forward_pass in E.
  rewrite (u8_small (block_buffer_tail st)) in E by (unfold in_ring in Ht; lia).
  rewrite (walk_queue cfg Hring _ _ st _ Hh Ht (u8_next_block_index cfg Hring)) in E.
  rewrite (queued_blocks_spec cfg Hring) in E.
  set (t := block_buffer_tail st) in *.
  set (d := (block_buffer_head st - t) mod N) in *.
  pose proof (Z.mod_pos_bound (block_buffer_head st - t) N ltac:(lia)) as Hd. fold d in Hd.
  pose proof (forward_fold cfg fsqrt (block_buffer st) t (Z.to_nat d)) as Hw.
  pose proof (forward_fold_reach (block_buffer st) t (Z.to_nat d) ltac:(lia)) as Hr.
  cbv zeta in Hw, Hr.
  destruct (fold_left _ _ _) as [[[b0 b1] b2] buf].
  cbn [fst snd] in Hw, Hr. destruct Hw as [Ew _]. injection Ew as E0 E1 E2.
  injection E as <-. cbn [block_buffer set_block_buffer].
  rewrite Z2Nat.id in * by lia. rewrite E1, E2. unfold slot.
  destruct (Z.ltb_spec (d - 2) 0) as [H2|H2]; [lia|].
  destruct (Z.ltb_spec (d - 1) 0) as [H1|H1]; [lia|].
  destruct (Z.eq_dec k (d - 2)) as [->|Hne].
  - replace (t + (d - 2) + 1) with (t + (d - 1)) by lia.
    apply forward_kernel_reaches. apply ring_offsets_distinct; lia.
  - rewrite !forward_kernel_frame.
    + apply Hr. lia.
    + right. intros [= E]. revert E. replace (t + k + 1) with (t + (k + 1)) by lia.
      apply ring_offsets_distinct; lia.
    + right. intros [= E]. revert E. apply ring_offsets_distinct; lia.
Qed.

End Reach.

(** X22. After [planner_recalculate], every queued block but the tail block
    is entered at a speed within reach of its predecessor: the predecessor
    has nominal length, or the block is entered no faster than the
    predecessor, or no faster than [max_allowable_speed] lets the
    predecessor accelerate to over its length. *)
Theorem look_ahead_entry_speeds_reachable (cfg : config) (fsqrt : float -> float)
  (st st' : planner) :
  ring_ok cfg -> in_ring cfg (block_buffer_head st) -> in_ring cfg (block_buffer_tail st) ->
  planner_recalculate cfg fsqrt st = Some st' ->
  forall k, 0 <= k -> k + 1 < movesplanned cfg st ->
            reachable fsqrt
              (block_buffer st' ((block_buffer_tail st + k) mod BLOCK_BUFFER_SIZE cfg))
              (block_buffer st' ((block_buffer_tail st + k + 1) mod BLOCK_BUFFER_SIZE cfg)).
Proof.
  intros Hring Hh Ht. unfold planner_recalculate.
  destruct (planner_reverse_pass cfg fsqrt st) as [st1|] eqn:E1; [|discriminate].
  destruct (planner_forward_pass cfg fsqrt st1) as [st2|] eqn:E2; [|discriminate].
  intros E3 k Hk0 Hk.
  pose proof (planner_reverse_pass_keeps cfg fsqrt st st1 E1) as (_ & R1 & _).
  pose proof (planner_forward_pass_keeps cfg fsqrt st1 st2 E2) as (_ & R2 & _).
  assert (Eh1 : block_buffer_head st1 = block_buffer_head st)
    by exact (f_equal (fun r => fst (fst (fst (fst (fst (fst r)))))) R1).
  assert (Et1 : block_buffer_tail st1 = block_buffer_tail st)
    by exact (f_equal (fun r => snd (fst (fst (fst (fst (fst r)))))) R1).
  assert (Eh2 : block_buffer_head st2 = block_buffer_head st1)
    by exact (f_equal (fun r => fst (fst (fst (fst (fst (fst r)))))) R2).
  assert (Et2 : block_buffer_tail st2 = block_buffer_tail st1)
    by exact (f_equal (fun r => snd (fst (fst (fst (fst (fst r)))))) R2).
  assert (Hh1 : in_ring cfg (block_buffer_head st1)) by now rewrite Eh1.
  assert (Ht1 : in_ring cfg (block_buffer_tail st1)) by now rewrite Et1.
  assert (Hh2 : in_ring cfg (block_buffer_head st2)) by now rewrite Eh2, Eh1.
  assert (Ht2 : in_ring cfg (block_buffer_tail st2)) by now rewrite Et2, Et1.
  assert (Em1 : movesplanned cfg st1 = movesplanned cfg st)
    by (unfold movesplanned; now rewrite Eh1, Et1).
  pose proof (planner_forward_pass_reaches cfg Hring fsqrt st1 st2 Hh1 Ht1 E2 k Hk0) as H.
  rewrite Et1, Em1 in H. specialize (H Hk).
  pose proof (planner_recalculate_trapezoids_keeps cfg st2 st' E3) as (S3 & _).
  destruct (planner_recalculate_trapezoids_frame cfg Hring st2 st' Hh2 Ht2 E3) as (_ & F3).
  revert H. apply reachable_static; [apply S3 | apply F3 | apply F3].
Qed.

Lemma look_ahead_entry_speeds_reachable_witness :
  ring_ok example_config /\ 0 <= 2 /\ 2 + 1 < movesplanned example_config queue7 /\
  exists st',
    planner_recalculate example_config example_sqrt queue7 = Some st' /\
    reachable example_sqrt (block_buffer st' 2) (block_buffer st' 3).
Proof.
  assert (Hh : in_ring example_config (block_buffer_head queue7))
    by (apply example_in_ring; cbn; lia).
  assert (Ht : in_ring example_config (block_buffer_tail queue7))
    by (apply example_in_ring; cbn; lia).
  assert (H0 : 0 <= 2) by lia.
  assert (H1 : 2 + 1 < movesplanned example_config queue7) by (vm_compute; reflexivity).
  split; [exact example_ring_ok|]. split; [exact H0|]. split; [exact H1|].
  destruct (planner_recalculate_returns example_config example_sqrt example_ring_ok queue7
              Hh Ht) as (st' & E).
  exists st'. split; [exact E|].
  apply (look_ahead_entry_speeds_reachable example_config example_sqrt queue7 st'
           example_ring_ok Hh Ht E 2 H0 H1).
Defined.

(** ** Initialisation *)

(** X23. [plan_init] empties the queue: no move is planned, no block is
    queued, the position is the origin, and the next call of the builder does
    not wait. *)
Theorem plan_init_empties_queue (cfg : config) (fsqrt : float -> float) (st : planner)
  (x y z e feed_rate : float) (extruder : Z) (safe_speed_uninit : float) :
  ring_ok cfg ->
  movesplanned cfg (plan_init st) = 0 /\
  queued_blocks cfg (plan_init st) = [] /\
  position (plan_init st) = mk_axes 0 0 0 0 /\
  plan_buffer_line cfg fsqrt (plan_init st) x y z e feed_rate extruder safe_speed_uninit
  <> Some Waiting.
Proof.
  intros Hring. pose proof (ring_size cfg Hring) as HN.
  assert (Em : movesplanned cfg (plan_init st) = 0).
  { rewrite (movesplanned_mod cfg _ Hring). cbn [plan_init block_buffer_head block_buffer_tail].
    apply Z.mod_0_l. lia. }
  split; [exact Em|]. split; [|split; [reflexivity|]].
  - unfold queued_blocks. now rewrite Em.
  - intros E. apply waiting_inversion in E. revert E.
    unfold next_buffer_head. cbn [plan_init block_buffer_head block_buffer_tail].
    rewrite (next_block_index_mod cfg Hring 0) by (unfold in_ring; lia).
    rewrite Z.mod_small by lia. discriminate.
Qed.

Lemma plan_init_empties_queue_witness :
  ring_ok example_config /\
  movesplanned example_config (plan_init queue7) = 0 /\
  plan_buffer_line example_config example_sqrt (plan_init queue7) 10 0 0 0 50 0 0
  <> Some Waiting.
Proof.
  split; [exact example_ring_ok|].
  destruct (plan_init_empties_queue example_config example_sqrt queue7 10 0 0 0 50 0 0
              example_ring_ok) as (H1 & _ & _ & H2).
  split; [exact H1 | exact H2].
Defined.
